(** * An 8-bit value sent between two processes with SIGUSR1 / SIGUSR2

    Shallow embedding of [q6/signal_receiver.cpp] and [q6/signal_sender.cpp].

    - [int], [pid_t] and [sig_atomic_t] are 32-bit signed integers: values
      are kept in [Z] and the wrap-around is written out ([wrap32]).
    - [Receiver]: the two [volatile] globals and the standard output form
      the state; [handle_sigusr] is a function on it whose outcome is to
      return or to [exit]; the process between two deliveries is suspended
      in [pause()] or gone.
    - [IStream]: what the sender uses of [std::cin], as the C++ standard
      library defines it: the unread text with [eofbit] and [failbit].
    - [Sender]: a small state-and-exit monad over standard input, the
      trace of observable events and the number of [kill] calls made; what
      [kill] returns is an oracle of the environment; a [while (1)] runs
      on fuel and is [Spin] when the fuel is used up.
    - [Signals]: the receiver once more, one load or store at a time,
      under the delivery rules for standard signals (pending set, blocked
      mask, [sa_mask], stack of handler activations). It is there to show
      that the mask [main] installs makes [Receiver.deliver] - one whole
      handler call per delivered signal - the right view, and to express
      the loss of a signal that arrives while one of its kind is pending. *)

From Stdlib Require Import ZArith List String Ascii Bool Lia DecimalString.
Import ListNotations.
Open Scope Z_scope.

(** ** Shared vocabulary: machine integers, signal numbers, text *)

Definition wrap32 (z : Z) : Z := (z + 2 ^ 31) mod 2 ^ 32 - 2 ^ 31.

(** Signal numbers as <csignal> gives them on Linux (x86, ARM). *)
Definition SIGUSR1 : Z := 10.
Definition SIGUSR2 : Z := 12.

(** [operator<<(int)]: the decimal text of an [int]. *)
Definition dec (z : Z) : string := NilZero.string_of_int (Z.to_int z).

(** What [std::endl] writes. *)
Definition endl : string := String "010"%char EmptyString.

(** The bit a signal stands for on the receiving side: the handler tests
    [sig == SIGUSR2] and nothing else. *)
Definition bit_of_sig (sig : Z) : bool := sig =? SIGUSR2.

(** ** The receiver: [signal_receiver.cpp] *)

Module Receiver.

(** The globals [bit_count] and [result], and what was written to
    [std::cout] so far. *)
Record state := mkState {
  bit_count : Z;
  result : Z;
  cout : string
}.

Inductive outcome :=
| Returned (s : state)            (* the handler returns to [pause] *)
| Exit (code : Z) (s : state).    (* the handler called [exit(code)] *)

(** [void handle_sigusr(int sig)], statement by statement. *)
Definition handle_sigusr (sig : Z) (s : state) : outcome :=
  (* result <<= 1; *)
  let r1 := wrap32 (Z.shiftl (result s) 1) in
  (* if (sig == SIGUSR2) result |= 1; *)
  let r2 := if sig =? SIGUSR2 then Z.lor r1 1 else r1 in
  (* bit_count++; *)
  let c1 := wrap32 (bit_count s + 1) in
  (* if (bit_count == 8) { cout << "Received " << result << endl; exit(0); } *)
  if c1 =? 8
  then Exit 0 (mkState c1 r2 (cout s ++ "Received " ++ dec r2 ++ endl))
  else Returned (mkState c1 r2 (cout s)).

(** The process as seen between two deliveries: suspended in [pause()]
    inside [while (true)], or gone. *)
Inductive proc :=
| Paused (s : state)
| Terminated (code : Z) (s : state).

(** [main] up to the first [pause()]: the globals are zero-initialised and
    the PID line is printed; [pid] is what [getpid()] returned. *)
Definition init (pid : Z) : state :=
  mkState 0 0 ("My PID is " ++ dec pid ++ endl).

Definition main (pid : Z) : proc := Paused (init pid).

(** One delivered signal: [pause] is interrupted, the handler runs, and
    [pause] is called again unless the handler exited. A process that has
    exited handles nothing. *)
Definition deliver (p : proc) (sig : Z) : proc :=
  match p with
  | Paused s =>
      match handle_sigusr sig s with
      | Returned s' => Paused s'
      | Exit code s' => Terminated code s'
      end
  | Terminated code s => Terminated code s
  end.

(** The signals of [sigs] delivered one after the other. *)
Definition run (p : proc) (sigs : list Z) : proc := fold_left deliver sigs p.

(** The n-th symbol of a history, as a bit (false beyond its end). *)
Definition symbol (sigs : list Z) (n : nat) : bool :=
  match nth_error sigs n with
  | Some sig => bit_of_sig sig
  | None => false
  end.

(** The accumulator invariant after the symbols [sigs]: the counter is
    their number [k], bit [j < k] of [result] is the symbol received
    [j] places before the last one, and every higher bit is zero. *)
Definition prefix_inv (sigs : list Z) (s : state) : Prop :=
  let k := List.length sigs in
  bit_count s = Z.of_nat k /\
  0 <= result s < 2 ^ Z.of_nat k /\
  (forall j : nat, (j < k)%nat ->
     Z.testbit (result s) (Z.of_nat j) = symbol sigs (k - 1 - j)) /\
  (forall j : Z, Z.of_nat k <= j -> Z.testbit (result s) j = false).

End Receiver.

(** ** [std::cin]: the part of <iostream> the sender uses

    The stream is the text not yet consumed together with its [eofbit] and
    [failbit] ([badbit] is never raised on a stream that only runs dry). The
    operations follow the C++ standard library for the classic locale with
    the stream's default flags ([skipws], base ten). *)

Module IStream.

Record t := mk {
  buf : list ascii;
  eofbit : bool;
  failbit : bool
}.

Definition good (s : t) : bool := negb (eofbit s) && negb (failbit s).

(** [cin.fail()] *)
Definition fail (s : t) : bool := failbit s.

(** [cin.clear()] *)
Definition clear (s : t) : t := mk (buf s) false false.

Definition code (c : ascii) : Z := Z.of_N (N_of_ascii c).

(** [traits_type::eof()] *)
Definition EOF : Z := -1.

Definition is_space (c : ascii) : bool :=
  (code c =? 32) || ((9 <=? code c) && (code c <=? 13)).

Definition is_digit (c : ascii) : bool :=
  (48 <=? code c) && (code c <=? 57).

Definition INT_MAX : Z := 2 ^ 31 - 1.
Definition INT_MIN : Z := - 2 ^ 31.

(** What the sentry of a formatted input skips. *)
Fixpoint skipws (b : list ascii) : list ascii :=
  match b with
  | c :: r => if is_space c then skipws r else b
  | [] => []
  end.

(** The digits of a number: the value read so far, whether any digit was
    seen, and the text left. *)
Fixpoint scan_digits (b : list ascii) (acc : Z) (seen : bool)
  : Z * bool * list ascii :=
  match b with
  | c :: r =>
      if is_digit c then scan_digits r (10 * acc + (code c - 48)) true
      else (acc, seen, b)
  | [] => (acc, seen, [])
  end.

(** [cin >> x] for an [int] (or [pid_t]) [x] holding [old]: nothing is
    read from a stream that is not good or that holds only white space,
    and [x] keeps its value; otherwise an optional sign and the digits are
    consumed, [eofbit] is raised when the text ran out while scanning, and
    [failbit] when there was no digit ([x] becomes 0) or the number does
    not fit ([x] becomes the nearest bound). *)
Definition extract_int (s : t) (old : Z) : t * Z :=
  if negb (good s) then (mk (buf s) (eofbit s) true, old)
  else
    match skipws (buf s) with
    | [] => (mk [] true true, old)
    | c :: r =>
        let neg := Ascii.eqb c "-" in
        let b1 := if neg || Ascii.eqb c "+" then r else c :: r in
        let '(n, seen, b2) := scan_digits b1 0 false in
        let eof := match b2 with [] => true | _ => false end in
        if negb seen then (mk b2 eof true, 0)
        else
          let v := if neg then - n else n in
          if v <? INT_MIN then (mk b2 eof true, INT_MIN)
          else if INT_MAX <? v then (mk b2 eof true, INT_MAX)
          else (mk b2 eof false, v)
    end.

(** [cin.peek()]: the next character, not consumed; [EOF] when the stream
    is not good or has run dry. *)
Definition peek (s : t) : t * Z :=
  if negb (good s) then (mk (buf s) (eofbit s) true, EOF)
  else
    match buf s with
    | c :: _ => (s, code c)
    | [] => (mk [] true (failbit s), EOF)
    end.

(** The text after the first newline, and whether the text ran out
    before one was found. *)
Fixpoint drop_line (b : list ascii) : list ascii * bool :=
  match b with
  | c :: r => if Ascii.eqb c "010" then (r, false) else drop_line r
  | [] => ([], true)
  end.

(** [cin.ignore(numeric_limits<streamsize>::max(), '\n')] *)
Definition ignore_line (s : t) : t :=
  if negb (good s) then mk (buf s) (eofbit s) true
  else
    let '(b, ran_out) := drop_line (buf s) in
    mk b ran_out (failbit s).

Definition of_string (text : string) : t :=
  mk (list_ascii_of_string text) false false.

End IStream.

(** ** The sender: [signal_sender.cpp] *)

Module Sender.

(** What an observer of the sender sees, in order. *)
Inductive event :=
| Cout (text : string)            (* written to [std::cout] *)
| Perror (text : string)          (* [perror(text)] on [stderr] *)
| Kill (pid sig ret : Z)          (* [kill(pid, sig)] returned [ret] *)
| Usleep (usec : Z).              (* [usleep(usec)] *)

Record state := mkState {
  cin : IStream.t;
  trace : list event;
  kills : nat                     (* calls to [kill] made so far *)
}.

Inductive outcome (A : Type) :=
| Ret (a : A) (s : state)         (* ran to its end with value [a] *)
| Exit (code : Z) (s : state)     (* called [exit(code)] *)
| Spin (s : state).               (* still inside a [while (1)] *)
Arguments Ret {A} a s.
Arguments Exit {A} code s.
Arguments Spin {A} s.

Definition M (A : Type) : Type := state -> outcome A.

Definition ret {A} (a : A) : M A := fun s => Ret a s.

Definition bind {A B} (m : M A) (k : A -> M B) : M B :=
  fun s =>
    match m s with
    | Ret a s' => k a s'
    | Exit code s' => Exit code s'
    | Spin s' => Spin s'
    end.

Notation "x <- m ;; k" := (bind m (fun x => k))
  (at level 61, m at next level, right associativity).
Notation "m ;; k" := (bind m (fun _ => k))
  (at level 61, right associativity).

Definition exit {A} (code : Z) : M A := fun s => Exit code s.

Definition emit (e : event) : M unit :=
  fun s => Ret tt (mkState (cin s) (trace s ++ [e]) (kills s)).

Definition on_cin {A} (f : IStream.t -> IStream.t * A) : M A :=
  fun s => let '(c, a) := f (cin s) in Ret a (mkState c (trace s) (kills s)).

Definition cin_int (old : Z) : M Z :=
  on_cin (fun c => IStream.extract_int c old).
Definition cin_fail : M bool := on_cin (fun c => (c, IStream.fail c)).
Definition cin_clear : M unit := on_cin (fun c => (IStream.clear c, tt)).
Definition cin_ignore : M unit := on_cin (fun c => (IStream.ignore_line c, tt)).
Definition cin_peek : M Z := on_cin IStream.peek.

Inductive ctl := Continue | Break.

(** [while (1) { body }] over the variable the body assigns, for at most
    [fuel] rounds. *)
Fixpoint while1 {A} (fuel : nat) (body : A -> M (ctl * A)) (a : A) : M A :=
  match fuel with
  | O => fun s => Spin s
  | S fuel' =>
      r <- body a ;;
      match fst r with
      | Break => ret (snd r)
      | Continue => while1 fuel' body (snd r)
      end
  end.

Section Environment.

(** [kill_ret n pid sig] is what the [n]-th call of [kill] made by the
    sender returns when it is [kill(pid, sig)]. *)
Variable kill_ret : nat -> Z -> Z -> Z.

Definition kill (pid sig : Z) : M Z :=
  fun s =>
    let r := kill_ret (kills s) pid sig in
    Ret r (mkState (cin s) (trace s ++ [Kill pid sig r]) (S (kills s))).

(** [void send_bit(pid_t pid, int bit)] *)
Definition send_bit (pid bit : Z) : M unit :=
  let sig := if bit =? 0 then SIGUSR1 else SIGUSR2 in
  r <- kill pid sig ;;
  (if r =? -1
   then emit (Perror "Failed to send signal") ;; exit 1
   else ret tt) ;;
  emit (Usleep 100000).

(** [for (int i = 7; i >= 0; --i) send_bit(receiver_pid, (number >> i) & 1);]
    with [n = i + 1] rounds to go. *)
Fixpoint send_loop (receiver_pid number : Z) (n : nat) : M unit :=
  match n with
  | O => ret tt
  | S i =>
      let bit := Z.land (Z.shiftr number (Z.of_nat i)) 1 in
      send_bit receiver_pid bit ;;
      send_loop receiver_pid number i
  end.

(** One round of the first [while (1)] of [main]. *)
Definition read_pid (receiver_pid : Z) : M (ctl * Z) :=
  emit (Cout "Enter receiver PID: ") ;;
  receiver_pid <- cin_int receiver_pid ;;
  failed <- cin_fail ;;
  bad <- (if failed then ret true
          else if receiver_pid <=? 0 then ret true
          else r <- kill receiver_pid 0 ;; ret (r =? -1)) ;;
  if (bad : bool)
  then
    cin_clear ;;
    cin_ignore ;;
    emit (Cout ("Invalid or unavailable PID." ++ endl)) ;;
    ret (Continue, receiver_pid)
  else ret (Break, receiver_pid).

(** One round of the second [while (1)] of [main]. *)
Definition read_number (number : Z) : M (ctl * Z) :=
  emit (Cout "Enter message: ") ;;
  number <- cin_int number ;;
  failed <- cin_fail ;;
  if (failed : bool)
  then
    cin_clear ;;
    cin_ignore ;;
    emit (Cout ("Invalid input. Please enter a valid number between 0 and 255." ++ endl)) ;;
    ret (Continue, number)
  else
    next <- cin_peek ;;
    if negb (next =? 10)
    then
      cin_clear ;;
      cin_ignore ;;
      emit (Cout ("Invalid input. Please enter a number between 0 and 255." ++ endl)) ;;
      ret (Continue, number)
    else if (number <? 0) || (255 <? number)
    then
      emit (Cout ("Invalid number. Please enter a number between 0 and 255." ++ endl)) ;;
      ret (Continue, number)
    else ret (Break, number).

(** [int main()]; [pid0] and [number0] are the indeterminate values the
    two locals start with. The value returned is the exit status. *)
Definition main (fuel : nat) (pid0 number0 : Z) : M Z :=
  receiver_pid <- while1 fuel read_pid pid0 ;;
  number <- while1 fuel read_number number0 ;;
  send_loop receiver_pid number 8 ;;
  ret 0.

End Environment.

(** The process starts with its input unread and nothing observed. *)
Definition start (input : string) : state :=
  mkState (IStream.of_string input) [] 0.

(** The signals a trace shows as handed to the kernel for [pid]: the
    calls of [kill] with a signal number other than 0 that did not fail. *)
Fixpoint delivered (pid : Z) (tr : list event) : list Z :=
  match tr with
  | Kill p sig r :: tr' =>
      if (p =? pid) && negb (sig =? 0) && negb (r =? -1)
      then sig :: delivered pid tr'
      else delivered pid tr'
  | _ :: tr' => delivered pid tr'
  | [] => []
  end.

(** Every call of [kill] that was to send a signal, failed or not. *)
Fixpoint attempts (tr : list event) : list (Z * Z) :=
  match tr with
  | Kill p sig _ :: tr' =>
      if sig =? 0 then attempts tr' else (p, sig) :: attempts tr'
  | _ :: tr' => attempts tr'
  | [] => []
  end.

(** The events of [s1] that are not yet in [s0]. *)
Definition since (s0 s1 : state) : list event :=
  skipn (List.length (trace s0)) (trace s1).

End Sender.

(** ** Signal delivery to the receiver

    The receiver's [main] installs [handle_sigusr] through [sigaction] with
    a mask, and its handler updates [volatile] globals by separate loads and
    stores. This module spells out what the comments of
    [signal_receiver.cpp] rely on: a standard signal is pending or not (a
    second one of the same kind while the first is pending leaves no
    trace), a pending signal is delivered only while it is not blocked,
    and for the time the handler runs the signals of [sa_mask] are blocked
    (together with the delivered one unless SA_NODEFER is set). A handler
    activation is a frame on a stack, so that a handler interrupting a
    handler is expressible. *)

Module Signals.

(** [sigset_t] *)
Definition sigset := list Z.
Definition sigemptyset : sigset := [].
Definition sigaddset (m : sigset) (sig : Z) : sigset := sig :: m.
Definition sigismember (m : sigset) (sig : Z) : bool := existsb (Z.eqb sig) m.
Definition sigdelset (m : sigset) (sig : Z) : sigset :=
  filter (fun x => negb (sig =? x)) m.

Definition SA_NODEFER : Z := 0x40000000.
Definition SA_RESETHAND : Z := 0x80000000.

(** [struct sigaction]; [sa_handler] is always [handle_sigusr]. *)
Record sigaction := mkAction {
  sa_mask : sigset;
  sa_flags : Z
}.

Inductive disposition :=
| SIG_DFL
| Handle (act : sigaction).

(** Where a running [handle_sigusr] stands; a value loaded from a
    [volatile] global and not yet stored back is part of the position. *)
Inductive pc :=
| ShlLoad                 (* result <<= 1 : load [result] *)
| ShlStore (t : Z)        (*               store [t << 1] *)
| TestSig                 (* if (sig == SIGUSR2) *)
| OrLoad                  (* result |= 1 : load [result] *)
| OrStore (t : Z)         (*              store [t | 1] *)
| IncLoad                 (* bit_count++ : load [bit_count] *)
| IncStore (t : Z)        (*               store [t + 1] *)
| TestCount               (* if (bit_count == 8) *)
| Report                  (* cout << "Received " << result << endl *)
| CallExit                (* exit(0) *)
| Return.                 (* the closing brace *)

Inductive moved :=
| Next (p : pc) (m : Receiver.state)
| Exits (code : Z) (m : Receiver.state)
| Returns (m : Receiver.state).

(** One load, store, test or call of [handle_sigusr(sig)]. *)
Definition instr (sig : Z) (p : pc) (m : Receiver.state) : moved :=
  let bc := Receiver.bit_count m in
  let res := Receiver.result m in
  let out := Receiver.cout m in
  match p with
  | ShlLoad => Next (ShlStore res) m
  | ShlStore t => Next TestSig (Receiver.mkState bc (wrap32 (Z.shiftl t 1)) out)
  | TestSig => Next (if sig =? SIGUSR2 then OrLoad else IncLoad) m
  | OrLoad => Next (OrStore res) m
  | OrStore t => Next IncLoad (Receiver.mkState bc (Z.lor t 1) out)
  | IncLoad => Next (IncStore bc) m
  | IncStore t => Next TestCount (Receiver.mkState (wrap32 (t + 1)) res out)
  | TestCount => Next (if bc =? 8 then Report else Return) m
  | Report =>
      Next CallExit
        (Receiver.mkState bc res (out ++ "Received " ++ dec res ++ endl))
  | CallExit => Exits 0 m
  | Return => Returns m
  end.

(** The handler run from position [p] to its end with nothing in
    between, for at most [fuel] steps. *)
Fixpoint finish (fuel : nat) (sig : Z) (p : pc) (m : Receiver.state)
  : option Receiver.outcome :=
  match fuel with
  | O => None
  | S fuel' =>
      match instr sig p m with
      | Next p' m' => finish fuel' sig p' m'
      | Exits code m' => Some (Receiver.Exit code m')
      | Returns m' => Some (Receiver.Returned m')
      end
  end.

(** The number of steps from a position to the end of the handler is at
    most this. *)
Definition rank (p : pc) : nat :=
  match p with
  | ShlLoad => 11 | ShlStore _ => 10 | TestSig => 9 | OrLoad => 8
  | OrStore _ => 7 | IncLoad => 6 | IncStore _ => 5 | TestCount => 4
  | Report => 3 | CallExit => 2 | Return => 1
  end%nat.

Record frame := mkFrame {
  f_sig : Z;                (* the argument of this activation *)
  f_pc : pc;
  f_saved : sigset          (* the mask to restore on return *)
}.

Inductive status :=
| Live
| Exited (code : Z)
| Killed (sig : Z).         (* default action of SIGUSR1 / SIGUSR2 *)

Record process := mkProcess {
  mem : Receiver.state;
  disp1 : disposition;      (* of SIGUSR1 *)
  disp2 : disposition;      (* of SIGUSR2 *)
  blocked : sigset;
  pending : sigset;
  stack : list frame;       (* innermost activation first; [] is [pause()] *)
  stat : status
}.

Definition is_usr (sig : Z) : bool := (sig =? SIGUSR1) || (sig =? SIGUSR2).

Definition disp (k : process) (sig : Z) : disposition :=
  if sig =? SIGUSR1 then disp1 k else disp2 k.

Definition has_flag (flags flag : Z) : bool := negb (Z.land flags flag =? 0).

(** A process whose two signals were given the action [sa] through
    [sigaction], suspended in its first [pause()]. *)
Definition boot (sa : sigaction) (pid : Z) : process :=
mkProcess (Receiver.init pid) (Handle sa) (Handle sa) [] [] [] Live.

(** [main] of the receiver up to its first [pause()]. [sa_flags] is
    never assigned by [main]: the value it happens to hold is a
    parameter. *)
Definition main (flags pid : Z) : process :=
let mask := sigaddset (sigaddset sigemptyset SIGUSR1) SIGUSR2 in
let sa := mkAction mask flags in
(* sigaction(SIGUSR1, &sa, nullptr); sigaction(SIGUSR2, &sa, nullptr); *)
boot sa pid.

Inductive action :=
| Arrive (sig : Z)          (* a [kill] of the sender reaches the process *)
| Deliver (sig : Z)         (* the kernel starts the action for a pending signal *)
| Tick.                     (* the innermost handler makes one step *)

Definition arrive (sig : Z) (k : process) : process :=
  mkProcess (mem k) (disp1 k) (disp2 k) (blocked k)
    (if sigismember (pending k) sig then pending k
     else sigaddset (pending k) sig)
    (stack k) (stat k).

Definition deliver (sig : Z) (k : process) : process :=
  let pend := sigdelset (pending k) sig in
  match disp k sig with
  | SIG_DFL =>
      mkProcess (mem k) (disp1 k) (disp2 k) (blocked k) pend (stack k)
        (Killed sig)
  | Handle act =>
      let reset := has_flag (sa_flags act) SA_RESETHAND in
      let own := if has_flag (sa_flags act) SA_NODEFER then [] else [sig] in
      mkProcess (mem k)
        (if reset && (sig =? SIGUSR1) then SIG_DFL else disp1 k)
        (if reset && negb (sig =? SIGUSR1) then SIG_DFL else disp2 k)
        (sa_mask act ++ own ++ blocked k)
        pend
        (mkFrame sig ShlLoad (blocked k) :: stack k)
        Live
  end.

Definition tick (f : frame) (fs : list frame) (k : process) : process :=
  match instr (f_sig f) (f_pc f) (mem k) with
  | Next p m =>
      mkProcess m (disp1 k) (disp2 k) (blocked k) (pending k)
        (mkFrame (f_sig f) p (f_saved f) :: fs) Live
  | Exits code m =>
      mkProcess m (disp1 k) (disp2 k) (blocked k) (pending k)
        (f :: fs) (Exited code)
  | Returns m =>
      mkProcess m (disp1 k) (disp2 k) (f_saved f) (pending k) fs Live
  end.

(** One action; [None] when it cannot happen in this state. Nothing
    runs in a process that is gone, and signals sent to it are lost. *)
Definition step (a : action) (k : process) : option process :=
  match stat k with
  | Live =>
      match a with
      | Arrive sig => if is_usr sig then Some (arrive sig k) else None
      | Deliver sig =>
          if is_usr sig && sigismember (pending k) sig
             && negb (sigismember (blocked k) sig)
          then Some (deliver sig k)
          else None
      | Tick =>
          match stack k with
          | f :: fs => Some (tick f fs k)
          | [] => None
          end
      end
  | _ =>
      match a with
      | Arrive _ => Some k
      | _ => None
      end
  end.

Fixpoint exec (sch : list action) (k : process) : option process :=
  match sch with
  | [] => Some k
  | a :: sch' =>
      match step a k with
      | Some k' => exec sch' k'
      | None => None
      end
  end.

(** The signals for which a schedule starts an action, and those it
    lets arrive, in order. *)
Fixpoint deliveries (sch : list action) : list Z :=
  match sch with
  | Deliver sig :: sch' => sig :: deliveries sch'
  | _ :: sch' => deliveries sch'
  | [] => []
  end.

Fixpoint arrivals (sch : list action) : list Z :=
  match sch with
  | Arrive sig :: sch' => sig :: arrivals sch'
  | _ :: sch' => arrivals sch'
  | [] => []
  end.

(** How many arrivals of a schedule run from [k] met a live process in
    which a signal of the same kind was still pending. *)
Fixpoint coalesced (sch : list action) (k : process) : nat :=
  match sch with
  | [] => 0
  | a :: sch' =>
      match step a k with
      | Some k' =>
          (match a, stat k with
           | Arrive sig, Live => if sigismember (pending k) sig then 1 else 0
           | _, _ => 0
           end + coalesced sch' k')%nat
      | None => 0%nat
      end
  end.

(** The process as [Receiver.proc] shows it, when no handler is under
    way. *)
Definition view (k : process) : option Receiver.proc :=
  match stat k with
  | Live =>
      match stack k with
      | [] => Some (Receiver.Paused (mem k))
      | _ => None
      end
  | Exited code => Some (Receiver.Terminated code (mem k))
  | Killed _ => None
  end.

End Signals.

(** ** Vocabulary of the specification *)

(** The signal that stands for bit [i] of [number]: SIGUSR1 for 0 and
    SIGUSR2 for 1. *)
Definition signal_of_bit (number : Z) (i : nat) : Z :=
  if Z.testbit number (Z.of_nat i) then SIGUSR2 else SIGUSR1.

(** The signals for bits [n - 1] down to 0 of [number], most significant
    first. *)
Fixpoint symbols (number : Z) (n : nat) : list Z :=
  match n with
  | O => []
  | S i => signal_of_bit number i :: symbols number i
  end.

(** The signal [send_bit] chooses for its argument. *)
Definition bit_signal (bit : Z) : Z := if bit =? 0 then SIGUSR1 else SIGUSR2.

(** What the sender's trace gains by sending [sigs] to [pid] when the
    calls of [kill], numbered from [n], return what [kill_ret] says. *)
Fixpoint sent_events (kill_ret : nat -> Z -> Z -> Z) (pid : Z) (n : nat)
  (sigs : list Z) : list Sender.event :=
  match sigs with
  | [] => []
  | sig :: sigs' =>
      Sender.Kill pid sig (kill_ret n pid sig) :: Sender.Usleep 100000
        :: sent_events kill_ret pid (S n) sigs'
  end.

(** A receiver that ended by reporting a value other than [v]. *)
Definition reports_wrong_value (pid v : Z) (p : Receiver.proc) : Prop :=
  exists code s x,
    p = Receiver.Terminated code s /\
    Receiver.cout s =
      (Receiver.cout (Receiver.init pid) ++ "Received " ++ dec x ++ endl)%string /\
    x <> v.

(** *** Text on the sender's input *)

Definition all_spaces (ws : list ascii) : Prop :=
  Forall (fun c => IStream.is_space c = true) ws.

Definition all_digits (ds : list ascii) : Prop :=
  Forall (fun c => IStream.is_digit c = true) ds.

(** The number a string of decimal digits denotes. *)
Definition digits_value (ds : list ascii) : Z :=
  fold_left (fun a c => 10 * a + (IStream.code c - 48)) ds 0.

(** The text does not go on with a digit. *)
Definition number_ends (rest : list ascii) : Prop :=
  match rest with
  | [] => True
  | c :: _ => IStream.is_digit c = false
  end.

(** The text [b] is: white space, an optional sign, the digits of [n],
    and then [rest]. *)
Definition numeral_at (b : list ascii) (n : Z) (rest : list ascii) : Prop :=
  exists ws sg ds,
    b = ws ++ sg ++ ds ++ rest /\
    all_spaces ws /\
    (sg = [] /\ n = digits_value ds \/
     sg = ["+"%char] /\ n = digits_value ds \/
     sg = ["-"%char] /\ n = - digits_value ds) /\
    ds <> [] /\ all_digits ds /\
    number_ends rest.

(** Text that does not start with a number: nothing, or a character that
    is neither white space, nor a sign, nor a digit, or a sign that no
    digit follows. *)
Definition unreadable (b : list ascii) : bool :=
  match b with
  | [] => true
  | c :: r =>
      if Ascii.eqb c "-" || Ascii.eqb c "+"
      then match r with
           | [] => true
           | d :: _ => negb (IStream.is_digit d)
           end
      else negb (IStream.is_digit c) && negb (IStream.is_space c)
  end.

(** A character that cannot be part of a number: not a digit, not white
    space, not a sign. *)
Definition non_numeric (c : ascii) : bool :=
  negb (IStream.is_digit c) && negb (IStream.is_space c)
  && negb (Ascii.eqb c "-") && negb (Ascii.eqb c "+").

(** The text [b] is white space followed by text that does not start
    with a number. *)
Definition no_number_at (b : list ascii) : Prop :=
  exists ws rest, b = ws ++ rest /\ all_spaces ws /\ unreadable rest = true.

(** The [int] that [cin >> x] stores for the number [n]. *)
Definition clamp (n : Z) : Z :=
  if n <? IStream.INT_MIN then IStream.INT_MIN
  else if IStream.INT_MAX <? n then IStream.INT_MAX
  else n.

Definition fits (n : Z) : bool :=
  (IStream.INT_MIN <=? n) && (n <=? IStream.INT_MAX).

(** The three messages of the value prompt and the one of the PID prompt. *)
Definition msg_not_a_number : string :=
  "Invalid input. Please enter a valid number between 0 and 255." ++ endl.
Definition msg_trailing : string :=
  "Invalid input. Please enter a number between 0 and 255." ++ endl.
Definition msg_range : string :=
  "Invalid number. Please enter a number between 0 and 255." ++ endl.
Definition msg_pid : string := "Invalid or unavailable PID." ++ endl.

(** The same two events [n] times over. *)
Definition again (n : nat) (round : list Sender.event) : list Sender.event :=
  List.concat (repeat round n).

(** The exit status of a finished sender, if it finished. *)
Definition finished {A} (o : Sender.outcome A) : bool :=
  match o with
  | Sender.Spin _ => false
  | _ => true
  end.

Definition final_state {A} (o : Sender.outcome A) : Sender.state :=
  match o with
  | Sender.Ret _ s => s
  | Sender.Exit _ s => s
  | Sender.Spin s => s
  end.

(** What a round of an input loop does, whatever the input: it prints
    its prompt, sends no signal, and either goes round again, having
    consumed some of the text there was, or leaves the loop. *)
Inductive round_facts (s : Sender.state) (prompt : string)
  : Sender.ctl -> Sender.state -> Prop :=
| round_again (s' : Sender.state) (evs : list Sender.event) :
    Sender.trace s' = Sender.trace s ++ Sender.Cout prompt :: evs ->
    Sender.attempts evs = [] ->
    (forall pid, Sender.delivered pid evs = []) ->
    (Sender.kills s <= Sender.kills s')%nat ->
    (IStream.buf (Sender.cin s) = [] -> IStream.buf (Sender.cin s') = []) ->
    (IStream.buf (Sender.cin s) <> [] ->
     (List.length (IStream.buf (Sender.cin s')) <
      List.length (IStream.buf (Sender.cin s)))%nat) ->
    round_facts s prompt Sender.Continue s'
| round_done (s' : Sender.state) (evs : list Sender.event) :
    Sender.trace s' = Sender.trace s ++ Sender.Cout prompt :: evs ->
    Sender.attempts evs = [] ->
    (forall pid, Sender.delivered pid evs = []) ->
    (Sender.kills s <= Sender.kills s')%nat ->
    IStream.buf (Sender.cin s) <> [] ->
    (List.length (IStream.buf (Sender.cin s')) <
     List.length (IStream.buf (Sender.cin s)))%nat ->
    round_facts s prompt Sender.Break s'.

(** *** Signal delivery *)

(** The [struct sigaction] that the receiver's [main] passes to both
    calls of [sigaction]. *)
Definition installed (flags : Z) : Signals.sigaction :=
  Signals.mkAction [SIGUSR2; SIGUSR1] flags.

(** No handler runs inside a handler: every installed action blocks both
    signals, at most one activation exists, and while the process lives
    either nothing is blocked and no handler runs, or one handler runs
    with both signals blocked and an empty mask to go back to. *)
Definition one_at_a_time (k : Signals.process) : Prop :=
  (forall sig act,
     Signals.disp k sig = Signals.Handle act ->
     Signals.sigismember (Signals.sa_mask act) SIGUSR1 = true /\
     Signals.sigismember (Signals.sa_mask act) SIGUSR2 = true) /\
  (List.length (Signals.stack k) <= 1)%nat /\
  (Signals.stat k = Signals.Live ->
   match Signals.stack k with
   | [] => Signals.blocked k = []
   | f :: _ =>
       Signals.f_saved f = [] /\
       Signals.sigismember (Signals.blocked k) SIGUSR1 = true /\
       Signals.sigismember (Signals.blocked k) SIGUSR2 = true
   end).

(** The process after the deliveries [h], seen through the receiver of
    [Receiver.run]: between handler runs it is that receiver; inside a
    handler run, letting the handler finish from where it stands gives
    what one uninterrupted [handle_sigusr] gives on the state the handler
    found. *)
Definition in_step (flags pid : Z) (h : list Z) (k : Signals.process) : Prop :=
  Signals.disp1 k = Signals.Handle (installed flags) /\
  Signals.disp2 k = Signals.Handle (installed flags) /\
  match Signals.stat k with
  | Signals.Live =>
      match Signals.stack k with
      | [] => Receiver.run (Receiver.main pid) h = Receiver.Paused (Signals.mem k)
      | f :: _ =>
          exists pre g0,
            h = pre ++ [Signals.f_sig f] /\
            Receiver.run (Receiver.main pid) pre = Receiver.Paused g0 /\
            Signals.finish (Signals.rank (Signals.f_pc f)) (Signals.f_sig f)
              (Signals.f_pc f) (Signals.mem k) =
              Some (Receiver.handle_sigusr (Signals.f_sig f) g0)
      end
  | Signals.Exited code =>
      Receiver.run (Receiver.main pid) h = Receiver.Terminated code (Signals.mem k)
  | Signals.Killed _ => False
  end.

(** Every arrival is a delivery, a pending signal or a coalesced
    arrival, as long as the process lives. *)
Definition accounted (h : list Z) (a c : nat) (k : Signals.process) : Prop :=
  (List.length h + List.length (Signals.pending k) + c <= a)%nat /\
  (Signals.stat k = Signals.Live ->
   (List.length h + List.length (Signals.pending k) + c = a)%nat /\
   NoDup (Signals.pending k)).

(** What one action adds to the deliveries and to the arrivals. *)
Definition delivery_of (a : Signals.action) : list Z :=
  match a with
  | Signals.Deliver sig => [sig]
  | _ => []
  end.

(** Whether an action is an arrival. *)
Definition arrival_count (a : Signals.action) : nat :=
  match a with
  | Signals.Arrive _ => 1
  | _ => 0
  end.

(** Whether an action is an arrival that finds its signal pending in a
    live process. *)
Definition lost_here (a : Signals.action) (k : Signals.process) : nat :=
  match a, Signals.stat k with
  | Signals.Arrive sig, Signals.Live =>
      if Signals.sigismember (Signals.pending k) sig then 1 else 0
  | _, _ => 0
  end.

(** A schedule for a process that blocks nothing in its handler:
    SIGUSR1 is delivered when the handler for SIGUSR2 has loaded
    [bit_count] for its increment and not yet stored it. *)
Definition nesting_schedule : list Signals.action :=
  [Signals.Arrive SIGUSR2; Signals.Deliver SIGUSR2] ++ repeat Signals.Tick 6
    ++ [Signals.Arrive SIGUSR1; Signals.Deliver SIGUSR1] ++ repeat Signals.Tick 7
    ++ repeat Signals.Tick 3.

(** The 7 steps of a handler run for SIGUSR1 that does not end the
    process. *)
Definition handler_run : list Signals.action := repeat Signals.Tick 7.

(** A transmission of the value 0 in which the second SIGUSR1 arrives
    before the first is delivered; the other six arrive one by one, each
    delivered and handled before the next. *)
Definition lossy_schedule : list Signals.action :=
  [Signals.Arrive SIGUSR1; Signals.Arrive SIGUSR1; Signals.Deliver SIGUSR1]
    ++ handler_run
    ++ List.concat
         (repeat ([Signals.Arrive SIGUSR1; Signals.Deliver SIGUSR1] ++ handler_run) 6).

(** Proves [numeral_at] for a text that is given in full. *)
Ltac numeral_here ws sg ds :=
  exists ws, sg, ds;
  split; [reflexivity|];
  split; [repeat constructor|];
  split; [first [left; split; reflexivity
                | right; left; split; reflexivity
                | right; right; split; reflexivity]|];
  split; [discriminate|];
  split; [repeat constructor | first [exact I | reflexivity]].

(** Runs [Signals.finish] on a handler position given in full, splitting
    on the tests it meets. *)
Ltac run_handler :=
  cbn [Signals.finish Signals.instr Signals.rank
       Receiver.bit_count Receiver.result Receiver.cout];
  repeat match goal with
         | |- context [if ?b then _ else _] =>
             destruct b;
             cbn [Signals.finish Signals.instr Signals.rank
                  Receiver.bit_count Receiver.result Receiver.cout]
         end.

(** *** Further vocabulary for the sender *)

(** An event that is no call of [kill], or a call for a single process
    (a positive PID) with signal 0, SIGUSR1 or SIGUSR2. *)
Definition harmless (e : Sender.event) : bool :=
  match e with
  | Sender.Kill p sig _ =>
      (0 <? p) && ((sig =? 0) || (sig =? SIGUSR1) || (sig =? SIGUSR2))
  | _ => true
  end.

(** What an input loop may do: print, or ask whether the process with a
    positive PID exists. *)
Definition probe_only (e : Sender.event) : bool :=
  match e with
  | Sender.Cout _ => true
  | Sender.Kill p sig _ => (0 <? p) && (sig =? 0)
  | _ => false
  end.

(** The time the sender spent in [usleep], in microseconds. *)
Fixpoint total_pause (tr : list Sender.event) : Z :=
  match tr with
  | Sender.Usleep usec :: tr' => usec + total_pause tr'
  | _ :: tr' => total_pause tr'
  | [] => 0
  end.

(** *** Further vocabulary for the receiver *)

(** The globals of a receiver, suspended or gone. *)
Definition state_of (p : Receiver.proc) : Receiver.state :=
  match p with
  | Receiver.Paused s => s
  | Receiver.Terminated _ s => s
  end.

(** *** Schedules in which every signal is served *)

(** The steps of a whole handler run for [sig]: 7 without and 9 with the
    [result |= 1], and one more when the run ends in [exit]. *)
Definition ticks_for (sig : Z) (eighth : bool) : nat :=
  Nat.add (if sig =? SIGUSR2 then 9%nat else 7%nat) (if eighth then 1%nat else 0%nat).

(** Each signal of [sigs] arrives, is delivered and is handled before the
    next arrives; [already] signals were handled before. *)
Fixpoint serve (sigs : list Z) (already : nat) : list Signals.action :=
  match sigs with
  | [] => []
  | sig :: sigs' =>
      [Signals.Arrive sig; Signals.Deliver sig]
        ++ repeat Signals.Tick (ticks_for sig (already =? 7)%nat)
        ++ serve sigs' (S already)
  end.

(** The 8 symbols of [v] arrive in order; the first two are both pending
    before either is delivered, and the second is delivered first. *)
Definition swapped_schedule (v : Z) : list Signals.action :=
  match symbols v 8 with
  | a :: b :: rest =>
      [Signals.Arrive a; Signals.Arrive b; Signals.Deliver b]
        ++ repeat Signals.Tick (ticks_for b false)
        ++ [Signals.Deliver a]
        ++ repeat Signals.Tick (ticks_for a false)
        ++ serve rest 2
  | _ => []
  end.

(** What is checked, value by value, of [swapped_schedule]: its arrivals
    are the symbols of [v], none is coalesced, and it ends in a process
    that exited with status 0 holding [v - 64], which is [v] with its two
    leading bits 1, 0 exchanged. *)
Definition swap_check (pid : Z) (n : nat) : bool :=
  let v := Z.of_nat n in
  if Z.testbit v 7 && negb (Z.testbit v 6)
  then
    (if list_eq_dec Z.eq_dec (Signals.arrivals (swapped_schedule v)) (symbols v 8)
     then true else false)
    && (Signals.coalesced (swapped_schedule v) (Signals.main 0 pid) =? 0)%nat
    && match Signals.exec (swapped_schedule v) (Signals.main 0 pid) with
       | Some k =>
           match Signals.stat k with
           | Signals.Exited code =>
               (code =? 0) && (Receiver.result (Signals.mem k) =? v - 64)
               && (List.length (Signals.deliveries (swapped_schedule v)) =? 8)%nat
           | _ => false
           end
       | None => false
       end
  else true.

(** ** The phone book: what [q7/PB2add.cpp] and [q7/findPhone.cpp] share

    A C string is kept as the list of its characters; a NUL inside the
    list ends the string there, as it does for the loops of the source. *)

Module CString.

Definition NUL : ascii := "000"%char.

(** The characters before the terminator. *)
Fixpoint chars (s : list ascii) : list ascii :=
  match s with
  | [] => []
  | c :: rest => if Ascii.eqb c NUL then [] else c :: chars rest
  end.

(** [isalpha] and [isdigit] of <cctype> in the "C" locale, which is the
    locale of a program that never calls [setlocale]: the 52 letters and
    the 10 digits of ASCII, and no byte above 127. *)
Definition isalpha (c : ascii) : bool :=
  let n := IStream.code c in
  ((65 <=? n) && (n <=? 90)) || ((97 <=? n) && (n <=? 122)).

Definition isdigit (c : ascii) : bool :=
  let n := IStream.code c in (48 <=? n) && (n <=? 57).

(** [bool is_valid_name(const char* name)], the same in both files. *)
Fixpoint is_valid_name (name : list ascii) : bool :=
  match name with
  | [] => true
  | c :: rest =>
      if Ascii.eqb c NUL then true                      (* name[i] != '\0' *)
      else if negb (isalpha c) && negb (Ascii.eqb c " ") && negb (Ascii.eqb c "'")
      then false
      else is_valid_name rest
  end.

(** [bool is_valid_phone(const char* phone)] *)
Fixpoint is_valid_phone (phone : list ascii) : bool :=
  match phone with
  | [] => true
  | c :: rest =>
      if Ascii.eqb c NUL then true
      else if negb (isdigit c) && negb (Ascii.eqb c "-")
      then false
      else is_valid_phone rest
  end.

End CString.

(** ** Adding an entry: [q7/PB2add.cpp] *)

Module PB2add.

Inductive event :=
| Cerr (text : string)
| Cout (text : string)
| Open (path : string) (flags mode fd : Z)     (* [open] returned [fd] *)
| Write (fd : Z) (bytes : list ascii)          (* [write(fd, bytes, length)] *)
| Close (fd : Z).

Inductive outcome :=
| Returned (status : Z) (tr : list event)
| OutOfBounds (tr : list event).   (* a store beyond the end of [buffer] *)

(** [O_WRONLY | O_APPEND | O_CREAT] and [0644] as <fcntl.h> gives them on
    Linux. *)
Definition open_flags : Z := Z.lor (Z.lor 1 1024) 64.
Definition open_mode : Z := 420.

(** [while (argv[i][j] != '\0' && nameIndex < 255) name[nameIndex++] = argv[i][j++];]
    [name] is what was stored so far, so that [nameIndex] is its length;
    the array [name[256]] holds it followed by zeros. *)
Fixpoint copy_part (arg name : list ascii) : list ascii :=
  match arg with
  | [] => name
  | c :: rest =>
      if Ascii.eqb c CString.NUL then name
      else if (List.length name <? 255)%nat then copy_part rest (name ++ [c])
      else name
  end.

(** [for (int i = 1; i < argc - 1; ++i)] over the arguments that make
    the name; a space is stored after every one but the last
    ([i < argc - 2]) while there is room. *)
Fixpoint join_parts (parts : list (list ascii)) (name : list ascii) : list ascii :=
  match parts with
  | [] => name
  | arg :: rest =>
      let name1 := copy_part arg name in
      let name2 :=
        match rest with
        | [] => name1
        | _ :: _ => if (List.length name1 <? 255)%nat then name1 ++ [" "%char] else name1
        end in
      join_parts rest name2
  end.

(** [buffer[index] = c] in [char buffer[512]]: [None] beyond its end. *)
Fixpoint store (buffer : list ascii) (index : nat) (c : ascii) : option (list ascii) :=
  match buffer, index with
  | [], _ => None
  | _ :: rest, O => Some (c :: rest)
  | x :: rest, S i =>
      match store rest i c with
      | Some rest' => Some (x :: rest')
      | None => None
      end
  end.

(** [for (int i = 0; src[i] != '\0'; ++i) buffer[index++] = src[i];] *)
Fixpoint fill (src buffer : list ascii) (index : nat) : option (list ascii * nat) :=
  match src with
  | [] => Some (buffer, index)
  | c :: rest =>
      if Ascii.eqb c CString.NUL then Some (buffer, index)
      else
        match store buffer index c with
        | Some buffer' => fill rest buffer' (S index)
        | None => None
        end
  end.

Definition usage : list event :=
  [Cerr ("Usage: ./PB2add  <full name> <phone number>" ++ endl);
   Cerr ("run example: ./PB2add  John Doe 123-4567890" ++ endl)].

(** The name as [main] builds it from [argv[1]] to [argv[argc - 2]]. *)
Definition name_of (argv : list (list ascii)) : list ascii :=
  join_parts (firstn (List.length argv - 2) (skipn 1 argv)) [].

(** [argv[argc - 1]] *)
Definition phone_of (argv : list (list ascii)) : list ascii :=
  nth (List.length argv - 1) argv [].

(** Lines 120 to 138 of [main]: the entry is put together in [buffer];
    the result is the [index] bytes that [write] is given, or [None] when
    a store falls beyond the end of [buffer]. *)
Definition compose (name phone buffer : list ascii) : option (list ascii) :=
  match fill name buffer 0 with
  | None => None
  | Some (b1, i1) =>
  match store b1 i1 ","%char with                 (* buffer[index++] = ','; *)
  | None => None
  | Some b2 =>
  match fill phone b2 (S i1) with
  | None => None
  | Some (b3, i3) =>
  match store b3 i3 "010"%char with               (* buffer[index++] = '\n'; *)
  | None => None
  | Some b4 =>
  match store b4 (S i3) CString.NUL with          (* buffer[index] = '\0'; *)
  | None => None
  | Some b5 => Some (firstn (S i3) b5)
  end end end end end.

(** [int main(int argc, char *argv[])]. [garbage] is what the 512 bytes
    of [buffer] hold before they are written, [open_ret] what [open]
    returns; what [write] and [close] return is not looked at. *)
Definition main (argv : list (list ascii)) (garbage : nat -> ascii) (open_ret : Z)
  : outcome :=
  if (List.length argv <? 3)%nat then Returned 1 usage
  else
    let name := name_of argv in
    if negb (CString.is_valid_name name)
    then Returned 1
           [Cerr ("invalid name: Name must contain letters or spaces only" ++ endl)]
    else
      let phone := phone_of argv in
      if negb (CString.is_valid_phone phone)
      then Returned 1
             [Cerr ("invalid phone: Phone number must contain digits or hyphens only" ++ endl)]
      else
        let fd := open_ret in
        let opened := [Open "phonebook.txt" open_flags open_mode fd] in
        if fd <? 0
        then Returned 1 (opened ++ [Cerr ("Error: failed to open the file" ++ endl)])
        else
          match compose name phone (map garbage (seq 0 512)) with
          | None => OutOfBounds opened
          | Some bytes =>
              Returned 0
                (opened ++
                   [Write fd bytes; Close fd;
                    Cout ("Added successfully to phonebook!" ++ endl)])
          end.

End PB2add.

(** *** Vocabulary for the phone book *)

(** ** Looking a number up: [q7/findPhone.cpp] *)

Module FindPhone.

(** What one process does, as seen from inside [main]: [fork] gives each
    process its own run of the same code. *)
Inductive event :=
| Cerr (text : string)
| Cout (text : string)
| Perror (text : string)
| Pipe (ret : option (Z * Z))        (* [pipe(fds)]: -1, or 0 with the two ends *)
| Fork (ret : Z)
| Dup2 (oldfd newfd : Z)
| Close (fd : Z)
| Execlp (file : string) (args : list (list ascii))
| Waitpid (pid : Z).

Inductive outcome :=
| Returned (status : Z) (tr : list event)    (* [return] from [main] *)
| Exited (status : Z) (tr : list event)      (* [exit(status)] *)
| Replaced (tr : list event).                (* [execlp] did not return *)

Definition STDIN_FILENO : Z := 0.
Definition STDOUT_FILENO : Z := 1.

Definition c_str (s : string) : list ascii := list_ascii_of_string s.

(** [close(pipe1[0]); close(pipe1[1]); close(pipe2[0]); ... close(pipe3[1]);] *)
Definition close_pipes (pipe1 pipe2 pipe3 : Z * Z) : list event :=
  [Close (fst pipe1); Close (snd pipe1);
   Close (fst pipe2); Close (snd pipe2);
   Close (fst pipe3); Close (snd pipe3)].

(** [execlp(file, args..., NULL); perror(msg); exit(1);] *)
Definition exec_or_die (tr : list event) (file : string) (args : list (list ascii))
    (msg : string) (exec_ok : bool) : outcome :=
  let tr := tr ++ [Execlp file args] in
  if exec_ok then Replaced tr else Exited 1 (tr ++ [Perror msg]).

(** [int main(int argc, char *argv[])]. [pipe_ret n] is what the call
    number [n] of [pipe] gives, [fork_ret n] what the call number [n] of
    [fork] returns in this process, [exec_ok] whether [execlp] finds its
    program. *)
Definition main (argv : list (list ascii)) (pipe_ret : nat -> option (Z * Z))
    (fork_ret : nat -> Z) (exec_ok : bool) : outcome :=
  if (List.length argv <? 2)%nat
  then Returned 1 [Cerr ("Usage: ./findPhone <first name>" ++ endl)]
  else
    let tr := [Cout ("Notice:the program use the first name only (argv[1]) " ++ endl)] in
    let name := nth 1 argv [] in
    if negb (CString.is_valid_name name)
    then Returned 1
           (tr ++ [Cerr ("invalid name: Name must contain letters or spaces only" ++ endl)])
    else
      (* pipe(pipe1) == -1 || pipe(pipe2) == -1 || pipe(pipe3) == -1 *)
      match pipe_ret 0%nat with
      | None => Returned 1 (tr ++ [Pipe None; Perror "pipe failed"])
      | Some pipe1 =>
      match pipe_ret 1%nat with
      | None => Returned 1 (tr ++ [Pipe (Some pipe1); Pipe None; Perror "pipe failed"])
      | Some pipe2 =>
      match pipe_ret 2%nat with
      | None =>
          Returned 1
            (tr ++ [Pipe (Some pipe1); Pipe (Some pipe2); Pipe None; Perror "pipe failed"])
      | Some pipe3 =>
      let tr := tr ++ [Pipe (Some pipe1); Pipe (Some pipe2); Pipe (Some pipe3)] in
      (* child 1: grep *)
      let pid0 := fork_ret 0%nat in
      let tr := tr ++ [Fork pid0] in
      if pid0 =? -1 then Returned 1 (tr ++ [Perror "fork failed before grep"])
      else if pid0 =? 0 then
        exec_or_die
          (tr ++ Dup2 (snd pipe1) STDOUT_FILENO :: close_pipes pipe1 pipe2 pipe3)
          "grep" [c_str "grep"; CString.chars name; c_str "phonebook.txt"]
          "execlp grep failed" exec_ok
      else
      (* child 2: sed, spaces to # *)
      let pid1 := fork_ret 1%nat in
      let tr := tr ++ [Fork pid1] in
      if pid1 =? -1 then Returned 1 (tr ++ [Perror "fork failed before sed1"])
      else if pid1 =? 0 then
        exec_or_die
          (tr ++ Dup2 (fst pipe1) STDIN_FILENO :: Dup2 (snd pipe2) STDOUT_FILENO
              :: close_pipes pipe1 pipe2 pipe3)
          "sed" [c_str "sed"; c_str "s/ /#/g"]
          "execlp sed1 failed" exec_ok
      else
      (* child 3: sed, the comma to a space *)
      let pid2 := fork_ret 2%nat in
      let tr := tr ++ [Fork pid2] in
      if pid2 =? -1 then Returned 1 (tr ++ [Perror "fork failed before sed2"])
      else if pid2 =? 0 then
        exec_or_die
          (tr ++ Dup2 (fst pipe2) STDIN_FILENO :: Dup2 (snd pipe3) STDOUT_FILENO
              :: close_pipes pipe1 pipe2 pipe3)
          "sed" [c_str "sed"; c_str "s/,/ /"]
          "execlp sed2 failed" exec_ok
      else
      (* child 4: awk *)
      let pid3 := fork_ret 3%nat in
      let tr := tr ++ [Fork pid3] in
      if pid3 =? -1 then Returned 1 (tr ++ [Perror "fork failed before awk"])
      else if pid3 =? 0 then
        exec_or_die
          (tr ++ Dup2 (fst pipe3) STDIN_FILENO :: close_pipes pipe1 pipe2 pipe3)
          "awk" [c_str "awk"; c_str "{print $2}"]
          "execlp awk failed" exec_ok
      else
      (* the parent *)
      Returned 0
        (tr ++ close_pipes pipe1 pipe2 pipe3
            ++ [Cout ("The phone number/s: " ++ endl)]
            ++ map Waitpid [pid0; pid1; pid2; pid3]
            ++ [Cout ("The program has finished " ++ endl)])
      end end end.

End FindPhone.

(** ** What the descriptors of a process refer to

    The table of open descriptors as the system keeps it for one process:
    [pipe] enters its two ends, [dup2] makes [newfd] refer to what
    [oldfd] refers to (and does nothing when [oldfd] is not open),
    [close] removes an entry. *)

Inductive file :=
| Stdin | Stdout | Stderr
| PipeRead (n : nat)
| PipeWrite (n : nat).

Definition fdtable := Z -> option file.

Definition standard : fdtable :=
  fun fd => if fd =? 0 then Some Stdin
            else if fd =? 1 then Some Stdout
            else if fd =? 2 then Some Stderr
            else None.

Definition assign (t : fdtable) (fd : Z) (f : option file) : fdtable :=
  fun fd' => if fd' =? fd then f else t fd'.

(** The table after the events [tr], [pipes] being the number of pipes
    made before. *)
Fixpoint descriptors_from (t : fdtable) (pipes : nat) (tr : list FindPhone.event)
  : fdtable :=
  match tr with
  | [] => t
  | FindPhone.Pipe (Some (r, w)) :: tr' =>
      descriptors_from (assign (assign t r (Some (PipeRead pipes))) w
                          (Some (PipeWrite pipes)))
        (S pipes) tr'
  | FindPhone.Dup2 oldfd newfd :: tr' =>
      descriptors_from
        (match t oldfd with
         | Some f => assign t newfd (Some f)
         | None => t
         end) pipes tr'
  | FindPhone.Close fd :: tr' => descriptors_from (assign t fd None) pipes tr'
  | _ :: tr' => descriptors_from t pipes tr'
  end.

Definition descriptors (tr : list FindPhone.event) : fdtable :=
  descriptors_from standard 0 tr.

(** The stage number [k] of the pipeline: what it runs, reads and writes. *)
Definition command (name : list ascii) (k : nat) : string * list (list ascii) :=
  match k with
  | 0%nat => ("grep"%string,
              [list_ascii_of_string "grep"; CString.chars name;
               list_ascii_of_string "phonebook.txt"])
  | 1%nat => ("sed"%string, [list_ascii_of_string "sed"; list_ascii_of_string "s/ /#/g"])
  | 2%nat => ("sed"%string, [list_ascii_of_string "sed"; list_ascii_of_string "s/,/ /"])
  | _ => ("awk"%string, [list_ascii_of_string "awk"; list_ascii_of_string "{print $2}"])
  end.

Definition input_of (k : nat) : file :=
  match k with
  | O => Stdin
  | S j => PipeRead j
  end.

Definition output_of (k : nat) : file :=
  if (k <? 3)%nat then PipeWrite k else Stdout.

(** The table of a process that holds its three standard descriptors,
    the first two redirected, and nothing else. *)
Definition wired (input output : file) : fdtable :=
  fun fd => if fd =? 0 then Some input
            else if fd =? 1 then Some output
            else if fd =? 2 then Some Stderr
            else None.

Definition is_fork (e : FindPhone.event) : bool :=
  match e with FindPhone.Fork _ => true | _ => false end.

Definition is_pipe (e : FindPhone.event) : bool :=
  match e with FindPhone.Pipe _ => true | _ => false end.

Definition is_wait (e : FindPhone.event) : bool :=
  match e with FindPhone.Waitpid _ => true | _ => false end.

Definition is_close (e : FindPhone.event) : bool :=
  match e with FindPhone.Close _ => true | _ => false end.

Definition is_exec (e : FindPhone.event) : bool :=
  match e with FindPhone.Execlp _ _ => true | _ => false end.

(** The children that [fork] reported to this process. *)
Fixpoint children (tr : list FindPhone.event) : list Z :=
  match tr with
  | [] => []
  | FindPhone.Fork pid :: tr' =>
      if (pid =? -1) || (pid =? 0) then children tr' else pid :: children tr'
  | _ :: tr' => children tr'
  end.

(** The trace of an outcome. *)
Definition trace_of (o : FindPhone.outcome) : list FindPhone.event :=
  match o with
  | FindPhone.Returned _ tr => tr
  | FindPhone.Exited _ tr => tr
  | FindPhone.Replaced tr => tr
  end.


(** The strings of [parts] with one space between them. *)
Fixpoint spaced (parts : list (list ascii)) : list ascii :=
  match parts with
  | [] => []
  | [p] => p
  | p :: rest => p ++ " "%char :: spaced rest
  end.

Definition name_char (c : ascii) : bool :=
  CString.isalpha c || Ascii.eqb c " " || Ascii.eqb c "'".

Definition phone_char (c : ascii) : bool :=
  CString.isdigit c || Ascii.eqb c "-".

(** How often [c] stands in [l]. *)
Definition occurrences (c : ascii) (l : list ascii) : nat :=
  List.length (filter (Ascii.eqb c) l).


(** The line that an entry is. *)
Definition entry_line (name phone : list ascii) : list ascii :=
  name ++ ","%char :: phone ++ ["010"%char].


(** Two descriptors differ: by what is known of them, or because one of
    them lies above 2 and the other is a standard one. *)
Ltac apart :=
  solve [ assumption
        | apply not_eq_sym; assumption
        | discriminate
        | match goal with
          | H : 2 < ?x |- _ <> ?x => clear - H; lia
          | H : 2 < ?x |- ?x <> _ => clear - H; lia
          end ].

(** Reads a table of descriptors off at a descriptor that is known to be
    one of those assigned or different from them; [same] and [other] are
    the two equations of [assign]. *)
Ltac read_table same other :=
  repeat first [ rewrite same | rewrite other by apart ]; cbn beta iota.

(** Splits on whether [fd] is [x]. *)
Ltac whether fd x :=
  destruct (Z.eq_dec fd x) as [->|?].
(** * Properties *)

(** ** Machine integers and bits *)

Lemma wrap32_small (z : Z) : - 2 ^ 31 <= z < 2 ^ 31 -> wrap32 z = z.
Proof.
  intros H. unfold wrap32.
  rewrite Z.mod_small by lia. lia.
Qed.

Lemma pow2_le_256 (k : nat) : (k <= 8)%nat -> 0 < 2 ^ Z.of_nat k <= 256.
Proof.
  intros H. split; [apply Z.pow_pos_nonneg; lia|].
  change 256 with (2 ^ 8). apply Z.pow_le_mono_r; lia.
Qed.

Lemma pow2_succ (k : nat) : 2 ^ Z.of_nat (S k) = 2 * 2 ^ Z.of_nat k.
Proof. rewrite Nat2Z.inj_succ, Z.pow_succ_r by lia. reflexivity. Qed.

(** Appending one bit below a number: value and bits. *)
Lemma push_bit_value (r : Z) (b : bool) :
  (if b then Z.lor (Z.shiftl r 1) 1 else Z.shiftl r 1) = 2 * r + Z.b2z b.
Proof.
  rewrite Z.shiftl_mul_pow2 by lia. change (2 ^ 1) with 2.
  destruct b; simpl Z.b2z; [|lia].
  replace (r * 2) with (2 * r) by lia.
  apply Z.bits_inj'. intros n Hn.
  rewrite Z.lor_spec.
  destruct (Z.eq_dec n 0) as [->|Hne].
  - rewrite Z.testbit_even_0. change (2 * r + 1) with (2 * r + 1).
    rewrite Z.testbit_odd_0. reflexivity.
  - assert (Hm : exists m, 0 <= m /\ n = Z.succ m) by (exists (n - 1); lia).
    destruct Hm as (m & Hm & ->).
    rewrite Z.testbit_even_succ, Z.testbit_odd_succ by lia.
    change 1 with (2 * 0 + 1).
    rewrite Z.testbit_odd_succ by lia.
    rewrite Z.bits_0. apply orb_false_r.
Qed.

Lemma push_bit_testbit (r : Z) (b : bool) (j : Z) :
  0 <= j ->
  Z.testbit (2 * r + Z.b2z b) j = if j =? 0 then b else Z.testbit r (j - 1).
Proof.
  intros Hj. destruct (Z.eqb_spec j 0) as [->|Hne].
  - apply Z.testbit_0_r.
  - replace j with (Z.succ (j - 1)) at 1 by lia.
    apply Z.testbit_succ_r. lia.
Qed.

(** [(number >> i) & 1] is bit [i] of [number]. *)
Lemma shift_and_bit (number : Z) (i : nat) :
  Z.land (Z.shiftr number (Z.of_nat i)) 1 = Z.b2z (Z.testbit number (Z.of_nat i)).
Proof.
  change 1 with (Z.ones 1). rewrite Z.land_ones by lia.
  change (2 ^ 1) with 2.
  rewrite <- (Z.bit0_mod (Z.shiftr number (Z.of_nat i))).
  rewrite Z.shiftr_spec by lia. reflexivity.
Qed.

(** ** The receiver's accumulator *)

Lemma run_snoc (p : Receiver.proc) (sigs : list Z) (sig : Z) :
  Receiver.run p (sigs ++ [sig]) = Receiver.deliver (Receiver.run p sigs) sig.
Proof. unfold Receiver.run. rewrite fold_left_app. reflexivity. Qed.

Lemma run_app (p : Receiver.proc) (xs ys : list Z) :
  Receiver.run p (xs ++ ys) = Receiver.run (Receiver.run p xs) ys.
Proof. unfold Receiver.run. apply fold_left_app. Qed.

Lemma run_terminated (code : Z) (s : Receiver.state) (sigs : list Z) :
  Receiver.run (Receiver.Terminated code s) sigs = Receiver.Terminated code s.
Proof. induction sigs as [|sig sigs IH]; [reflexivity | exact IH]. Qed.

Lemma symbol_snoc_last (sigs : list Z) (sig : Z) :
  Receiver.symbol (sigs ++ [sig]) (List.length sigs) = bit_of_sig sig.
Proof.
  unfold Receiver.symbol.
  rewrite nth_error_app2 by lia. rewrite Nat.sub_diag. reflexivity.
Qed.

Lemma symbol_snoc_before (sigs : list Z) (sig : Z) (n : nat) :
  (n < List.length sigs)%nat ->
  Receiver.symbol (sigs ++ [sig]) n = Receiver.symbol sigs n.
Proof.
  intros H. unfold Receiver.symbol. rewrite nth_error_app1 by exact H.
  reflexivity.
Qed.

Lemma prefix_inv_init (pid : Z) : Receiver.prefix_inv [] (Receiver.init pid).
Proof.
  unfold Receiver.prefix_inv; simpl.
  split; [reflexivity|]. split; [lia|]. split.
  - intros j Hj. inversion Hj.
  - intros j _. apply Z.bits_0.
Qed.

(** What one handler call does to a state that satisfies the invariant
    for fewer than 8 symbols: the new accumulator and counter, and the
    invariant for one more symbol. *)
Lemma handler_on_prefix (sigs : list Z) (s : Receiver.state) (sig : Z) :
  (List.length sigs < 8)%nat ->
  Receiver.prefix_inv sigs s ->
  let r := 2 * Receiver.result s + Z.b2z (bit_of_sig sig) in
  let c := Z.of_nat (S (List.length sigs)) in
  Receiver.handle_sigusr sig s =
    (if c =? 8
     then Receiver.Exit 0
            (Receiver.mkState c r
               (Receiver.cout s ++ "Received " ++ dec r ++ endl))
     else Receiver.Returned (Receiver.mkState c r (Receiver.cout s))) /\
  Receiver.prefix_inv (sigs ++ [sig]) (Receiver.mkState c r (Receiver.cout s)).
Proof.
  intros Hlen (Hc & Hr & Hlow & Hhigh) r c.
  pose proof (pow2_le_256 (List.length sigs) ltac:(lia)) as Hp.
  assert (Hw : wrap32 (Z.shiftl (Receiver.result s) 1) = Z.shiftl (Receiver.result s) 1).
  { apply wrap32_small. rewrite Z.shiftl_mul_pow2 by lia. change (2 ^ 1) with 2. lia. }
  assert (Hcw : wrap32 (Receiver.bit_count s + 1) = c).
  { rewrite wrap32_small by lia. unfold c. lia. }
  assert (Hval : (if sig =? SIGUSR2
                  then Z.lor (wrap32 (Z.shiftl (Receiver.result s) 1)) 1
                  else wrap32 (Z.shiftl (Receiver.result s) 1)) = r).
  { rewrite Hw. unfold r, bit_of_sig. apply push_bit_value. }
  split.
  - unfold Receiver.handle_sigusr. rewrite Hval, Hcw. reflexivity.
  - unfold Receiver.prefix_inv. rewrite length_app. simpl List.length.
    replace (List.length sigs + 1)%nat with (S (List.length sigs)) by lia.
    simpl Receiver.bit_count. simpl Receiver.result.
    split; [reflexivity|]. split.
    { rewrite pow2_succ. unfold r. destruct (bit_of_sig sig); simpl Z.b2z; lia. }
    split.
    + intros j Hj. unfold r. rewrite push_bit_testbit by lia.
      destruct j as [|j].
      * simpl. replace (List.length sigs - 0 - 0)%nat with (List.length sigs) by lia.
        rewrite symbol_snoc_last. reflexivity.
      * replace (Z.of_nat (S j) =? 0) with false by (symmetry; apply Z.eqb_neq; lia).
        replace (Z.of_nat (S j) - 1) with (Z.of_nat j) by lia.
        rewrite Hlow by lia.
        rewrite symbol_snoc_before by lia.
        f_equal. lia.
    + intros j Hj. unfold r. rewrite push_bit_testbit by lia.
      replace (j =? 0) with false by (symmetry; apply Z.eqb_neq; lia).
      apply Hhigh. lia.
Qed.

(** After fewer than 8 symbols the receiver is suspended again, has
    printed nothing new, and satisfies the invariant. *)
Lemma run_prefix (pid : Z) (sigs : list Z) :
  (List.length sigs < 8)%nat ->
  exists s,
    Receiver.run (Receiver.main pid) sigs = Receiver.Paused s /\
    Receiver.prefix_inv sigs s /\
    Receiver.cout s = Receiver.cout (Receiver.init pid).
Proof.
  induction sigs as [|sig sigs IH] using rev_ind; intros Hlen.
  - exists (Receiver.init pid). split; [reflexivity|].
    split; [apply prefix_inv_init | reflexivity].
  - rewrite length_app in Hlen. simpl in Hlen.
    destruct IH as (s & Hrun & Hinv & Hout); [lia|].
    destruct (handler_on_prefix sigs s sig ltac:(lia) Hinv) as [Hh Hinv'].
    cbv zeta in Hh, Hinv'.
    replace (Z.of_nat (S (List.length sigs)) =? 8) with false in Hh
      by (symmetry; apply Z.eqb_neq; lia).
    eexists. rewrite run_snoc, Hrun. unfold Receiver.deliver. rewrite Hh.
    split; [reflexivity|]. split; [exact Hinv' | exact Hout].
Qed.

(** The eighth symbol: the value is printed and the process exits with
    status 0. *)
Lemma run_eight (pid : Z) (sigs : list Z) :
  List.length sigs = 8%nat ->
  exists v,
    Receiver.run (Receiver.main pid) sigs =
      Receiver.Terminated 0
        (Receiver.mkState 8 v
           (Receiver.cout (Receiver.init pid) ++ "Received " ++ dec v ++ endl)) /\
    Receiver.prefix_inv sigs (Receiver.mkState 8 v (Receiver.cout (Receiver.init pid))).
Proof.
  intros Hlen.
  destruct (exists_last (l := sigs)) as (pre & sig & ->).
  { intros ->. discriminate. }
  rewrite length_app in Hlen. simpl in Hlen.
  destruct (run_prefix pid pre ltac:(lia)) as (s & Hrun & Hinv & Hout).
  destruct (handler_on_prefix pre s sig ltac:(lia) Hinv) as [Hh Hinv'].
  cbv zeta in Hh, Hinv'.
  replace (S (List.length pre)) with 8%nat in Hh, Hinv' by lia.
  change (Z.of_nat 8 =? 8) with true in Hh. change (Z.of_nat 8) with 8 in Hh, Hinv'.
  rewrite Hout in Hh, Hinv'.
  eexists. rewrite run_snoc, Hrun. unfold Receiver.deliver. rewrite Hh.
  split; [reflexivity | exact Hinv'].
Qed.

(** ** The sender's transmission loop *)

Section Transmission.

Variable kill_ret : nat -> Z -> Z -> Z.
Variables pid number : Z.

Lemma bit_signal_of_bit (i : nat) :
  bit_signal (Z.land (Z.shiftr number (Z.of_nat i)) 1) = signal_of_bit number i.
Proof.
  unfold bit_signal, signal_of_bit. rewrite shift_and_bit.
  destruct (Z.testbit number (Z.of_nat i)); reflexivity.
Qed.

Lemma send_bit_ok (bit : Z) (s : Sender.state) :
  kill_ret (Sender.kills s) pid (bit_signal bit) <> -1 ->
  Sender.send_bit kill_ret pid bit s =
    Sender.Ret tt
      (Sender.mkState (Sender.cin s)
         (Sender.trace s ++
            [Sender.Kill pid (bit_signal bit)
               (kill_ret (Sender.kills s) pid (bit_signal bit));
             Sender.Usleep 100000])
         (S (Sender.kills s))).
Proof.
  intros Hok. unfold Sender.send_bit, Sender.bind, Sender.kill. fold (bit_signal bit).
  apply Z.eqb_neq in Hok. rewrite Hok.
  unfold Sender.ret, Sender.emit. simpl.
  rewrite <- app_assoc. reflexivity.
Qed.

Lemma send_bit_fail (bit : Z) (s : Sender.state) :
  kill_ret (Sender.kills s) pid (bit_signal bit) = -1 ->
  Sender.send_bit kill_ret pid bit s =
    Sender.Exit 1
      (Sender.mkState (Sender.cin s)
         (Sender.trace s ++
            [Sender.Kill pid (bit_signal bit) (-1);
             Sender.Perror "Failed to send signal"])
         (S (Sender.kills s))).
Proof.
  intros Hko. unfold Sender.send_bit, Sender.bind, Sender.kill. fold (bit_signal bit).
  rewrite Hko. simpl.
  rewrite <- app_assoc. reflexivity.
Qed.

(** No call fails: every symbol is sent, each followed by the pause. *)
Lemma send_loop_ok (n : nat) : forall s : Sender.state,
  (forall j, (j < n)%nat ->
     kill_ret (Sender.kills s + j) pid (nth j (symbols number n) 0) <> -1) ->
  Sender.send_loop kill_ret pid number n s =
    Sender.Ret tt
      (Sender.mkState (Sender.cin s)
         (Sender.trace s ++
            sent_events kill_ret pid (Sender.kills s) (symbols number n))
         (Sender.kills s + n)).
Proof.
  induction n as [|i IH]; intros s Hok.
  - simpl. unfold Sender.ret. rewrite app_nil_r, Nat.add_0_r.
    destruct s; reflexivity.
  - cbn [Sender.send_loop symbols sent_events].
    unfold Sender.bind at 1.
    pose proof (Hok 0%nat ltac:(lia)) as H0.
    cbn [symbols nth] in H0. rewrite Nat.add_0_r in H0.
    rewrite <- bit_signal_of_bit in H0 |- *.
    rewrite (send_bit_ok _ s H0).
    rewrite IH.
    + cbn [Sender.cin Sender.trace Sender.kills].
      rewrite <- app_assoc. cbn [app].
      replace (S (Sender.kills s) + i)%nat with (Sender.kills s + S i)%nat by lia.
      reflexivity.
    + intros j Hj. cbn [Sender.kills].
      specialize (Hok (S j) ltac:(lia)). cbn [symbols nth] in Hok.
      replace (S (Sender.kills s) + j)%nat with (Sender.kills s + S j)%nat by lia.
      exact Hok.
Qed.

(** The call for the symbol at index [k] is the first to fail: the
    symbols before it were sent, then the diagnostic and [exit(1)]. *)
Lemma send_loop_fail (n : nat) : forall (s : Sender.state) (k : nat),
  (k < n)%nat ->
  (forall j, (j < k)%nat ->
     kill_ret (Sender.kills s + j) pid (nth j (symbols number n) 0) <> -1) ->
  kill_ret (Sender.kills s + k) pid (nth k (symbols number n) 0) = -1 ->
  Sender.send_loop kill_ret pid number n s =
    Sender.Exit 1
      (Sender.mkState (Sender.cin s)
         (Sender.trace s ++
            sent_events kill_ret pid (Sender.kills s)
              (firstn k (symbols number n)) ++
            [Sender.Kill pid (nth k (symbols number n) 0) (-1);
             Sender.Perror "Failed to send signal"])
         (Sender.kills s + S k)).
Proof.
  induction n as [|i IH]; intros s k Hk Hok Hko; [lia|].
  cbn [Sender.send_loop symbols].
  unfold Sender.bind at 1.
  destruct k as [|k].
  - cbn [nth symbols] in Hko. rewrite Nat.add_0_r in Hko.
    rewrite <- bit_signal_of_bit in Hko |- *.
    rewrite (send_bit_fail _ s Hko).
    cbn [firstn sent_events app nth].
    replace (Sender.kills s + 1)%nat with (S (Sender.kills s)) by lia.
    reflexivity.
  - pose proof (Hok 0%nat ltac:(lia)) as H0.
    cbn [symbols nth] in H0. rewrite Nat.add_0_r in H0.
    rewrite <- bit_signal_of_bit in H0.
    rewrite <- bit_signal_of_bit.
    rewrite (send_bit_ok _ s H0).
    rewrite (IH _ k).
    + cbn [Sender.cin Sender.trace Sender.kills firstn sent_events nth].
      rewrite <- app_assoc. cbn [app].
      rewrite bit_signal_of_bit.
      replace (S (Sender.kills s) + S k)%nat with (Sender.kills s + S (S k))%nat by lia.
      reflexivity.
    + lia.
    + intros j Hj. cbn [Sender.kills].
      specialize (Hok (S j) ltac:(lia)). cbn [symbols nth] in Hok.
      replace (S (Sender.kills s) + j)%nat with (Sender.kills s + S j)%nat by lia.
      exact Hok.
    + cbn [Sender.kills]. cbn [symbols nth] in Hko.
      replace (S (Sender.kills s) + k)%nat with (Sender.kills s + S k)%nat by lia.
      exact Hko.
Qed.

End Transmission.

Lemma since_app (s0 s1 : Sender.state) (evs : list Sender.event) :
  Sender.trace s1 = Sender.trace s0 ++ evs -> Sender.since s0 s1 = evs.
Proof.
  intros H. unfold Sender.since. rewrite H.
  rewrite skipn_app, skipn_all, Nat.sub_diag. reflexivity.
Qed.

Lemma symbols_length (number : Z) (n : nat) : List.length (symbols number n) = n.
Proof. induction n as [|i IH]; simpl; [reflexivity | rewrite IH; reflexivity]. Qed.

Lemma symbols_are_usr (number : Z) (n : nat) :
  Forall (fun sig => sig = SIGUSR1 \/ sig = SIGUSR2) (symbols number n).
Proof.
  induction n as [|i IH]; simpl; constructor; [|exact IH].
  unfold signal_of_bit. destruct (Z.testbit number (Z.of_nat i)); auto.
Qed.

Lemma symbols_nth (number : Z) (n j : nat) :
  (j < n)%nat -> nth_error (symbols number n) j = Some (signal_of_bit number (n - 1 - j)).
Proof.
  revert j. induction n as [|i IH]; intros j Hj; [lia|].
  destruct j as [|j]; simpl.
  - do 2 f_equal. lia.
  - rewrite IH by lia. do 2 f_equal. lia.
Qed.

(** Signals that were all accepted by the kernel are what the trace shows
    as delivered and as attempted. *)
Lemma delivered_sent_events (kill_ret : nat -> Z -> Z -> Z) (pid : Z)
  (sigs : list Z) : forall n : nat,
  Forall (fun sig => sig = SIGUSR1 \/ sig = SIGUSR2) sigs ->
  (forall j, (j < List.length sigs)%nat ->
     kill_ret (n + j)%nat pid (nth j sigs 0) <> -1) ->
  Sender.delivered pid (sent_events kill_ret pid n sigs) = sigs.
Proof.
  induction sigs as [|sig sigs IH]; intros n Husr Hok; [reflexivity|].
  inversion Husr as [|? ? Hsig Hrest]; subst.
  cbn [sent_events Sender.delivered].
  pose proof (Hok 0%nat ltac:(simpl; lia)) as H0. cbn [nth] in H0.
  rewrite Nat.add_0_r in H0.
  rewrite Z.eqb_refl.
  replace (sig =? 0) with false by (destruct Hsig; subst; reflexivity).
  apply Z.eqb_neq in H0. rewrite H0. cbn [andb negb].
  f_equal. apply IH; [exact Hrest|].
  intros j Hj. specialize (Hok (S j) ltac:(simpl; lia)). cbn [nth] in Hok.
  replace (S n + j)%nat with (n + S j)%nat by lia. exact Hok.
Qed.

Lemma attempts_sent_events (kill_ret : nat -> Z -> Z -> Z) (pid : Z)
  (sigs : list Z) : forall n : nat,
  Forall (fun sig => sig = SIGUSR1 \/ sig = SIGUSR2) sigs ->
  Sender.attempts (sent_events kill_ret pid n sigs) = map (pair pid) sigs.
Proof.
  induction sigs as [|sig sigs IH]; intros n Husr; [reflexivity|].
  inversion Husr as [|? ? Hsig Hrest]; subst.
  cbn [sent_events Sender.attempts map].
  replace (sig =? 0) with false by (destruct Hsig; subst; reflexivity).
  f_equal. apply IH. exact Hrest.
Qed.

Lemma bit_of_signal_of_bit (v : Z) (i : nat) :
  bit_of_sig (signal_of_bit v i) = Z.testbit v (Z.of_nat i).
Proof.
  unfold bit_of_sig, signal_of_bit.
  destruct (Z.testbit v (Z.of_nat i)); reflexivity.
Qed.

Lemma testbit_above (v : Z) (k j : Z) :
  0 <= v < 2 ^ k -> 0 <= k <= j -> Z.testbit v j = false.
Proof.
  intros Hv Hk. apply Z.testbit_false; [lia|].
  rewrite Z.div_small; [reflexivity|].
  split; [lia|]. apply Z.lt_le_trans with (2 ^ k); [lia|].
  apply Z.pow_le_mono_r; lia.
Qed.

(** The accumulator that satisfies the invariant for the 8 symbols of
    [v] is [v]. *)
Lemma prefix_inv_symbols (v : Z) (s : Receiver.state) :
  0 <= v <= 255 ->
  Receiver.prefix_inv (symbols v 8) s -> Receiver.result s = v.
Proof.
  intros Hv (_ & Hr & Hlow & Hhigh).
  rewrite symbols_length in Hr, Hlow, Hhigh.
  apply Z.bits_inj'. intros j Hj.
  destruct (Z_lt_le_dec j 8) as [Hlt|Hge].
  - replace j with (Z.of_nat (Z.to_nat j)) by lia.
    rewrite Hlow by lia.
    unfold Receiver.symbol. rewrite symbols_nth by lia.
    rewrite bit_of_signal_of_bit. f_equal. lia.
  - rewrite Hhigh by (change (Z.of_nat 8) with 8; lia).
    symmetry. apply testbit_above with 8; [|lia].
    change (2 ^ 8) with 256. lia.
Qed.

Lemma Forall_firstn {A} (P : A -> Prop) (l : list A) : forall n : nat,
  Forall P l -> Forall P (firstn n l).
Proof.
  induction l as [|x l IH]; intros n H.
  - rewrite firstn_nil. constructor.
  - destruct n as [|n]; [constructor|].
    inversion H; subst. simpl. constructor; [assumption | apply IH; assumption].
Qed.

Lemma firstn_succ_nth {A} (d : A) (l : list A) : forall k : nat,
  (k < List.length l)%nat -> firstn (S k) l = firstn k l ++ [nth k l d].
Proof.
  induction l as [|x l IH]; intros k Hk; [simpl in Hk; lia|].
  destruct k as [|k]; [reflexivity|].
  simpl in Hk. cbn [firstn nth app]. f_equal. apply IH. lia.
Qed.

Lemma attempts_app (xs ys : list Sender.event) :
  Sender.attempts (xs ++ ys) = Sender.attempts xs ++ Sender.attempts ys.
Proof.
  induction xs as [|e xs IH]; [reflexivity|].
  destruct e; cbn [app Sender.attempts]; try exact IH.
  destruct (sig =? 0); [exact IH | cbn [app]; f_equal; exact IH].
Qed.

Lemma delivered_app (pid : Z) (xs ys : list Sender.event) :
  Sender.delivered pid (xs ++ ys) =
  Sender.delivered pid xs ++ Sender.delivered pid ys.
Proof.
  induction xs as [|e xs IH]; [reflexivity|].
  destruct e; cbn [app Sender.delivered]; try exact IH.
  destruct ((pid0 =? pid) && negb (sig =? 0) && negb (ret =? -1));
    [cbn [app]; f_equal; exact IH | exact IH].
Qed.

(** ** Transmission and reception *)

(** C1. Round trip: for every value [v] in [0,255], when none of the 8
    calls of [kill] fails, the sender's loop runs to its end, and the
    signals it handed over, delivered in order to a fresh receiver, make
    the receiver print [Received v] after its PID line and exit with
    status 0, the accumulator being [v]. *)
Theorem round_trip (kill_ret : nat -> Z -> Z -> Z) (pid rpid v : Z)
  (s0 : Sender.state) :
  0 <= v <= 255 ->
  (forall n sig, kill_ret n pid sig <> -1) ->
  exists s1,
    Sender.send_loop kill_ret pid v 8 s0 = Sender.Ret tt s1 /\
    Receiver.run (Receiver.main rpid) (Sender.delivered pid (Sender.since s0 s1)) =
      Receiver.Terminated 0
        (Receiver.mkState 8 v
           (("My PID is " ++ dec rpid ++ endl) ++ "Received " ++ dec v ++ endl)).
Proof.
  intros Hv Hok.
  eexists. split.
  - apply send_loop_ok. intros j _. apply Hok.
  - rewrite (since_app _ _ (sent_events kill_ret pid (Sender.kills s0) (symbols v 8)))
      by reflexivity.
    rewrite delivered_sent_events;
      [| apply symbols_are_usr | intros j _; apply Hok].
    destruct (run_eight rpid (symbols v 8) (symbols_length v 8)) as (x & Hrun & Hinv).
    pose proof (prefix_inv_symbols v _ Hv Hinv) as Hx. simpl in Hx. subst x.
    rewrite Hrun. reflexivity.
Qed.

(** C1 at the two boundary values: 0 gives [Received 0] and 255 gives
    [Received 255]. *)
Lemma round_trip_witness :
  (exists s1,
     Sender.send_loop (fun _ _ _ => 0) 4242 0 8 (Sender.start "") = Sender.Ret tt s1 /\
     Receiver.run (Receiver.main 4242)
       (Sender.delivered 4242 (Sender.since (Sender.start "") s1)) =
       Receiver.Terminated 0
         (Receiver.mkState 8 0 ("My PID is 4242" ++ endl ++ "Received 0" ++ endl))) /\
  (exists s1,
     Sender.send_loop (fun _ _ _ => 0) 4242 255 8 (Sender.start "") = Sender.Ret tt s1 /\
     Receiver.run (Receiver.main 4242)
       (Sender.delivered 4242 (Sender.since (Sender.start "") s1)) =
       Receiver.Terminated 0
         (Receiver.mkState 8 255 ("My PID is 4242" ++ endl ++ "Received 255" ++ endl))).
Proof.
  split.
  - apply (round_trip (fun _ _ _ => 0) 4242 4242 0 (Sender.start "")); [lia|].
    intros n sig. discriminate.
  - apply (round_trip (fun _ _ _ => 0) 4242 4242 255 (Sender.start "")); [lia|].
    intros n sig. discriminate.
Defined.

(** C2. Most significant bit first: for every value, when no call of
    [kill] fails, the sender's loop makes exactly 8 calls of [kill], for
    bit 7 down to bit 0 in that order, with SIGUSR1 for a 0 bit and
    SIGUSR2 for a 1 bit, each followed by [usleep(100000)], and nothing
    else. *)
Theorem msb_first_emission (kill_ret : nat -> Z -> Z -> Z) (pid v : Z)
  (s0 : Sender.state) :
  (forall n sig, kill_ret n pid sig <> -1) ->
  let order :=
    [signal_of_bit v 7; signal_of_bit v 6; signal_of_bit v 5; signal_of_bit v 4;
     signal_of_bit v 3; signal_of_bit v 2; signal_of_bit v 1; signal_of_bit v 0] in
  exists s1,
    Sender.send_loop kill_ret pid v 8 s0 = Sender.Ret tt s1 /\
    Sender.since s0 s1 = sent_events kill_ret pid (Sender.kills s0) order /\
    Sender.attempts (Sender.since s0 s1) = map (pair pid) order /\
    Sender.delivered pid (Sender.since s0 s1) = order.
Proof.
  intros Hok order.
  assert (Horder : order = symbols v 8) by reflexivity.
  assert (Hsince : forall s1,
            Sender.trace s1 =
              Sender.trace s0 ++ sent_events kill_ret pid (Sender.kills s0) order ->
            Sender.since s0 s1 = sent_events kill_ret pid (Sender.kills s0) order)
    by (intros s1; apply since_app).
  eexists. split; [apply send_loop_ok; intros j _; apply Hok|].
  rewrite Hsince by (rewrite Horder; reflexivity).
  split; [reflexivity|]. split.
  - apply attempts_sent_events. rewrite Horder. apply symbols_are_usr.
  - apply delivered_sent_events.
    + rewrite Horder. apply symbols_are_usr.
    + intros j _. apply Hok.
Qed.

(** C2 at 0b10110010: the kinds are B, A, B, B, A, A, B, A. *)
Lemma msb_first_emission_witness :
  exists s1,
    Sender.send_loop (fun _ _ _ => 0) 4242 178 8 (Sender.start "") = Sender.Ret tt s1 /\
    Sender.since (Sender.start "") s1 =
      sent_events (fun _ _ _ => 0) 4242 0
        [SIGUSR2; SIGUSR1; SIGUSR2; SIGUSR2; SIGUSR1; SIGUSR1; SIGUSR2; SIGUSR1] /\
    Sender.attempts (Sender.since (Sender.start "") s1) =
      map (pair 4242)
        [SIGUSR2; SIGUSR1; SIGUSR2; SIGUSR2; SIGUSR1; SIGUSR1; SIGUSR2; SIGUSR1] /\
    Sender.delivered 4242 (Sender.since (Sender.start "") s1) =
      [SIGUSR2; SIGUSR1; SIGUSR2; SIGUSR2; SIGUSR1; SIGUSR1; SIGUSR2; SIGUSR1].
Proof.
  apply (msb_first_emission (fun _ _ _ => 0) 4242 178 (Sender.start "")).
  intros n sig. discriminate.
Defined.

(** C3. Accumulator prefix invariant: it holds in the initial state;
    after any [k < 8] symbols the receiver is suspended in a state that
    satisfies it for these symbols (counter [k], [0 <= result < 2^k],
    bit [j < k] of [result] the symbol received [j] places before the
    last, higher bits zero); and a handler call on any state that
    satisfies it returns a state that satisfies it for one more symbol,
    as long as that symbol is not the 8th. *)
Theorem accumulator_prefix_invariant (pid : Z) (sigs : list Z)
  (s : Receiver.state) (sig : Z) :
  (List.length sigs < 8)%nat ->
  Receiver.prefix_inv [] (Receiver.init pid) /\
  (exists s',
     Receiver.run (Receiver.main pid) sigs = Receiver.Paused s' /\
     Receiver.prefix_inv sigs s') /\
  (Receiver.prefix_inv sigs s ->
   (List.length (sigs ++ [sig]) < 8)%nat ->
   exists s',
     Receiver.handle_sigusr sig s = Receiver.Returned s' /\
     Receiver.prefix_inv (sigs ++ [sig]) s').
Proof.
  intros Hlen. split; [apply prefix_inv_init|]. split.
  - destruct (run_prefix pid sigs Hlen) as (s' & Hrun & Hinv & _).
    exists s'. split; assumption.
  - intros Hinv Hlen'. rewrite length_app in Hlen'. simpl in Hlen'.
    destruct (handler_on_prefix sigs s sig Hlen Hinv) as [Hh Hinv'].
    cbv zeta in Hh, Hinv'.
    replace (Z.of_nat (S (List.length sigs)) =? 8) with false in Hh
      by (symmetry; apply Z.eqb_neq; lia).
    eexists. split; [exact Hh | exact Hinv'].
Qed.

(** C3 after the symbols 1, 0, 1: the state is [bit_count = 3],
    [result = 5], and one more 1 gives [bit_count = 4], [result = 11]. *)
Lemma accumulator_prefix_invariant_witness :
  Receiver.run (Receiver.main 4242) [SIGUSR2; SIGUSR1; SIGUSR2] =
    Receiver.Paused (Receiver.mkState 3 5 ("My PID is 4242" ++ endl)) /\
  exists s',
    Receiver.handle_sigusr SIGUSR2 (Receiver.mkState 3 5 ("My PID is 4242" ++ endl)) =
      Receiver.Returned s' /\
    Receiver.prefix_inv [SIGUSR2; SIGUSR1; SIGUSR2; SIGUSR2] s'.
Proof.
  split; [reflexivity|].
  destruct (accumulator_prefix_invariant 4242 [SIGUSR2; SIGUSR1; SIGUSR2]
              (Receiver.mkState 3 5 ("My PID is 4242" ++ endl)) SIGUSR2)
    as (_ & (s' & Hrun & Hinv) & Hstep); [simpl; lia|].
  injection Hrun as <-.
  apply Hstep; [exact Hinv | simpl; lia].
Defined.

(** C4. The 8th symbol is terminal: whatever the 8 symbols and whatever
    follows them, the receiver ends with exit status 0 having printed,
    after its PID line, [Received v] for the value [v] below 256 whose
    bit [j] is the symbol received [j] places before the 8th; whatever
    comes after the 8th changes nothing; and after any shorter prefix
    the receiver is still suspended and has printed nothing more than
    its PID line. *)
Theorem done_is_terminal (pid : Z) (sigs later : list Z) :
  List.length sigs = 8%nat ->
  (exists v,
     0 <= v < 256 /\
     (forall j, (j < 8)%nat ->
        Z.testbit v (Z.of_nat j) = Receiver.symbol sigs (7 - j)) /\
     Receiver.run (Receiver.main pid) sigs =
       Receiver.Terminated 0
         (Receiver.mkState 8 v
            (("My PID is " ++ dec pid ++ endl) ++ "Received " ++ dec v ++ endl)) /\
     Receiver.run (Receiver.main pid) (sigs ++ later) =
       Receiver.run (Receiver.main pid) sigs) /\
  (forall k, (k < 8)%nat ->
     exists s,
       Receiver.run (Receiver.main pid) (firstn k sigs) = Receiver.Paused s /\
       Receiver.bit_count s = Z.of_nat k /\
       Receiver.cout s = ("My PID is " ++ dec pid ++ endl)%string).
Proof.
  intros Hlen. split.
  - destruct (run_eight pid sigs Hlen) as (v & Hrun & _ & Hr & Hlow & _).
    rewrite Hlen in Hr, Hlow. simpl in Hr, Hlow.
    exists v. split; [exact Hr|]. split; [exact Hlow|]. split; [exact Hrun|].
    rewrite run_app, Hrun. apply run_terminated.
  - intros k Hk.
    destruct (run_prefix pid (firstn k sigs)) as (s & Hrun & (Hc & _) & Hout).
    { rewrite length_firstn. lia. }
    exists s. split; [exact Hrun|]. split; [|exact Hout].
    rewrite Hc, length_firstn. f_equal. lia.
Qed.

(** C4 on the symbols of 169 followed by two stray signals. *)
Lemma done_is_terminal_witness :
  Receiver.run (Receiver.main 4242)
    ([SIGUSR2; SIGUSR1; SIGUSR2; SIGUSR1; SIGUSR2; SIGUSR1; SIGUSR1; SIGUSR2]
       ++ [SIGUSR2; SIGUSR2]) =
    Receiver.Terminated 0
      (Receiver.mkState 8 169 ("My PID is 4242" ++ endl ++ "Received 169" ++ endl)) /\
  exists s,
    Receiver.run (Receiver.main 4242)
      (firstn 7 [SIGUSR2; SIGUSR1; SIGUSR2; SIGUSR1; SIGUSR2; SIGUSR1; SIGUSR1; SIGUSR2]) =
      Receiver.Paused s /\
    Receiver.bit_count s = 7 /\
    Receiver.cout s = ("My PID is 4242" ++ endl)%string.
Proof.
  destruct (done_is_terminal 4242
              [SIGUSR2; SIGUSR1; SIGUSR2; SIGUSR1; SIGUSR2; SIGUSR1; SIGUSR1; SIGUSR2]
              [SIGUSR2; SIGUSR2] eq_refl) as [(v & _ & _ & _ & Hlater) Hbefore].
  split.
  - rewrite Hlater. reflexivity.
  - exact (Hbefore 7%nat (Nat.lt_succ_diag_r 7)).
Defined.

(** C7. A failed delivery aborts the transmission: once both inputs
    were accepted, if the call of [kill] for the symbol at index [k] is
    the first to return -1, [main] ends by [exit(1)]; what it did from
    the start of the transmission is: the [k] earlier symbols, each
    followed by its pause, the failed call, and the diagnostic through
    [perror]. No later symbol is attempted and none is sent again. *)
Theorem delivery_failure_aborts (kill_ret : nat -> Z -> Z -> Z) (fuel : nat)
  (pid0 number0 pid v : Z) (s sa s0 : Sender.state) (k : nat) :
  Sender.while1 fuel (Sender.read_pid kill_ret) pid0 s = Sender.Ret pid sa ->
  Sender.while1 fuel Sender.read_number number0 sa = Sender.Ret v s0 ->
  (k < 8)%nat ->
  (forall j, (j < k)%nat ->
     kill_ret (Sender.kills s0 + j)%nat pid (nth j (symbols v 8) 0) <> -1) ->
  kill_ret (Sender.kills s0 + k)%nat pid (nth k (symbols v 8) 0) = -1 ->
  exists s1,
    Sender.main kill_ret fuel pid0 number0 s = Sender.Exit 1 s1 /\
    Sender.send_loop kill_ret pid v 8 s0 = Sender.Exit 1 s1 /\
    Sender.since s0 s1 =
      sent_events kill_ret pid (Sender.kills s0) (firstn k (symbols v 8)) ++
      [Sender.Kill pid (nth k (symbols v 8) 0) (-1);
       Sender.Perror "Failed to send signal"] /\
    Sender.attempts (Sender.since s0 s1) =
      map (pair pid) (firstn (S k) (symbols v 8)) /\
    Sender.delivered pid (Sender.since s0 s1) = firstn k (symbols v 8).
Proof.
  intros Hpid Hnum Hk Hok Hko.
  pose proof (send_loop_fail kill_ret pid v 8 s0 k Hk Hok Hko) as Hsend.
  eexists. split; [|split; [exact Hsend|]].
  - unfold Sender.main, Sender.bind. rewrite Hpid, Hnum, Hsend. reflexivity.
  - erewrite since_app by reflexivity.
    split; [reflexivity|].
    pose proof (symbols_length v 8) as Hlen.
    assert (Husr : Forall (fun sig => sig = SIGUSR1 \/ sig = SIGUSR2)
                     (firstn k (symbols v 8)))
      by (apply Forall_firstn, symbols_are_usr).
    assert (Hnz : (nth k (symbols v 8) 0 =? 0) = false).
    { pose proof (symbols_nth v 8 k Hk) as Hn.
      rewrite (nth_error_nth _ _ 0 Hn).
      unfold signal_of_bit. destruct (Z.testbit v _); reflexivity. }
    split.
    + rewrite attempts_app, attempts_sent_events by exact Husr.
      cbn [Sender.attempts]. rewrite Hnz.
      rewrite (firstn_succ_nth 0) by lia.
      rewrite map_app. reflexivity.
    + rewrite delivered_app, delivered_sent_events.
      * cbn [Sender.delivered]. rewrite Z.eqb_refl, Hnz.
        cbn [andb negb Z.eqb]. apply app_nil_r.
      * exact Husr.
      * intros j Hj. rewrite length_firstn in Hj.
        rewrite nth_firstn.
        replace (j <? k)%nat with true by (symmetry; apply Nat.ltb_lt; lia).
        apply Hok. lia.
Qed.

(** C7 on PID 123 and value 178 when the third signal cannot be
    delivered: two signals are sent, the third call fails, the diagnostic
    is printed and the sender exits with status 1. *)
Lemma delivery_failure_aborts_witness :
  let kill_ret := fun (n : nat) (_ _ : Z) => if (n =? 3)%nat then -1 else 0 in
  let s0 :=
    Sender.mkState (IStream.mk ["010"%char] false false)
      [Sender.Cout "Enter receiver PID: "; Sender.Kill 123 0 0;
       Sender.Cout "Enter message: "] 1 in
  exists s1,
    Sender.main kill_ret 1 7 7 (Sender.start ("123" ++ endl ++ "178" ++ endl)) =
      Sender.Exit 1 s1 /\
    Sender.send_loop kill_ret 123 178 8 s0 = Sender.Exit 1 s1 /\
    Sender.since s0 s1 =
      [Sender.Kill 123 SIGUSR2 0; Sender.Usleep 100000;
       Sender.Kill 123 SIGUSR1 0; Sender.Usleep 100000;
       Sender.Kill 123 SIGUSR2 (-1); Sender.Perror "Failed to send signal"] /\
    Sender.attempts (Sender.since s0 s1) =
      [(123, SIGUSR2); (123, SIGUSR1); (123, SIGUSR2)] /\
    Sender.delivered 123 (Sender.since s0 s1) = [SIGUSR2; SIGUSR1].
Proof.
  intros kill_ret s0.
  set (sa := Sender.mkState
               (IStream.mk (list_ascii_of_string (endl ++ "178" ++ endl)) false false)
               [Sender.Cout "Enter receiver PID: "; Sender.Kill 123 0 0] 1).
  assert (Hpid : Sender.while1 1 (Sender.read_pid kill_ret) 7
                   (Sender.start ("123" ++ endl ++ "178" ++ endl)) =
                 Sender.Ret 123 sa) by (vm_compute; reflexivity).
  assert (Hnum : Sender.while1 1 Sender.read_number 7 sa = Sender.Ret 178 s0)
    by (vm_compute; reflexivity).
  apply (delivery_failure_aborts kill_ret 1 7 7 123 178 _ sa s0 2 Hpid Hnum).
  - lia.
  - intros j Hj. destruct j as [|[|j]]; [discriminate | discriminate | lia].
  - reflexivity.
Defined.

(** ** Reading numbers from [std::cin] *)

Lemma digit_not_space (c : ascii) :
  IStream.is_digit c = true -> IStream.is_space c = false.
Proof.
  unfold IStream.is_digit, IStream.is_space. intros H.
  apply andb_true_iff in H. destruct H as [H1 H2].
  apply Z.leb_le in H1. apply Z.leb_le in H2.
  apply orb_false_iff. split.
  - apply Z.eqb_neq. lia.
  - apply andb_false_iff. right. apply Z.leb_gt. lia.
Qed.

Lemma digit_not_sign (c : ascii) :
  IStream.is_digit c = true -> Ascii.eqb c "-" = false /\ Ascii.eqb c "+" = false.
Proof.
  intros H. split.
  - destruct (Ascii.eqb_spec c "-") as [->|]; [discriminate H | reflexivity].
  - destruct (Ascii.eqb_spec c "+") as [->|]; [discriminate H | reflexivity].
Qed.

Lemma skipws_app (ws rest : list ascii) :
  all_spaces ws ->
  match rest with [] => True | c :: _ => IStream.is_space c = false end ->
  IStream.skipws (ws ++ rest) = rest.
Proof.
  intros Hws Hrest. induction Hws as [|w ws Hw _ IH]; simpl.
  - destruct rest as [|c r]; [reflexivity|]. simpl. rewrite Hrest. reflexivity.
  - rewrite Hw. exact IH.
Qed.

Lemma scan_digits_stop (rest : list ascii) (acc : Z) (seen : bool) :
  number_ends rest -> IStream.scan_digits rest acc seen = (acc, seen, rest).
Proof.
  destruct rest as [|c r]; simpl; intros H; [reflexivity|].
  rewrite H. reflexivity.
Qed.

Lemma scan_digits_app (ds rest : list ascii) :
  all_digits ds -> number_ends rest -> ds <> [] ->
  forall acc seen,
    IStream.scan_digits (ds ++ rest) acc seen =
      (fold_left (fun a c => 10 * a + (IStream.code c - 48)) ds acc, true, rest).
Proof.
  intros Hds Hrest. induction Hds as [|d ds Hd Hds IH]; intros Hne acc seen.
  - congruence.
  - cbn [app IStream.scan_digits fold_left]. rewrite Hd.
    destruct ds as [|d' ds'].
    + cbn [app fold_left]. apply scan_digits_stop. exact Hrest.
    + apply IH. discriminate.
Qed.

Lemma scan_digits_suffix (b : list ascii) : forall acc seen n sn r,
  IStream.scan_digits b acc seen = (n, sn, r) ->
  (List.length r <= List.length b)%nat /\
  (seen = false -> sn = true -> (List.length r < List.length b)%nat).
Proof.
  induction b as [|c b IH]; intros acc seen n sn r H; simpl in H.
  - injection H as <- <- <-. split; [lia | congruence].
  - destruct (IStream.is_digit c).
    + apply IH in H. simpl. destruct H as [H _]. split; lia.
    + injection H as <- <- <-. split; [lia | congruence].
Qed.

Lemma skipws_suffix (b : list ascii) :
  (List.length (IStream.skipws b) <= List.length b)%nat.
Proof.
  induction b as [|c b IH]; simpl; [lia|].
  destruct (IStream.is_space c); simpl; lia.
Qed.

Lemma drop_line_shrinks (b : list ascii) :
  b <> [] -> (List.length (fst (IStream.drop_line b)) < List.length b)%nat.
Proof.
  induction b as [|c b IH]; intros Hne; [congruence|].
  simpl. destruct (Ascii.eqb c "010"); simpl; [lia|].
  destruct b as [|c' b']; [simpl; lia|].
  specialize (IH ltac:(discriminate)). simpl in *. lia.
Qed.

(** [cin >> x] never makes the unread text longer; when it succeeds it
    has consumed at least one digit. *)
Lemma extract_int_suffix (s : IStream.t) (old : Z) :
  let c := fst (IStream.extract_int s old) in
  (List.length (IStream.buf c) <= List.length (IStream.buf s))%nat /\
  (IStream.failbit c = false ->
   (List.length (IStream.buf c) < List.length (IStream.buf s))%nat).
Proof.
  unfold IStream.extract_int.
  destruct (negb (IStream.good s)) eqn:Hgood; simpl.
  { split; [lia | discriminate]. }
  pose proof (skipws_suffix (IStream.buf s)) as Hws.
  destruct (IStream.skipws (IStream.buf s)) as [|c r] eqn:Hskip; simpl.
  { split; [lia | discriminate]. }
  simpl in Hws.
  set (b1 := if Ascii.eqb c "-" || Ascii.eqb c "+" then r else c :: r).
  assert (Hb1 : (List.length b1 <= S (List.length r))%nat).
  { unfold b1. destruct (Ascii.eqb c "-" || Ascii.eqb c "+"); simpl; lia. }
  destruct (IStream.scan_digits b1 0 false) as [[n seen] b2] eqn:Hscan.
  apply scan_digits_suffix in Hscan. destruct Hscan as [Hle Hlt].
  destruct seen; simpl.
  - specialize (Hlt eq_refl eq_refl).
    destruct ((if Ascii.eqb c "-" then - n else n) <? IStream.INT_MIN); simpl;
      [split; [lia | discriminate]|].
    destruct (IStream.INT_MAX <? (if Ascii.eqb c "-" then - n else n)); simpl;
      [split; [lia | discriminate]|].
    split; [lia | intros _; lia].
  - split; [lia | discriminate].
Qed.

Lemma clamp_flags (n : Z) (rest : list ascii) (e : bool) :
  (if n <? IStream.INT_MIN then (IStream.mk rest e true, IStream.INT_MIN)
   else if IStream.INT_MAX <? n then (IStream.mk rest e true, IStream.INT_MAX)
   else (IStream.mk rest e false, n)) =
  (IStream.mk rest e (negb (fits n)), clamp n).
Proof.
  unfold fits, clamp.
  destruct (Z.ltb_spec n IStream.INT_MIN) as [H1|H1].
  - replace (IStream.INT_MIN <=? n) with false by (symmetry; apply Z.leb_gt; lia).
    reflexivity.
  - replace (IStream.INT_MIN <=? n) with true by (symmetry; apply Z.leb_le; lia).
    destruct (Z.ltb_spec IStream.INT_MAX n) as [H2|H2].
    + replace (n <=? IStream.INT_MAX) with false by (symmetry; apply Z.leb_gt; lia).
      reflexivity.
    + replace (n <=? IStream.INT_MAX) with true by (symmetry; apply Z.leb_le; lia).
      reflexivity.
Qed.

(** [cin >> x] on a good stream whose text starts with the number [n]:
    the number is consumed and nothing after it, [eofbit] is raised when
    nothing comes after it, [failbit] when [n] is not an [int]. *)
Lemma extract_numeral (s : IStream.t) (old n : Z) (rest : list ascii) :
  IStream.good s = true ->
  numeral_at (IStream.buf s) n rest ->
  IStream.extract_int s old =
    (IStream.mk rest (match rest with [] => true | _ => false end) (negb (fits n)),
     clamp n).
Proof.
  intros Hgood (ws & sg & ds & Hb & Hws & Hsg & Hne & Hds & Hrest).
  unfold IStream.extract_int. rewrite Hgood, Hb. cbn [negb].
  destruct ds as [|d ds']; [congruence|].
  pose proof Hds as Hds0. inversion Hds0 as [|? ? Hd _]; subst.
  pose proof (digit_not_space d Hd) as Hdsp.
  destruct (digit_not_sign d Hd) as [Hdm Hdp].
  unfold digits_value in Hsg.
  destruct Hsg as [[-> ->]|[[-> ->]|[-> ->]]].
  - rewrite skipws_app by (assumption || exact Hdsp).
    cbn [app]. rewrite Hdm, Hdp. cbn [orb].
    change (d :: ds' ++ rest) with ((d :: ds') ++ rest).
    rewrite scan_digits_app by (assumption || discriminate).
    cbn [negb]. apply clamp_flags.
  - rewrite skipws_app by (assumption || reflexivity).
    cbn [app]. change (Ascii.eqb "+" "-") with false. change (Ascii.eqb "+" "+") with true.
    cbn [orb]. change (d :: ds' ++ rest) with ((d :: ds') ++ rest).
    rewrite scan_digits_app by (assumption || discriminate).
    cbn [negb]. apply clamp_flags.
  - rewrite skipws_app by (assumption || reflexivity).
    cbn [app]. change (Ascii.eqb "-" "-") with true.
    cbn [orb]. change (d :: ds' ++ rest) with ((d :: ds') ++ rest).
    rewrite scan_digits_app by (assumption || discriminate).
    cbn [negb]. apply clamp_flags.
Qed.

(** [cin >> x] on text that does not start with a number raises
    [failbit]. *)
Lemma extract_unreadable (s : IStream.t) (old : Z) :
  no_number_at (IStream.buf s) ->
  IStream.failbit (fst (IStream.extract_int s old)) = true.
Proof.
  intros (ws & rest & Hb & Hws & Hun).
  unfold IStream.extract_int.
  destruct (IStream.good s); cbn [negb]; [|reflexivity].
  rewrite Hb. destruct rest as [|c r].
  - rewrite skipws_app by (assumption || exact I). reflexivity.
  - cbn [unreadable] in Hun.
    destruct (Ascii.eqb c "-" || Ascii.eqb c "+") eqn:Hsign.
    + assert (Hsp : IStream.is_space c = false).
      { apply orb_true_iff in Hsign.
        destruct Hsign as [H|H]; apply Ascii.eqb_eq in H; subst; reflexivity. }
      rewrite skipws_app by (assumption || exact Hsp).
      rewrite Hsign.
      destruct r as [|d r']; [reflexivity|].
      apply negb_true_iff in Hun.
      cbn [IStream.scan_digits]. rewrite Hun. reflexivity.
    + apply andb_true_iff in Hun. destruct Hun as [Hnd Hns].
      apply negb_true_iff in Hnd. apply negb_true_iff in Hns.
      rewrite skipws_app by (assumption || exact Hns).
      rewrite Hsign.
      cbn [IStream.scan_digits]. rewrite Hnd. reflexivity.
Qed.

(** ** One round of each input loop *)

Lemma read_number_eq (old : Z) (s : Sender.state) :
  Sender.read_number old s =
    let cx := IStream.extract_int (Sender.cin s) old in
    let tr := Sender.trace s ++ [Sender.Cout "Enter message: "] in
    if IStream.fail (fst cx)
    then Sender.Ret (Sender.Continue, snd cx)
           (Sender.mkState (IStream.ignore_line (IStream.clear (fst cx)))
              (tr ++ [Sender.Cout msg_not_a_number]) (Sender.kills s))
    else
      let pk := IStream.peek (fst cx) in
      if negb (snd pk =? 10)
      then Sender.Ret (Sender.Continue, snd cx)
             (Sender.mkState (IStream.ignore_line (IStream.clear (fst pk)))
                (tr ++ [Sender.Cout msg_trailing]) (Sender.kills s))
      else if (snd cx <? 0) || (255 <? snd cx)
      then Sender.Ret (Sender.Continue, snd cx)
             (Sender.mkState (fst pk) (tr ++ [Sender.Cout msg_range]) (Sender.kills s))
      else Sender.Ret (Sender.Break, snd cx)
             (Sender.mkState (fst pk) tr (Sender.kills s)).
Proof.
  unfold Sender.read_number, Sender.bind, Sender.emit, Sender.cin_int,
    Sender.cin_fail, Sender.cin_clear, Sender.cin_ignore, Sender.cin_peek,
    Sender.on_cin, Sender.ret.
  cbn [Sender.cin Sender.trace Sender.kills].
  destruct (IStream.extract_int (Sender.cin s) old) as [c x].
  cbn [fst snd Sender.cin Sender.trace Sender.kills].
  destruct (IStream.fail c); [reflexivity|].
  cbn [fst snd Sender.cin Sender.trace Sender.kills].
  destruct (IStream.peek c) as [c2 nx].
  cbn [fst snd Sender.cin Sender.trace Sender.kills].
  destruct (negb (nx =? 10)); [reflexivity|].
  destruct ((x <? 0) || (255 <? x)); reflexivity.
Qed.

Lemma read_pid_eq (kill_ret : nat -> Z -> Z -> Z) (old : Z) (s : Sender.state) :
  Sender.read_pid kill_ret old s =
    let cx := IStream.extract_int (Sender.cin s) old in
    let tr := Sender.trace s ++ [Sender.Cout "Enter receiver PID: "] in
    if IStream.fail (fst cx) || (snd cx <=? 0)
    then Sender.Ret (Sender.Continue, snd cx)
           (Sender.mkState (IStream.ignore_line (IStream.clear (fst cx)))
              (tr ++ [Sender.Cout msg_pid]) (Sender.kills s))
    else
      let r := kill_ret (Sender.kills s) (snd cx) 0 in
      if r =? -1
      then Sender.Ret (Sender.Continue, snd cx)
             (Sender.mkState (IStream.ignore_line (IStream.clear (fst cx)))
                (tr ++ [Sender.Kill (snd cx) 0 r; Sender.Cout msg_pid])
                (S (Sender.kills s)))
      else Sender.Ret (Sender.Break, snd cx)
             (Sender.mkState (fst cx) (tr ++ [Sender.Kill (snd cx) 0 r])
                (S (Sender.kills s))).
Proof.
  unfold Sender.read_pid, Sender.bind, Sender.emit, Sender.cin_int,
    Sender.cin_fail, Sender.cin_clear, Sender.cin_ignore, Sender.kill,
    Sender.on_cin, Sender.ret.
  cbn [Sender.cin Sender.trace Sender.kills].
  destruct (IStream.extract_int (Sender.cin s) old) as [c x].
  cbn [fst snd Sender.cin Sender.trace Sender.kills].
  destruct (IStream.fail c); cbn [orb]; [reflexivity|].
  destruct (x <=? 0); cbn [Sender.cin Sender.trace Sender.kills]; [reflexivity|].
  destruct (kill_ret (Sender.kills s) x 0 =? -1);
    cbn [Sender.cin Sender.trace Sender.kills];
    rewrite <- ?app_assoc; reflexivity.
Qed.

Lemma ignore_clear_buf (c : IStream.t) :
  IStream.buf (IStream.ignore_line (IStream.clear c)) =
  fst (IStream.drop_line (IStream.buf c)).
Proof.
  unfold IStream.ignore_line, IStream.clear, IStream.good. simpl.
  destruct (IStream.drop_line (IStream.buf c)). reflexivity.
Qed.

Lemma ignore_clear_shrinks (c : IStream.t) (b : list ascii) :
  (List.length (IStream.buf c) <= List.length b)%nat -> b <> [] ->
  (List.length (IStream.buf (IStream.ignore_line (IStream.clear c))) < List.length b)%nat.
Proof.
  intros Hle Hne. rewrite ignore_clear_buf.
  destruct (IStream.buf c) as [|x r] eqn:Hb.
  - simpl. destruct b; [congruence | simpl; lia].
  - pose proof (drop_line_shrinks (x :: r) ltac:(discriminate)). lia.
Qed.

Lemma peek_buf (c : IStream.t) :
  (List.length (IStream.buf (fst (IStream.peek c))) <= List.length (IStream.buf c))%nat.
Proof.
  unfold IStream.peek.
  destruct (negb (IStream.good c)); simpl; [lia|].
  destruct (IStream.buf c) eqn:Hb; simpl; rewrite ?Hb; simpl; lia.
Qed.

Lemma suffix_of_empty (c : IStream.t) (b : list ascii) :
  (List.length (IStream.buf c) <= List.length b)%nat -> b = [] ->
  IStream.buf (IStream.ignore_line (IStream.clear c)) = [].
Proof.
  intros Hle ->. rewrite ignore_clear_buf.
  destruct (IStream.buf c); [reflexivity | simpl in Hle; lia].
Qed.

Lemma shrunk_nonempty (b' b : list ascii) :
  (List.length b' < List.length b)%nat -> b <> [].
Proof. intros H ->. simpl in H. lia. Qed.

Lemma read_pid_round (kill_ret : nat -> Z -> Z -> Z) (old : Z) (s : Sender.state) :
  exists c x s',
    Sender.read_pid kill_ret old s = Sender.Ret (c, x) s' /\
    round_facts s "Enter receiver PID: " c s' /\
    (c = Sender.Break ->
     0 < x /\ kill_ret (Sender.kills s) x 0 <> -1 /\
     In (Sender.Kill x 0 (kill_ret (Sender.kills s) x 0)) (Sender.trace s')).
Proof.
  rewrite read_pid_eq. cbv zeta.
  destruct (extract_int_suffix (Sender.cin s) old) as [Hle Hlt]. cbv zeta in Hle, Hlt.
  destruct (IStream.extract_int (Sender.cin s) old) as [c x].
  cbn [fst snd] in *.
  destruct (IStream.fail c || (x <=? 0)) eqn:Hbad.
  - do 3 eexists. split; [reflexivity|]. split; [|discriminate].
    eapply round_again with (evs := [Sender.Cout msg_pid]);
      cbn [Sender.cin Sender.trace Sender.kills].
    + rewrite <- app_assoc. reflexivity.
    + reflexivity.
    + reflexivity.
    + lia.
    + apply suffix_of_empty. exact Hle.
    + apply ignore_clear_shrinks. exact Hle.
  - apply orb_false_iff in Hbad. destruct Hbad as [Hfail Hpos].
    apply Z.leb_gt in Hpos.
    destruct (kill_ret (Sender.kills s) x 0 =? -1) eqn:Hkill.
    + do 3 eexists. split; [reflexivity|]. split; [|discriminate].
      eapply round_again
        with (evs := [Sender.Kill x 0 (kill_ret (Sender.kills s) x 0);
                      Sender.Cout msg_pid]);
        cbn [Sender.cin Sender.trace Sender.kills].
      * rewrite <- app_assoc. reflexivity.
      * reflexivity.
      * intros pid. cbn [Sender.delivered Z.eqb negb andb].
        rewrite andb_false_r. reflexivity.
      * lia.
      * apply suffix_of_empty. exact Hle.
      * apply ignore_clear_shrinks. exact Hle.
    + apply Z.eqb_neq in Hkill. specialize (Hlt Hfail).
      do 3 eexists. split; [reflexivity|]. split.
      * eapply round_done
          with (evs := [Sender.Kill x 0 (kill_ret (Sender.kills s) x 0)]);
          cbn [Sender.cin Sender.trace Sender.kills].
        -- rewrite <- app_assoc. reflexivity.
        -- reflexivity.
        -- intros pid. cbn [Sender.delivered Z.eqb negb andb].
           rewrite andb_false_r. reflexivity.
        -- lia.
        -- exact (shrunk_nonempty _ _ Hlt).
        -- exact Hlt.
      * intros _. split; [exact Hpos|]. split; [exact Hkill|].
        cbn [Sender.trace]. apply in_or_app. right. left. reflexivity.
Qed.

Lemma read_number_round (old : Z) (s : Sender.state) :
  exists c x s',
    Sender.read_number old s = Sender.Ret (c, x) s' /\
    round_facts s "Enter message: " c s' /\
    Sender.kills s' = Sender.kills s /\
    (c = Sender.Break -> 0 <= x <= 255).
Proof.
  rewrite read_number_eq. cbv zeta.
  destruct (extract_int_suffix (Sender.cin s) old) as [Hle Hlt]. cbv zeta in Hle, Hlt.
  destruct (IStream.extract_int (Sender.cin s) old) as [c x].
  cbn [fst snd] in *.
  destruct (IStream.fail c) eqn:Hfail.
  - do 3 eexists. split; [reflexivity|]. split; [|split; [reflexivity | discriminate]].
    eapply round_again with (evs := [Sender.Cout msg_not_a_number]);
      cbn [Sender.cin Sender.trace Sender.kills].
    + rewrite <- app_assoc. reflexivity.
    + reflexivity.
    + reflexivity.
    + lia.
    + apply suffix_of_empty. exact Hle.
    + apply ignore_clear_shrinks. exact Hle.
  - specialize (Hlt Hfail).
    pose proof (peek_buf c) as Hpk.
    destruct (IStream.peek c) as [c2 nx]. cbn [fst snd] in *.
    destruct (negb (nx =? 10)).
    + do 3 eexists. split; [reflexivity|]. split; [|split; [reflexivity | discriminate]].
      eapply round_again with (evs := [Sender.Cout msg_trailing]);
        cbn [Sender.cin Sender.trace Sender.kills].
      * rewrite <- app_assoc. reflexivity.
      * reflexivity.
      * reflexivity.
      * lia.
      * apply suffix_of_empty. lia.
      * apply ignore_clear_shrinks. lia.
    + destruct ((x <? 0) || (255 <? x)) eqn:Hrange.
      * do 3 eexists. split; [reflexivity|]. split; [|split; [reflexivity | discriminate]].
        eapply round_again with (evs := [Sender.Cout msg_range]);
          cbn [Sender.cin Sender.trace Sender.kills].
        -- rewrite <- app_assoc. reflexivity.
        -- reflexivity.
        -- reflexivity.
        -- lia.
        -- intros Hnil. rewrite Hnil in Hlt. simpl in Hlt. lia.
        -- intros _. lia.
      * apply orb_false_iff in Hrange. destruct Hrange as [H0 H255].
        apply Z.ltb_ge in H0. apply Z.ltb_ge in H255.
        do 3 eexists. split; [reflexivity|]. split; [|split; [reflexivity | intros _; lia]].
        eapply round_done with (evs := []);
          cbn [Sender.cin Sender.trace Sender.kills].
        -- reflexivity.
        -- reflexivity.
        -- reflexivity.
        -- lia.
        -- apply (shrunk_nonempty (IStream.buf c)). exact Hlt.
        -- lia.
Qed.

(** ** The input loops *)

Lemma while1_succ {A} (fuel : nat) (body : A -> Sender.M (Sender.ctl * A))
  (a a' : A) (c : Sender.ctl) (s s' : Sender.state) :
  body a s = Sender.Ret (c, a') s' ->
  Sender.while1 (S fuel) body a s =
    match c with
    | Sender.Break => Sender.Ret a' s'
    | Sender.Continue => Sender.while1 fuel body a' s'
    end.
Proof.
  intros H. cbn [Sender.while1]. unfold Sender.bind. rewrite H.
  destruct c; reflexivity.
Qed.

(** A loop that has ended needs no more fuel. *)
Lemma while1_mono {A} (body : A -> Sender.M (Sender.ctl * A)) (n : nat) :
  forall (a x : A) (s sa : Sender.state),
    Sender.while1 n body a s = Sender.Ret x sa ->
    forall m, Sender.while1 (n + m) body a s = Sender.Ret x sa.
Proof.
  induction n as [|n IH]; intros a x s sa H m; [discriminate H|].
  cbn [Sender.while1 Nat.add] in *. unfold Sender.bind in *.
  destruct (body a s) as [[c y] s1| |]; try discriminate H.
  destruct c; cbn [fst snd] in *; [|exact H].
  apply IH. exact H.
Qed.

Section Loop.

Variable body : Z -> Sender.M (Sender.ctl * Z).
Variable prompt eof_msg : string.

Hypothesis body_round : forall old s,
  exists c x s',
    body old s = Sender.Ret (c, x) s' /\ round_facts s prompt c s'.

Hypothesis body_eof : forall old s,
  IStream.buf (Sender.cin s) = [] ->
  body old s =
    Sender.Ret (Sender.Continue, old)
      (Sender.mkState (IStream.mk [] true false)
         (Sender.trace s ++ [Sender.Cout prompt; Sender.Cout eof_msg])
         (Sender.kills s)).

(** The loop sends no signal and never exits the program; when it
    ends, its last round was one that left by [break]; when it still
    runs after as many rounds as there were characters, the input is
    used up. *)
Lemma loop_facts (fuel : nat) : forall (old : Z) (s : Sender.state),
  exists evs,
    Sender.trace (final_state (Sender.while1 fuel body old s)) =
      Sender.trace s ++ evs /\
    Sender.attempts evs = [] /\
    (forall pid, Sender.delivered pid evs = []) /\
    match Sender.while1 fuel body old s with
    | Sender.Ret x sa =>
        exists old' s',
          body old' s' = Sender.Ret (Sender.Break, x) sa /\
          (Sender.kills s <= Sender.kills s')%nat
    | Sender.Exit _ _ => False
    | Sender.Spin s' =>
        (List.length (IStream.buf (Sender.cin s)) <= fuel)%nat ->
        IStream.buf (Sender.cin s') = []
    end.
Proof.
  induction fuel as [|fuel IH]; intros old s.
  - exists []. cbn [Sender.while1 final_state]. rewrite app_nil_r.
    split; [reflexivity|]. split; [reflexivity|]. split; [reflexivity|].
    intros H. destruct (IStream.buf (Sender.cin s)); [reflexivity | simpl in H; lia].
  - destruct (body_round old s) as (c & x & s1 & Hbody & Hfacts).
    rewrite (while1_succ fuel body old x c s s1 Hbody).
    inversion Hfacts as [s1' evs Htr Hatt Hdel Hk Hnil Hshrink
                        | s1' evs Htr Hatt Hdel Hk Hne Hshrink]; subst.
    + destruct (IH x s1) as (evs' & Htr' & Hatt' & Hdel' & Hout).
      exists (Sender.Cout prompt :: evs ++ evs').
      rewrite Htr', Htr. rewrite <- app_assoc. cbn [app].
      split; [reflexivity|]. split.
      { cbn [Sender.attempts]. rewrite attempts_app, Hatt, Hatt'. reflexivity. }
      split.
      { intros pid. cbn [Sender.delivered].
        rewrite delivered_app, Hdel, Hdel'. reflexivity. }
      destruct (Sender.while1 fuel body x s1) as [y sa|code se|sp].
      * destruct Hout as (old' & s' & Hb & Hk').
        exists old', s'. split; [exact Hb | lia].
      * exact Hout.
      * intros Hlen. apply Hout.
        destruct (IStream.buf (Sender.cin s)) as [|ch b] eqn:Hb.
        -- rewrite Hnil by reflexivity. simpl. lia.
        -- specialize (Hshrink ltac:(discriminate)). simpl in *. lia.
    + exists (Sender.Cout prompt :: evs). cbn [final_state].
      split; [exact Htr|]. split; [exact Hatt|].
      split; [intros pid; cbn [Sender.delivered]; apply Hdel|].
      exists old, s. split; [exact Hbody | lia].
Qed.

(** Once the input is used up, every round asks again. *)
Lemma loop_eof_forever (m : nat) : forall (old : Z) (s : Sender.state),
  IStream.buf (Sender.cin s) = [] ->
  exists s',
    Sender.while1 m body old s = Sender.Spin s' /\
    Sender.trace s' =
      Sender.trace s ++ again m [Sender.Cout prompt; Sender.Cout eof_msg] /\
    Sender.kills s' = Sender.kills s /\
    IStream.buf (Sender.cin s') = [].
Proof.
  induction m as [|m IH]; intros old s Hnil.
  - exists s. cbn [Sender.while1]. unfold again. cbn [repeat List.concat].
    rewrite app_nil_r.
    split; [reflexivity|]. split; [reflexivity|]. split; [reflexivity | exact Hnil].
  - rewrite (while1_succ m body old old Sender.Continue s _ (body_eof old s Hnil)).
    destruct (IH old (Sender.mkState (IStream.mk [] true false)
                        (Sender.trace s ++ [Sender.Cout prompt; Sender.Cout eof_msg])
                        (Sender.kills s)) eq_refl)
      as (s' & Hrun & Htr & Hk & Hb).
    exists s'. split; [exact Hrun|]. split; [|split; [exact Hk | exact Hb]].
    rewrite Htr. cbn [Sender.trace]. unfold again. cbn [repeat List.concat].
    rewrite <- app_assoc. reflexivity.
Qed.

(** A loop that has not ended when the input is used up never ends. *)
Lemma loop_spin_extends (n : nat) : forall (old : Z) (s sN : Sender.state),
  (List.length (IStream.buf (Sender.cin s)) <= n)%nat ->
  Sender.while1 n body old s = Sender.Spin sN ->
  forall m,
    exists s',
      Sender.while1 (n + m) body old s = Sender.Spin s' /\
      Sender.trace s' =
        Sender.trace sN ++ again m [Sender.Cout prompt; Sender.Cout eof_msg] /\
      Sender.kills s' = Sender.kills sN /\
      IStream.buf (Sender.cin s') = [].
Proof.
  induction n as [|n IH]; intros old s sN Hlen Hspin m.
  - cbn [Sender.while1] in Hspin. injection Hspin as <-.
    apply loop_eof_forever.
    destruct (IStream.buf (Sender.cin s)); [reflexivity | simpl in Hlen; lia].
  - destruct (body_round old s) as (c & x & s1 & Hbody & Hfacts).
    rewrite (while1_succ n body old x c s s1 Hbody) in Hspin.
    cbn [Nat.add]. rewrite (while1_succ (n + m) body old x c s s1 Hbody).
    inversion Hfacts as [s1' evs Htr Hatt Hdel Hk Hnil Hshrink
                        | s1' evs Htr Hatt Hdel Hk Hne Hshrink]; subst;
      [|discriminate Hspin].
    apply IH; [|exact Hspin].
    destruct (IStream.buf (Sender.cin s)) as [|ch b] eqn:Hb.
    + rewrite Hnil by reflexivity. simpl. lia.
    + specialize (Hshrink ltac:(discriminate)). simpl in *. lia.
Qed.

Lemma loop_never_ends (old : Z) (s sN : Sender.state) :
  Sender.while1 (List.length (IStream.buf (Sender.cin s))) body old s = Sender.Spin sN ->
  forall fuel, exists s', Sender.while1 fuel body old s = Sender.Spin s'.
Proof.
  intros Hspin fuel.
  set (N := List.length (IStream.buf (Sender.cin s))) in *.
  destruct (le_lt_dec N fuel) as [Hle|Hlt].
  - destruct (loop_spin_extends N old s sN (le_n _) Hspin (fuel - N)) as (s' & Hs & _).
    exists s'. replace fuel with (N + (fuel - N))%nat by lia. exact Hs.
  - destruct (Sender.while1 fuel body old s) as [x sa|code se|sp] eqn:E.
    + apply while1_mono with (m := (N - fuel)%nat) in E.
      replace (fuel + (N - fuel))%nat with N in E by lia.
      rewrite Hspin in E. discriminate E.
    + destruct (loop_facts fuel old s) as (evs & _ & _ & _ & Hm).
      rewrite E in Hm. contradiction.
    + exists sp. reflexivity.
Qed.

End Loop.

Lemma read_pid_eof (kill_ret : nat -> Z -> Z -> Z) (old : Z) (s : Sender.state) :
  IStream.buf (Sender.cin s) = [] ->
  Sender.read_pid kill_ret old s =
    Sender.Ret (Sender.Continue, old)
      (Sender.mkState (IStream.mk [] true false)
         (Sender.trace s ++ [Sender.Cout "Enter receiver PID: "; Sender.Cout msg_pid])
         (Sender.kills s)).
Proof.
  intros Hnil. rewrite read_pid_eq.
  destruct s as [[b e f] tr k]. cbn [Sender.cin IStream.buf] in Hnil. subst b.
  cbn [Sender.cin Sender.trace Sender.kills].
  destruct e, f; cbn; rewrite <- app_assoc; reflexivity.
Qed.

Lemma read_number_eof (old : Z) (s : Sender.state) :
  IStream.buf (Sender.cin s) = [] ->
  Sender.read_number old s =
    Sender.Ret (Sender.Continue, old)
      (Sender.mkState (IStream.mk [] true false)
         (Sender.trace s ++ [Sender.Cout "Enter message: "; Sender.Cout msg_not_a_number])
         (Sender.kills s)).
Proof.
  intros Hnil. rewrite read_number_eq.
  destruct s as [[b e f] tr k]. cbn [Sender.cin IStream.buf] in Hnil. subst b.
  cbn [Sender.cin Sender.trace Sender.kills].
  destruct e, f; cbn; rewrite <- app_assoc; reflexivity.
Qed.

Lemma read_pid_facts (kill_ret : nat -> Z -> Z -> Z) (old : Z) (s : Sender.state) :
  exists c x s',
    Sender.read_pid kill_ret old s = Sender.Ret (c, x) s' /\
    round_facts s "Enter receiver PID: " c s'.
Proof.
  destruct (read_pid_round kill_ret old s) as (c & x & s' & H & Hf & _).
  exists c, x, s'. split; assumption.
Qed.

Lemma read_number_facts (old : Z) (s : Sender.state) :
  exists c x s',
    Sender.read_number old s = Sender.Ret (c, x) s' /\
    round_facts s "Enter message: " c s'.
Proof.
  destruct (read_number_round old s) as (c & x & s' & H & Hf & _).
  exists c, x, s'. split; assumption.
Qed.

(** ** [main] of the sender, by what its two loops do *)

Lemma main_pid_spin (kill_ret : nat -> Z -> Z -> Z) (fuel : nat)
  (pid0 number0 : Z) (s s' : Sender.state) :
  Sender.while1 fuel (Sender.read_pid kill_ret) pid0 s = Sender.Spin s' ->
  Sender.main kill_ret fuel pid0 number0 s = Sender.Spin s'.
Proof. intros H. unfold Sender.main, Sender.bind. rewrite H. reflexivity. Qed.

Lemma main_number_spin (kill_ret : nat -> Z -> Z -> Z) (fuel : nat)
  (pid0 number0 pid : Z) (s sa s' : Sender.state) :
  Sender.while1 fuel (Sender.read_pid kill_ret) pid0 s = Sender.Ret pid sa ->
  Sender.while1 fuel Sender.read_number number0 sa = Sender.Spin s' ->
  Sender.main kill_ret fuel pid0 number0 s = Sender.Spin s'.
Proof.
  intros H1 H2. unfold Sender.main, Sender.bind. rewrite H1, H2. reflexivity.
Qed.

Lemma main_transmits (kill_ret : nat -> Z -> Z -> Z) (fuel : nat)
  (pid0 number0 pid v : Z) (s sa s0 : Sender.state) :
  Sender.while1 fuel (Sender.read_pid kill_ret) pid0 s = Sender.Ret pid sa ->
  Sender.while1 fuel Sender.read_number number0 sa = Sender.Ret v s0 ->
  Sender.main kill_ret fuel pid0 number0 s =
    Sender.bind (Sender.send_loop kill_ret pid v 8) (fun _ => Sender.ret 0) s0.
Proof.
  intros H1 H2. unfold Sender.main. unfold Sender.bind at 1 2.
  rewrite H1, H2. reflexivity.
Qed.

Lemma code_newline (c : ascii) : (IStream.code c =? 10) = Ascii.eqb c "010".
Proof.
  destruct (Ascii.eqb_spec c "010") as [->|Hne]; [reflexivity|].
  apply Z.eqb_neq. intros H. apply Hne.
  unfold IStream.code in H.
  rewrite <- (ascii_N_embedding c).
  replace (N_of_ascii c) with 10%N by lia. reflexivity.
Qed.

Lemma extract_non_numeric (s : IStream.t) (old : Z) (c : ascii) (r : list ascii) :
  IStream.good s = true -> IStream.buf s = c :: r -> non_numeric c = true ->
  IStream.extract_int s old = (IStream.mk (c :: r) false true, 0).
Proof.
  intros Hgood Hb Hc. unfold non_numeric in Hc.
  repeat (apply andb_true_iff in Hc; destruct Hc as [Hc ?]).
  repeat match goal with H : negb _ = true |- _ => apply negb_true_iff in H end.
  unfold IStream.extract_int. rewrite Hgood, Hb. cbn [negb IStream.skipws].
  rewrite H1. rewrite H0, H. cbn [orb IStream.scan_digits]. rewrite Hc.
  reflexivity.
Qed.

Lemma clamp_fits (n : Z) : fits n = true -> clamp n = n.
Proof.
  unfold fits, clamp. intros H. apply andb_true_iff in H. destruct H as [H1 H2].
  apply Z.leb_le in H1. apply Z.leb_le in H2.
  destruct (Z.ltb_spec n IStream.INT_MIN); [lia|].
  destruct (Z.ltb_spec IStream.INT_MAX n); [lia|]. reflexivity.
Qed.

Lemma clamp_nonpositive (n : Z) : n <= 0 -> clamp n <= 0.
Proof.
  unfold clamp. intros H.
  destruct (Z.ltb_spec n IStream.INT_MIN); [unfold IStream.INT_MIN; lia|].
  destruct (Z.ltb_spec IStream.INT_MAX n); [unfold IStream.INT_MAX in *; lia|].
  exact H.
Qed.

Lemma peek_good_cons (c : ascii) (r : list ascii) :
  IStream.peek (IStream.mk (c :: r) false false) =
    (IStream.mk (c :: r) false false, IStream.code c).
Proof. reflexivity. Qed.

(** ** What the sender does with its input *)

(** C8. Invalid input is asked for again. At a prompt reached with the
    stream in good state: text that is not a number, a number outside
    [0,255] at the end of its line, and a number followed by anything
    but the end of the line each make the round of the value loop print a
    message and go round again; a number that is not positive, and the
    PID of a process that [kill(pid, 0)] does not find, do the same in the
    PID loop. None of these rounds exits or sends a signal. And whatever
    the input, [main] either is still inside a loop, having sent nothing,
    or has left both loops with a positive PID that [kill(pid, 0)]
    accepted and a value in [0,255], nothing having been sent before. *)
Theorem invalid_input_reprompts (kill_ret : nat -> Z -> Z -> Z)
  (s : Sender.state) (old : Z) :
  IStream.good (Sender.cin s) = true ->
  (* a value that is not an integer *)
  (no_number_at (IStream.buf (Sender.cin s)) ->
   exists x s',
     Sender.read_number old s = Sender.Ret (Sender.Continue, x) s' /\
     Sender.trace s' =
       Sender.trace s ++ [Sender.Cout "Enter message: "; Sender.Cout msg_not_a_number] /\
     Sender.kills s' = Sender.kills s) /\
  (* a value out of range *)
  (forall n rest,
     numeral_at (IStream.buf (Sender.cin s)) n ("010"%char :: rest) ->
     n < 0 \/ 255 < n ->
     exists x s',
       Sender.read_number old s = Sender.Ret (Sender.Continue, x) s' /\
       Sender.trace s' =
         Sender.trace s ++
           [Sender.Cout "Enter message: ";
            Sender.Cout (if fits n then msg_range else msg_not_a_number)] /\
       Sender.kills s' = Sender.kills s) /\
  (* a value with trailing characters *)
  (forall n c rest,
     numeral_at (IStream.buf (Sender.cin s)) n (c :: rest) ->
     c <> "010"%char ->
     exists x s',
       Sender.read_number old s = Sender.Ret (Sender.Continue, x) s' /\
       Sender.trace s' =
         Sender.trace s ++
           [Sender.Cout "Enter message: ";
            Sender.Cout (if fits n then msg_trailing else msg_not_a_number)] /\
       Sender.kills s' = Sender.kills s) /\
  (* a PID that is not positive *)
  (forall n rest,
     numeral_at (IStream.buf (Sender.cin s)) n rest ->
     n <= 0 ->
     exists x s',
       Sender.read_pid kill_ret old s = Sender.Ret (Sender.Continue, x) s' /\
       Sender.trace s' =
         Sender.trace s ++ [Sender.Cout "Enter receiver PID: "; Sender.Cout msg_pid] /\
       Sender.kills s' = Sender.kills s) /\
  (* the PID of a process that does not exist *)
  (forall n rest,
     numeral_at (IStream.buf (Sender.cin s)) n rest ->
     0 < n <= IStream.INT_MAX ->
     kill_ret (Sender.kills s) n 0 = -1 ->
     exists s',
       Sender.read_pid kill_ret old s = Sender.Ret (Sender.Continue, n) s' /\
       Sender.trace s' =
         Sender.trace s ++
           [Sender.Cout "Enter receiver PID: "; Sender.Kill n 0 (-1);
            Sender.Cout msg_pid]) /\
  (* a round that goes round again is followed by the next round *)
  (forall (body : Z -> Sender.M (Sender.ctl * Z)) fuel x s',
     body old s = Sender.Ret (Sender.Continue, x) s' ->
     Sender.while1 (S fuel) body old s = Sender.while1 fuel body x s') /\
  (* nothing is sent before both inputs are accepted *)
  (forall fuel number0,
     (exists s',
        Sender.main kill_ret fuel old number0 s = Sender.Spin s' /\
        Sender.attempts (Sender.since s s') = []) \/
     (exists pid v sa s0,
        Sender.while1 fuel (Sender.read_pid kill_ret) old s = Sender.Ret pid sa /\
        Sender.while1 fuel Sender.read_number number0 sa = Sender.Ret v s0 /\
        0 < pid /\
        (exists k, kill_ret k pid 0 <> -1 /\
                   In (Sender.Kill pid 0 (kill_ret k pid 0)) (Sender.trace sa)) /\
        0 <= v <= 255 /\
        Sender.attempts (Sender.since s s0) = [] /\
        Sender.main kill_ret fuel old number0 s =
          Sender.bind (Sender.send_loop kill_ret pid v 8) (fun _ => Sender.ret 0) s0)).
Proof.
  intros Hgood.
  split; [|split; [|split; [|split; [|split; [|split]]]]].
  - (* not a number *)
    intros Hno. rewrite read_number_eq. cbv zeta.
    pose proof (extract_unreadable (Sender.cin s) old Hno) as Hfail.
    unfold IStream.fail. rewrite Hfail.
    do 2 eexists. split; [reflexivity|].
    cbn [Sender.trace Sender.kills]. rewrite <- app_assoc.
    split; reflexivity.
  - (* out of range *)
    intros n rest Hnum Hrange. rewrite read_number_eq. cbv zeta.
    rewrite (extract_numeral _ old n _ Hgood Hnum).
    cbn [fst snd IStream.fail IStream.failbit].
    destruct (fits n) eqn:Hfits; cbn [negb].
    + rewrite peek_good_cons. cbn [fst snd].
      change (IStream.code "010") with 10. cbn [Z.eqb Pos.eqb negb].
      rewrite (clamp_fits n Hfits).
      replace ((n <? 0) || (255 <? n)) with true.
      * do 2 eexists. split; [reflexivity|].
        cbn [Sender.trace Sender.kills]. rewrite <- app_assoc.
        split; reflexivity.
      * symmetry. apply orb_true_iff.
        destruct Hrange; [left; apply Z.ltb_lt | right; apply Z.ltb_lt]; assumption.
    + do 2 eexists. split; [reflexivity|].
      cbn [Sender.trace Sender.kills]. rewrite <- app_assoc.
      split; reflexivity.
  - (* trailing characters *)
    intros n c rest Hnum Hc. rewrite read_number_eq. cbv zeta.
    rewrite (extract_numeral _ old n _ Hgood Hnum).
    cbn [fst snd IStream.fail IStream.failbit].
    destruct (fits n) eqn:Hfits; cbn [negb].
    + rewrite peek_good_cons. cbn [fst snd].
      rewrite code_newline.
      replace (Ascii.eqb c "010") with false
        by (symmetry; apply Ascii.eqb_neq; exact Hc).
      cbn [negb].
      do 2 eexists. split; [reflexivity|].
      cbn [Sender.trace Sender.kills]. rewrite <- app_assoc.
      split; reflexivity.
    + do 2 eexists. split; [reflexivity|].
      cbn [Sender.trace Sender.kills]. rewrite <- app_assoc.
      split; reflexivity.
  - (* PID not positive *)
    intros n rest Hnum Hn. rewrite read_pid_eq. cbv zeta.
    rewrite (extract_numeral _ old n _ Hgood Hnum).
    cbn [fst snd].
    replace (clamp n <=? 0) with true
      by (symmetry; apply Z.leb_le, clamp_nonpositive; exact Hn).
    rewrite orb_true_r.
    do 2 eexists. split; [reflexivity|].
    cbn [Sender.trace Sender.kills]. rewrite <- app_assoc.
    split; reflexivity.
  - (* PID of no process *)
    intros n rest Hnum Hn Hdead. rewrite read_pid_eq. cbv zeta.
    rewrite (extract_numeral _ old n _ Hgood Hnum).
    assert (Hfits : fits n = true).
    { unfold fits. apply andb_true_iff.
      split; apply Z.leb_le; unfold IStream.INT_MIN; lia. }
    rewrite Hfits, (clamp_fits n Hfits).
    cbn [fst snd negb IStream.fail IStream.failbit orb].
    replace (n <=? 0) with false by (symmetry; apply Z.leb_gt; lia).
    rewrite Hdead. cbn [Z.eqb Pos.eqb].
    eexists. split; [reflexivity|].
    cbn [Sender.trace]. rewrite <- app_assoc. reflexivity.
  - (* continue *)
    intros body fuel x s' Hbody.
    exact (while1_succ fuel body old x Sender.Continue s s' Hbody).
  - (* nothing sent before both inputs are accepted *)
    intros fuel number0.
    destruct (loop_facts (Sender.read_pid kill_ret) "Enter receiver PID: "
                (read_pid_facts kill_ret) fuel old s)
      as (evs1 & Htr1 & Hatt1 & _ & Hout1).
    destruct (Sender.while1 fuel (Sender.read_pid kill_ret) old s)
      as [pid sa|code se|sp] eqn:Hpid; [|contradiction|].
    2:{ left. exists sp. split; [apply main_pid_spin; exact Hpid|].
        cbn [final_state] in Htr1. rewrite (since_app _ _ _ Htr1). exact Hatt1. }
    cbn [final_state] in Htr1.
    destruct Hout1 as (old' & s1 & Hbreak & _).
    destruct (read_pid_round kill_ret old' s1) as (c & x & s1' & Hround & _ & Hvalid).
    rewrite Hbreak in Hround. injection Hround as <- <- <-.
    destruct (Hvalid eq_refl) as (Hpos & Hlive & Hin).
    destruct (loop_facts Sender.read_number "Enter message: "
                read_number_facts fuel number0 sa)
      as (evs2 & Htr2 & Hatt2 & _ & Hout2).
    destruct (Sender.while1 fuel Sender.read_number number0 sa)
      as [v s0|code se|sp] eqn:Hnum; [|contradiction|].
    2:{ left. exists sp. split; [apply (main_number_spin _ _ _ _ pid _ sa); assumption|].
        cbn [final_state] in Htr2. rewrite Htr1, <- app_assoc in Htr2.
        rewrite (since_app _ _ _ Htr2), attempts_app, Hatt1, Hatt2. reflexivity. }
    cbn [final_state] in Htr2.
    destruct Hout2 as (old2 & s2 & Hbreak2 & _).
    destruct (read_number_round old2 s2) as (c & x & s2' & Hround2 & _ & _ & Hvalid2).
    rewrite Hbreak2 in Hround2. injection Hround2 as <- <- <-.
    right. exists pid, v, sa, s0.
    split; [reflexivity|]. split; [exact Hnum|]. split; [exact Hpos|].
    split; [exists (Sender.kills s1); split; assumption|].
    split; [apply Hvalid2; reflexivity|].
    split.
    + rewrite Htr1, <- app_assoc in Htr2.
      rewrite (since_app _ _ _ Htr2), attempts_app, Hatt1, Hatt2. reflexivity.
    + apply (main_transmits _ _ _ _ _ _ _ sa); [exact Hpid | exact Hnum].
Qed.

(** C8 on "abc", on 300, on "123abc", on the PID 0 and on the PID 999
    of no process. *)
Lemma invalid_input_reprompts_witness :
  (exists x s',
     Sender.read_number 7 (Sender.start ("abc" ++ endl)) =
       Sender.Ret (Sender.Continue, x) s' /\
     Sender.trace s' = [Sender.Cout "Enter message: "; Sender.Cout msg_not_a_number] /\
     Sender.kills s' = 0%nat) /\
  (exists x s',
     Sender.read_number 7 (Sender.start ("300" ++ endl)) =
       Sender.Ret (Sender.Continue, x) s' /\
     Sender.trace s' = [Sender.Cout "Enter message: "; Sender.Cout msg_range] /\
     Sender.kills s' = 0%nat) /\
  (exists x s',
     Sender.read_number 7 (Sender.start ("123abc" ++ endl)) =
       Sender.Ret (Sender.Continue, x) s' /\
     Sender.trace s' = [Sender.Cout "Enter message: "; Sender.Cout msg_trailing] /\
     Sender.kills s' = 0%nat) /\
  (exists x s',
     Sender.read_pid (fun _ _ _ => 0) 7 (Sender.start ("0" ++ endl)) =
       Sender.Ret (Sender.Continue, x) s' /\
     Sender.trace s' = [Sender.Cout "Enter receiver PID: "; Sender.Cout msg_pid] /\
     Sender.kills s' = 0%nat) /\
  (exists s',
     Sender.read_pid (fun _ _ _ => -1) 7 (Sender.start ("999" ++ endl)) =
       Sender.Ret (Sender.Continue, 999) s' /\
     Sender.trace s' =
       [Sender.Cout "Enter receiver PID: "; Sender.Kill 999 0 (-1); Sender.Cout msg_pid]).
Proof.
  split; [|split; [|split; [|split]]].
  - apply (proj1 (invalid_input_reprompts (fun _ _ _ => 0)
                    (Sender.start ("abc" ++ endl)) 7 eq_refl)).
    exists [], (list_ascii_of_string ("abc" ++ endl)).
    split; [reflexivity|]. split; [constructor | reflexivity].
  - apply (proj1 (proj2 (invalid_input_reprompts (fun _ _ _ => 0)
                           (Sender.start ("300" ++ endl)) 7 eq_refl)) 300 []).
    + numeral_here (@nil ascii) (@nil ascii) (list_ascii_of_string "300").
    + right. lia.
  - apply (proj1 (proj2 (proj2 (invalid_input_reprompts (fun _ _ _ => 0)
                                  (Sender.start ("123abc" ++ endl)) 7 eq_refl)))
             123 "a"%char (list_ascii_of_string ("bc" ++ endl))).
    + numeral_here (@nil ascii) (@nil ascii) (list_ascii_of_string "123").
    + discriminate.
  - apply (proj1 (proj2 (proj2 (proj2 (invalid_input_reprompts (fun _ _ _ => 0)
                                         (Sender.start ("0" ++ endl)) 7 eq_refl))))
             0 (list_ascii_of_string endl)).
    + numeral_here (@nil ascii) (@nil ascii) (list_ascii_of_string "0").
    + lia.
  - apply (proj1 (proj2 (proj2 (proj2 (proj2
             (invalid_input_reprompts (fun _ _ _ => -1)
                (Sender.start ("999" ++ endl)) 7 eq_refl)))))
             999 (list_ascii_of_string endl)).
    + numeral_here (@nil ascii) (@nil ascii) (list_ascii_of_string "999").
    + unfold IStream.INT_MAX. lia.
    + reflexivity.
Defined.

(** C9. The PID prompt does not look at what follows the number: when
    the text at the PID prompt is a number [n] that is the PID of a
    process [kill(pid, 0)] finds, followed by a character that cannot be
    part of a number, the PID loop accepts [n] and leaves that character
    and what follows it unread; the first round of the value loop then
    fails on it, drops the rest of the line, prints its message and goes
    round again. *)
Theorem pid_trailing_characters_accepted (kill_ret : nat -> Z -> Z -> Z)
  (s : Sender.state) (old_pid old_number n : Z) (c : ascii) (rest : list ascii) :
  IStream.good (Sender.cin s) = true ->
  numeral_at (IStream.buf (Sender.cin s)) n (c :: rest) ->
  non_numeric c = true ->
  0 < n <= IStream.INT_MAX ->
  kill_ret (Sender.kills s) n 0 <> -1 ->
  exists sa sb,
    Sender.read_pid kill_ret old_pid s = Sender.Ret (Sender.Break, n) sa /\
    IStream.buf (Sender.cin sa) = c :: rest /\
    Sender.trace sa =
      Sender.trace s ++
        [Sender.Cout "Enter receiver PID: ";
         Sender.Kill n 0 (kill_ret (Sender.kills s) n 0)] /\
    Sender.read_number old_number sa = Sender.Ret (Sender.Continue, 0) sb /\
    Sender.trace sb =
      Sender.trace sa ++ [Sender.Cout "Enter message: "; Sender.Cout msg_not_a_number] /\
    IStream.buf (Sender.cin sb) = fst (IStream.drop_line (c :: rest)) /\
    Sender.kills sb = Sender.kills sa.
Proof.
  intros Hgood Hnum Hc Hn Hlive.
  assert (Hfits : fits n = true).
  { unfold fits. apply andb_true_iff.
    split; apply Z.leb_le; unfold IStream.INT_MIN; lia. }
  assert (Hpid : Sender.read_pid kill_ret old_pid s =
                 Sender.Ret (Sender.Break, n)
                   (Sender.mkState (IStream.mk (c :: rest) false false)
                      ((Sender.trace s ++ [Sender.Cout "Enter receiver PID: "]) ++
                         [Sender.Kill n 0 (kill_ret (Sender.kills s) n 0)])
                      (S (Sender.kills s)))).
  { rewrite read_pid_eq. cbv zeta.
    rewrite (extract_numeral _ old_pid n _ Hgood Hnum).
    rewrite Hfits, (clamp_fits n Hfits).
    cbn [fst snd negb IStream.fail IStream.failbit orb].
    replace (n <=? 0) with false by (symmetry; apply Z.leb_gt; lia).
    replace (kill_ret (Sender.kills s) n 0 =? -1) with false
      by (symmetry; apply Z.eqb_neq; exact Hlive).
    reflexivity. }
  do 2 eexists. split; [exact Hpid|].
  split; [reflexivity|].
  split; [cbn [Sender.trace]; rewrite <- app_assoc; reflexivity|].
  rewrite read_number_eq. cbv zeta. cbn [Sender.cin Sender.trace Sender.kills].
  rewrite (extract_non_numeric (IStream.mk (c :: rest) false false)
             old_number c rest eq_refl eq_refl Hc).
  cbn [fst snd IStream.fail IStream.failbit].
  split; [reflexivity|].
  cbn [Sender.cin Sender.trace Sender.kills].
  split; [rewrite <- (app_assoc _ [Sender.Cout "Enter message: "]); reflexivity|].
  split; [apply ignore_clear_buf | reflexivity].
Qed.

(** C9 on the line "123abc" when process 123 exists. *)
Lemma pid_trailing_characters_accepted_witness :
  exists sa sb,
    Sender.read_pid (fun _ _ _ => 0) 7 (Sender.start ("123abc" ++ endl ++ "42" ++ endl)) =
      Sender.Ret (Sender.Break, 123) sa /\
    IStream.buf (Sender.cin sa) = list_ascii_of_string ("abc" ++ endl ++ "42" ++ endl) /\
    Sender.trace sa = [Sender.Cout "Enter receiver PID: "; Sender.Kill 123 0 0] /\
    Sender.read_number 7 sa = Sender.Ret (Sender.Continue, 0) sb /\
    Sender.trace sb =
      Sender.trace sa ++ [Sender.Cout "Enter message: "; Sender.Cout msg_not_a_number] /\
    IStream.buf (Sender.cin sb) = list_ascii_of_string ("42" ++ endl) /\
    Sender.kills sb = Sender.kills sa.
Proof.
  apply (pid_trailing_characters_accepted (fun _ _ _ => 0)
           (Sender.start ("123abc" ++ endl ++ "42" ++ endl)) 7 7 123
           "a"%char (list_ascii_of_string ("bc" ++ endl ++ "42" ++ endl))).
  - reflexivity.
  - numeral_here (@nil ascii) (@nil ascii) (list_ascii_of_string "123").
  - reflexivity.
  - unfold IStream.INT_MAX. lia.
  - discriminate.
Defined.

(** C10. Input that ends too early is asked for forever. If the PID
    loop has not ended after as many rounds as the input has characters,
    then [main] never ends, whatever the number of rounds it is given,
    and from then on every round prints the prompt and the message of the
    PID loop and nothing else; the same holds for the value loop once a
    PID was accepted. The end of the input is never reported, and the
    input stays used up. *)
Theorem exhausted_input_never_terminates (kill_ret : nat -> Z -> Z -> Z)
  (pid0 number0 : Z) (s : Sender.state) :
  (forall sN,
     Sender.while1 (List.length (IStream.buf (Sender.cin s)))
       (Sender.read_pid kill_ret) pid0 s = Sender.Spin sN ->
     forall fuel,
       finished (Sender.main kill_ret fuel pid0 number0 s) = false /\
       ((List.length (IStream.buf (Sender.cin s)) <= fuel)%nat ->
        exists s',
          Sender.main kill_ret fuel pid0 number0 s = Sender.Spin s' /\
          Sender.trace s' =
            Sender.trace sN ++
              again (fuel - List.length (IStream.buf (Sender.cin s)))
                [Sender.Cout "Enter receiver PID: "; Sender.Cout msg_pid] /\
          Sender.kills s' = Sender.kills sN /\
          IStream.buf (Sender.cin s') = [])) /\
  (forall n pid sa sN,
     Sender.while1 n (Sender.read_pid kill_ret) pid0 s = Sender.Ret pid sa ->
     Sender.while1 (List.length (IStream.buf (Sender.cin sa)))
       Sender.read_number number0 sa = Sender.Spin sN ->
     forall fuel,
       finished (Sender.main kill_ret fuel pid0 number0 s) = false /\
       ((n <= fuel)%nat ->
        (List.length (IStream.buf (Sender.cin sa)) <= fuel)%nat ->
        exists s',
          Sender.main kill_ret fuel pid0 number0 s = Sender.Spin s' /\
          Sender.trace s' =
            Sender.trace sN ++
              again (fuel - List.length (IStream.buf (Sender.cin sa)))
                [Sender.Cout "Enter message: "; Sender.Cout msg_not_a_number] /\
          Sender.kills s' = Sender.kills sN /\
          IStream.buf (Sender.cin s') = [])).
Proof.
  split.
  - intros sN Hspin fuel. split.
    + destruct (loop_never_ends _ _ _ (read_pid_facts kill_ret) (read_pid_eof kill_ret)
                  pid0 s sN Hspin fuel) as (s' & Hs).
      rewrite (main_pid_spin _ _ _ number0 _ _ Hs). reflexivity.
    + intros Hle.
      destruct (loop_spin_extends _ _ _ (read_pid_facts kill_ret) (read_pid_eof kill_ret)
                  _ pid0 s sN (le_n _) Hspin
                  (fuel - List.length (IStream.buf (Sender.cin s))))
        as (s' & Hs & Htr & Hk & Hb).
      replace (List.length (IStream.buf (Sender.cin s)) +
               (fuel - List.length (IStream.buf (Sender.cin s))))%nat
        with fuel in Hs by lia.
      exists s'. split; [apply main_pid_spin; exact Hs|].
      split; [exact Htr|]. split; [exact Hk | exact Hb].
  - intros n pid sa sN Hpid Hspin fuel. split.
    + destruct (Sender.while1 fuel (Sender.read_pid kill_ret) pid0 s)
        as [x sx|code se|sp] eqn:E.
      * pose proof (while1_mono _ _ _ _ _ _ E n) as E1.
        pose proof (while1_mono _ _ _ _ _ _ Hpid fuel) as E2.
        rewrite Nat.add_comm, E1 in E2. injection E2 as -> ->.
        destruct (loop_never_ends _ _ _ read_number_facts read_number_eof
                    number0 sa sN Hspin fuel) as (s' & Hs).
        rewrite (main_number_spin kill_ret fuel pid0 number0 pid s sa s' E Hs).
        reflexivity.
      * destruct (loop_facts _ _ (read_pid_facts kill_ret) fuel pid0 s)
          as (evs & _ & _ & _ & Hm).
        rewrite E in Hm. contradiction.
      * rewrite (main_pid_spin _ _ _ number0 _ _ E). reflexivity.
    + intros Hn Hlen.
      pose proof (while1_mono _ _ _ _ _ _ Hpid (fuel - n)%nat) as E.
      replace (n + (fuel - n))%nat with fuel in E by lia.
      destruct (loop_spin_extends _ _ _ read_number_facts read_number_eof
                  _ number0 sa sN (le_n _) Hspin
                  (fuel - List.length (IStream.buf (Sender.cin sa))))
        as (s' & Hs & Htr & Hk & Hb).
      replace (List.length (IStream.buf (Sender.cin sa)) +
               (fuel - List.length (IStream.buf (Sender.cin sa))))%nat
        with fuel in Hs by lia.
      exists s'.
      split; [exact (main_number_spin kill_ret fuel pid0 number0 pid s sa s' E Hs)|].
      split; [exact Htr|]. split; [exact Hk | exact Hb].
Qed.

(** C10 on the input "abc" that ends inside its first line, and on the
    input "123" that ends right after an accepted PID: after 10 rounds
    the sender is still asking. *)
Lemma exhausted_input_never_terminates_witness :
  finished (Sender.main (fun _ _ _ => 0) 10 7 7 (Sender.start "abc")) = false /\
  (exists s',
     Sender.main (fun _ _ _ => 0) 10 7 7 (Sender.start "123") = Sender.Spin s' /\
     Sender.trace s' =
       ([Sender.Cout "Enter receiver PID: "; Sender.Kill 123 0 0] ++
        again 10 [Sender.Cout "Enter message: "; Sender.Cout msg_not_a_number]) /\
     Sender.kills s' = 1%nat /\
     IStream.buf (Sender.cin s') = []).
Proof.
  split.
  - assert (Hspin : exists sN,
              Sender.while1
                (List.length (IStream.buf (Sender.cin (Sender.start "abc"))))
                (Sender.read_pid (fun _ _ _ => 0)) 7 (Sender.start "abc") =
              Sender.Spin sN)
      by (eexists; vm_compute; reflexivity).
    destruct Hspin as [sN Hspin].
    exact (proj1 (proj1 (exhausted_input_never_terminates (fun _ _ _ => 0) 7 7
                           (Sender.start "abc")) sN Hspin 10%nat)).
  - set (sa := Sender.mkState (IStream.mk [] true false)
                 [Sender.Cout "Enter receiver PID: "; Sender.Kill 123 0 0] 1).
    assert (Hpid : Sender.while1 1 (Sender.read_pid (fun _ _ _ => 0)) 7
                     (Sender.start "123") = Sender.Ret 123 sa)
      by (vm_compute; reflexivity).
    assert (Hspin : Sender.while1 (List.length (IStream.buf (Sender.cin sa)))
                      Sender.read_number 7 sa = Sender.Spin sa)
      by reflexivity.
    apply (proj2 (proj2 (exhausted_input_never_terminates (fun _ _ _ => 0) 7 7
                           (Sender.start "123")) 1%nat 123 sa sa Hpid Hspin 10%nat)).
    + lia.
    + simpl. lia.
Defined.

(** ** Signal delivery: the handler step by step *)

Lemma finish_start (sig : Z) (m : Receiver.state) :
  Signals.finish 11 sig Signals.ShlLoad m = Some (Receiver.handle_sigusr sig m).
Proof.
  unfold Receiver.handle_sigusr. destruct m as [bc res out].
  cbn [Signals.finish Signals.instr Receiver.bit_count Receiver.result Receiver.cout].
  destruct (sig =? SIGUSR2);
    cbn [Signals.finish Signals.instr Receiver.bit_count Receiver.result Receiver.cout];
    destruct (wrap32 (bc + 1) =? 8);
    cbn [Signals.finish Signals.instr Receiver.bit_count Receiver.result Receiver.cout];
    reflexivity.
Qed.

Lemma finish_next (sig : Z) (p p' : Signals.pc) (m m' : Receiver.state) :
  Signals.instr sig p m = Signals.Next p' m' ->
  Signals.finish (Signals.rank p) sig p m =
  Signals.finish (Signals.rank p') sig p' m'.
Proof.
  destruct m as [bc res out].
  destruct p; cbn [Signals.instr Receiver.bit_count Receiver.result Receiver.cout];
    intros H; try discriminate H; injection H as <- <-; run_handler; reflexivity.
Qed.

Lemma finish_exits (sig : Z) (p : Signals.pc) (m m' : Receiver.state) (code : Z) :
  Signals.instr sig p m = Signals.Exits code m' ->
  Signals.finish (Signals.rank p) sig p m = Some (Receiver.Exit code m').
Proof.
  destruct p; cbn [Signals.instr]; intros H; try discriminate H.
  injection H as <- <-. reflexivity.
Qed.

Lemma finish_returns (sig : Z) (p : Signals.pc) (m m' : Receiver.state) :
  Signals.instr sig p m = Signals.Returns m' ->
  Signals.finish (Signals.rank p) sig p m = Some (Receiver.Returned m').
Proof.
  destruct p; cbn [Signals.instr]; intros H; try discriminate H.
  injection H as <-. reflexivity.
Qed.

(** A handler run that will return has printed nothing. *)
Lemma finish_returned_cout (sig : Z) (p : Signals.pc) (m m' : Receiver.state) :
  Signals.finish (Signals.rank p) sig p m = Some (Receiver.Returned m') ->
  Receiver.cout m = Receiver.cout m'.
Proof.
  destruct m as [bc res out].
  destruct p; run_handler; intros H; try discriminate H;
    injection H as <-; reflexivity.
Qed.

(** ** Signal delivery: schedules *)

Lemma step_gone (a : Signals.action) (k k' : Signals.process) :
  Signals.stat k <> Signals.Live -> Signals.step a k = Some k' -> k' = k.
Proof.
  unfold Signals.step. intros Hgone H.
  destruct (Signals.stat k); [congruence| |];
    destruct a; try discriminate H; injection H as <-; reflexivity.
Qed.

Lemma step_live (a : Signals.action) (k k' : Signals.process) :
  Signals.step a k = Some k' -> Signals.stat k' = Signals.Live ->
  Signals.stat k = Signals.Live.
Proof.
  intros H Hlive. destruct (Signals.stat k) eqn:E; [reflexivity| |].
  - rewrite (step_gone a k k') in Hlive by (congruence || exact H). congruence.
  - rewrite (step_gone a k k') in Hlive by (congruence || exact H). congruence.
Qed.

Lemma usr_cases (sig : Z) :
  Signals.is_usr sig = true -> sig = SIGUSR1 \/ sig = SIGUSR2.
Proof.
  unfold Signals.is_usr. intros H. apply orb_true_iff in H.
  destruct H as [H|H]; apply Z.eqb_eq in H; auto.
Qed.

Lemma sigismember_app (xs ys : Signals.sigset) (sig : Z) :
  Signals.sigismember (xs ++ ys) sig =
  Signals.sigismember xs sig || Signals.sigismember ys sig.
Proof. unfold Signals.sigismember. apply existsb_app. Qed.

Lemma one_at_a_time_main (flags pid : Z) : one_at_a_time (Signals.main flags pid).
Proof.
  unfold one_at_a_time, Signals.main. cbn.
  split; [|split; [lia | reflexivity]].
  intros sig act H. unfold Signals.disp in H. cbn in H.
  destruct (sig =? SIGUSR1); injection H as <-; split; reflexivity.
Qed.

Lemma one_at_a_time_step (a : Signals.action) (k k' : Signals.process) :
  one_at_a_time k -> Signals.step a k = Some k' -> one_at_a_time k'.
Proof.
  intros (Hmask & Hdepth & Hlive) Hstep.
  destruct (Signals.stat k) eqn:Hstat.
  2,3: rewrite (step_gone a k k') by (congruence || exact Hstep);
       split; [exact Hmask | split; [exact Hdepth | congruence]].
  specialize (Hlive eq_refl).
  unfold Signals.step in Hstep. rewrite Hstat in Hstep.
  destruct a as [sig|sig|].
  - (* Arrive *)
    destruct (Signals.is_usr sig); [|discriminate Hstep].
    injection Hstep as <-. unfold Signals.arrive.
    split; [exact Hmask|]. split; [exact Hdepth|]. intros _. exact Hlive.
  - (* Deliver *)
    destruct (Signals.is_usr sig) eqn:Husr; [|discriminate Hstep].
    destruct (Signals.sigismember (Signals.pending k) sig) eqn:Hpend;
      [|discriminate Hstep].
    destruct (Signals.sigismember (Signals.blocked k) sig) eqn:Hblk;
      [discriminate Hstep|].
    cbn [andb negb] in Hstep. injection Hstep as <-.
    destruct (Signals.stack k) as [|f fs] eqn:Hstack.
    2:{ destruct Hlive as (_ & H1 & H2).
        destruct (usr_cases sig Husr) as [->| ->]; congruence. }
    unfold Signals.deliver.
    destruct (Signals.disp k sig) as [|act] eqn:Hdisp.
    + split; [exact Hmask|]. cbn [Signals.stack Signals.stat]. rewrite ?Hstack.
      split; [simpl; lia | discriminate].
    + destruct (Hmask sig act Hdisp) as [Hm1 Hm2].
      split; [|split].
      * intros sig' act'. unfold Signals.disp.
        cbn [Signals.disp1 Signals.disp2].
        intros H. apply (Hmask sig' act'). unfold Signals.disp.
        destruct (sig' =? SIGUSR1);
          [destruct (_ && (sig =? SIGUSR1)) | destruct (_ && negb (sig =? SIGUSR1))];
          (discriminate H || exact H).
      * cbn [Signals.stack]. rewrite ?Hstack. simpl. lia.
      * intros _. cbn [Signals.stack Signals.blocked Signals.f_saved].
        rewrite ?Hstack, ?Hlive. split; [reflexivity|].
        rewrite !sigismember_app, Hm1, Hm2. split; reflexivity.
  - (* Tick *)
    destruct (Signals.stack k) as [|f fs] eqn:Hstack; [discriminate Hstep|].
    injection Hstep as <-. unfold Signals.tick.
    destruct Hlive as (Hsaved & H1 & H2).
    assert (Hfs : fs = []).
    { destruct fs; [reflexivity | simpl in Hdepth; lia]. }
    subst fs.
    destruct (Signals.instr (Signals.f_sig f) (Signals.f_pc f) (Signals.mem k))
      as [p m|code m|m].
    + split; [exact Hmask|]. split; [simpl; lia|].
      intros _. cbn. auto.
    + split; [exact Hmask|]. split; [simpl; lia | discriminate].
    + split; [exact Hmask|]. split; [simpl; lia|].
      intros _. cbn. exact Hsaved.
Qed.

Lemma one_at_a_time_exec (sch : list Signals.action) :
  forall k k', one_at_a_time k -> Signals.exec sch k = Some k' -> one_at_a_time k'.
Proof.
  induction sch as [|a sch IH]; intros k k' Hk Hexec; simpl in Hexec.
  - injection Hexec as <-. exact Hk.
  - destruct (Signals.step a k) as [k1|] eqn:Hstep; [|discriminate Hexec].
    apply (IH k1); [|exact Hexec].
    exact (one_at_a_time_step a k k1 Hk Hstep).
Qed.

Lemma in_step_main (flags pid : Z) : in_step flags pid [] (Signals.main flags pid).
Proof. unfold in_step. cbn. repeat split. Qed.

Lemma deliver_paused (pid : Z) (pre : list Z) (sig : Z) (g0 : Receiver.state) :
  Receiver.run (Receiver.main pid) pre = Receiver.Paused g0 ->
  Receiver.run (Receiver.main pid) (pre ++ [sig]) =
    match Receiver.handle_sigusr sig g0 with
    | Receiver.Returned s' => Receiver.Paused s'
    | Receiver.Exit code s' => Receiver.Terminated code s'
    end.
Proof. intros H. rewrite run_snoc, H. reflexivity. Qed.

Lemma in_step_step (flags pid : Z) (h : list Z) (a : Signals.action)
  (k k' : Signals.process) :
  Signals.has_flag flags Signals.SA_RESETHAND = false ->
  one_at_a_time k ->
  in_step flags pid h k ->
  Signals.step a k = Some k' ->
  in_step flags pid (h ++ delivery_of a) k'.
Proof.
  intros Hflag (Hmask & Hdepth & Hlive) (Hd1 & Hd2 & Hview) Hstep.
  unfold Signals.step in Hstep.
  destruct (Signals.stat k) eqn:Hstat.
  2,3: destruct a; try discriminate Hstep; injection Hstep as <-;
       cbn [delivery_of]; rewrite app_nil_r;
       unfold in_step; rewrite Hstat; auto.
  specialize (Hlive eq_refl).
  destruct a as [sig|sig|].
  - (* Arrive *)
    destruct (Signals.is_usr sig); [|discriminate Hstep].
    injection Hstep as <-. cbn [delivery_of]. rewrite app_nil_r.
    unfold in_step, Signals.arrive. cbn. rewrite Hstat. auto.
  - (* Deliver *)
    destruct (Signals.is_usr sig) eqn:Husr; [|discriminate Hstep].
    destruct (Signals.sigismember (Signals.pending k) sig) eqn:Hpend;
      [|discriminate Hstep].
    destruct (Signals.sigismember (Signals.blocked k) sig) eqn:Hblk;
      [discriminate Hstep|].
    cbn [andb negb] in Hstep. injection Hstep as <-.
    destruct (Signals.stack k) as [|f fs] eqn:Hstack.
    2:{ destruct Hlive as (_ & H1 & H2).
        destruct (usr_cases sig Husr) as [->| ->]; congruence. }
    assert (Hdisp : Signals.disp k sig = Signals.Handle (installed flags)).
    { unfold Signals.disp. destruct (sig =? SIGUSR1); assumption. }
    unfold Signals.deliver. rewrite Hdisp.
    cbn [installed Signals.sa_flags Signals.sa_mask]. rewrite Hflag.
    cbn [andb delivery_of]. unfold in_step. cbn.
    split; [exact Hd1|]. split; [exact Hd2|].
    exists h, (Signals.mem k).
    split; [reflexivity|]. split; [exact Hview | apply finish_start].
  - (* Tick *)
    destruct (Signals.stack k) as [|f fs] eqn:Hstack; [discriminate Hstep|].
    injection Hstep as <-. cbn [delivery_of]. rewrite app_nil_r.
    assert (Hfs : fs = []).
    { destruct fs; [reflexivity | simpl in Hdepth; lia]. }
    subst fs.
    destruct Hview as (pre & g0 & Hh & Hrun & Hfin).
    unfold Signals.tick.
    destruct (Signals.instr (Signals.f_sig f) (Signals.f_pc f) (Signals.mem k))
      as [p m|code m|m] eqn:Hinstr; unfold in_step; cbn.
    + split; [exact Hd1|]. split; [exact Hd2|].
      exists pre, g0. split; [exact Hh|]. split; [exact Hrun|].
      rewrite <- (finish_next _ _ _ _ _ Hinstr). exact Hfin.
    + split; [exact Hd1|]. split; [exact Hd2|].
      rewrite (finish_exits _ _ _ _ _ Hinstr) in Hfin. injection Hfin as Hfin.
      rewrite Hh, (deliver_paused pid pre _ g0 Hrun), <- Hfin. reflexivity.
    + split; [exact Hd1|]. split; [exact Hd2|].
      rewrite (finish_returns _ _ _ _ Hinstr) in Hfin. injection Hfin as Hfin.
      rewrite Hh, (deliver_paused pid pre _ g0 Hrun), <- Hfin. reflexivity.
Qed.

Lemma deliveries_cons (a : Signals.action) (sch : list Signals.action) :
  Signals.deliveries (a :: sch) = delivery_of a ++ Signals.deliveries sch.
Proof. destruct a; reflexivity. Qed.

Lemma in_step_exec (flags pid : Z) (sch : list Signals.action) :
  Signals.has_flag flags Signals.SA_RESETHAND = false ->
  forall h k k',
    one_at_a_time k -> in_step flags pid h k ->
    Signals.exec sch k = Some k' ->
    in_step flags pid (h ++ Signals.deliveries sch) k'.
Proof.
  intros Hflag. induction sch as [|a sch IH]; intros h k k' Hone Hin Hexec.
  - simpl in Hexec. injection Hexec as <-. simpl. rewrite app_nil_r. exact Hin.
  - cbn [Signals.exec] in Hexec.
    destruct (Signals.step a k) as [k1|] eqn:Hstep; [|discriminate Hexec].
    rewrite deliveries_cons, app_assoc.
    apply (IH _ k1); [|exact (in_step_step _ _ _ _ _ _ Hflag Hone Hin Hstep)|exact Hexec].
    exact (one_at_a_time_step a k k1 Hone Hstep).
Qed.

(** ** Signal delivery: counting arrivals *)

Lemma sigismember_In (m : Signals.sigset) (sig : Z) :
  Signals.sigismember m sig = true <-> In sig m.
Proof.
  unfold Signals.sigismember. rewrite existsb_exists. split.
  - intros (x & Hx & Heq). apply Z.eqb_eq in Heq. subst. exact Hx.
  - intros H. exists sig. split; [exact H | apply Z.eqb_refl].
Qed.

Lemma length_sigdelset (m : Signals.sigset) (sig : Z) :
  NoDup m -> In sig m ->
  S (List.length (Signals.sigdelset m sig)) = List.length m.
Proof.
  unfold Signals.sigdelset.
  induction m as [|x m IH]; intros Hnd Hin; [contradiction|].
  inversion Hnd as [|? ? Hx Hnd']; subst.
  cbn [filter]. destruct (Z.eqb_spec sig x) as [->|Hne]; cbn [negb].
  - simpl. f_equal.
    clear IH Hin Hnd Hnd'. induction m as [|y m IH]; [reflexivity|].
    cbn [filter]. destruct (Z.eqb_spec x y) as [->|Hne]; cbn [negb].
    + exfalso. apply Hx. left. reflexivity.
    + simpl. f_equal. apply IH. intros H. apply Hx. right. exact H.
  - simpl. f_equal. apply IH; [exact Hnd'|].
    destruct Hin as [->|Hin]; [congruence | exact Hin].
Qed.

Lemma accounted_main (flags pid : Z) : accounted [] 0 0 (Signals.main flags pid).
Proof.
  unfold accounted. cbn. split; [lia|]. intros _. split; [lia | constructor].
Qed.

Lemma accounted_step (h : list Z) (n c : nat) (a : Signals.action)
  (k k' : Signals.process) :
  accounted h n c k ->
  Signals.step a k = Some k' ->
  accounted (h ++ delivery_of a) (n + arrival_count a) (c + lost_here a k) k'.
Proof.
  intros (Hle & Hlive) Hstep.
  unfold Signals.step in Hstep. unfold lost_here.
  destruct (Signals.stat k) eqn:Hstat.
  2,3: destruct a; try discriminate Hstep; injection Hstep as <-;
       cbn [delivery_of arrival_count]; rewrite app_nil_r;
       unfold accounted; rewrite Hstat;
       (split; [lia | discriminate]).
  destruct (Hlive eq_refl) as (Heq & Hnd).
  destruct a as [sig|sig|].
  - (* Arrive *)
    destruct (Signals.is_usr sig); [|discriminate Hstep].
    injection Hstep as <-. cbn [delivery_of arrival_count]. rewrite app_nil_r.
    unfold accounted, Signals.arrive.
    cbn [Signals.pending Signals.stat].
    destruct (Signals.sigismember (Signals.pending k) sig) eqn:Hmem.
    + split; [lia|]. intros _. split; [lia | exact Hnd].
    + unfold Signals.sigaddset. cbn [List.length].
      split; [lia|]. intros _. split; [lia|].
      constructor; [|exact Hnd].
      intros Hin. apply sigismember_In in Hin. congruence.
  - (* Deliver *)
    destruct (Signals.is_usr sig); [|discriminate Hstep].
    destruct (Signals.sigismember (Signals.pending k) sig) eqn:Hmem;
      [|discriminate Hstep].
    destruct (Signals.sigismember (Signals.blocked k) sig);
      [discriminate Hstep|].
    cbn [andb negb] in Hstep. injection Hstep as <-.
    cbn [delivery_of arrival_count].
    apply sigismember_In in Hmem.
    pose proof (length_sigdelset _ _ Hnd Hmem) as Hlen.
    assert (Hnd' : NoDup (Signals.sigdelset (Signals.pending k) sig))
      by (apply NoDup_filter; exact Hnd).
    unfold accounted, Signals.deliver. rewrite length_app. cbn [List.length].
    destruct (Signals.disp k sig); cbn [Signals.pending Signals.stat].
    + split; [lia | discriminate].
    + split; [lia|]. intros _. split; [lia | exact Hnd'].
  - (* Tick *)
    destruct (Signals.stack k) as [|f fs]; [discriminate Hstep|].
    injection Hstep as <-. cbn [delivery_of arrival_count]. rewrite app_nil_r.
    unfold accounted, Signals.tick.
    destruct (Signals.instr (Signals.f_sig f) (Signals.f_pc f) (Signals.mem k));
      cbn [Signals.pending Signals.stat].
    + split; [lia|]. intros _. split; [lia | exact Hnd].
    + split; [lia | discriminate].
    + split; [lia|]. intros _. split; [lia | exact Hnd].
Qed.

Lemma arrivals_cons (a : Signals.action) (sch : list Signals.action) :
  List.length (Signals.arrivals (a :: sch)) =
  (arrival_count a + List.length (Signals.arrivals sch))%nat.
Proof. destruct a; reflexivity. Qed.

Lemma coalesced_cons (a : Signals.action) (sch : list Signals.action)
  (k k1 : Signals.process) :
  Signals.step a k = Some k1 ->
  Signals.coalesced (a :: sch) k = (lost_here a k + Signals.coalesced sch k1)%nat.
Proof.
  intros H. cbn [Signals.coalesced]. rewrite H. unfold lost_here.
  destruct a; reflexivity.
Qed.

Lemma accounted_exec (sch : list Signals.action) :
  forall h n c k k',
    accounted h n c k ->
    Signals.exec sch k = Some k' ->
    accounted (h ++ Signals.deliveries sch)
      (n + List.length (Signals.arrivals sch)) (c + Signals.coalesced sch k) k'.
Proof.
  induction sch as [|a sch IH]; intros h n c k k' Hacc Hexec.
  - simpl in Hexec. injection Hexec as <-. simpl.
    rewrite app_nil_r, !Nat.add_0_r. exact Hacc.
  - cbn [Signals.exec] in Hexec.
    destruct (Signals.step a k) as [k1|] eqn:Hstep; [|discriminate Hexec].
    rewrite deliveries_cons, app_assoc, arrivals_cons, (coalesced_cons a sch k k1 Hstep).
    rewrite !Nat.add_assoc.
    apply (IH _ _ _ k1); [|exact Hexec].
    exact (accounted_step _ _ _ _ _ _ Hacc Hstep).
Qed.

(** The mask is what keeps the handler whole: a process that installs
    the same handler with an empty mask and SA_NODEFER can be interrupted
    inside [bit_count++]; two handler activations then exist at once, and
    after both have returned two signals were handled but [bit_count] is
    1. *)
Lemma unmasked_handler_loses_a_count :
  let unmasked :=
    Signals.boot (Signals.mkAction Signals.sigemptyset Signals.SA_NODEFER) 4242 in
  (exists k,
     Signals.exec (firstn 11 nesting_schedule) unmasked = Some k /\
     List.length (Signals.stack k) = 2%nat) /\
  (exists k,
     Signals.exec nesting_schedule unmasked = Some k /\
     Signals.deliveries nesting_schedule = [SIGUSR2; SIGUSR1] /\
     Signals.stack k = [] /\
     Receiver.bit_count (Signals.mem k) = 1).
Proof.
  intros unmasked. split; eexists; vm_compute; repeat split.
Qed.

(** ** The receiver under every schedule *)

(** C5. The handler is not re-entered. Whatever the schedule of
    arrivals, deliveries and handler steps, and whatever [sa_flags]
    holds: [main] installs for both signals an action whose mask holds
    both; at most one activation of the handler exists at any time; while
    it runs both signals are blocked, so that none can be delivered, one
    that arrives is kept pending without touching the handler or the
    globals, and one that is pending stays pending through every step of
    the handler and can be delivered as soon as the handler has returned.
    With SA_RESETHAND clear the process is, between handler runs, the
    receiver obtained by applying [handle_sigusr] once per delivery, in
    the order of the deliveries; inside a handler run, finishing the run
    gives what an uninterrupted [handle_sigusr] gives. *)
Theorem handler_not_reentered (flags pid : Z) (sch : list Signals.action)
  (k : Signals.process) :
  Signals.exec sch (Signals.main flags pid) = Some k ->
  (forall sig,
     Signals.is_usr sig = true ->
     exists act,
       Signals.disp (Signals.main flags pid) sig = Signals.Handle act /\
       Signals.sigismember (Signals.sa_mask act) SIGUSR1 = true /\
       Signals.sigismember (Signals.sa_mask act) SIGUSR2 = true) /\
  (List.length (Signals.stack k) <= 1)%nat /\
  (forall f fs sig,
     Signals.stat k = Signals.Live ->
     Signals.stack k = f :: fs ->
     Signals.is_usr sig = true ->
     Signals.sigismember (Signals.blocked k) sig = true /\
     Signals.step (Signals.Deliver sig) k = None /\
     (exists k1,
        Signals.step (Signals.Arrive sig) k = Some k1 /\
        Signals.sigismember (Signals.pending k1) sig = true /\
        Signals.mem k1 = Signals.mem k /\
        Signals.stack k1 = Signals.stack k) /\
     (Signals.sigismember (Signals.pending k) sig = true ->
      exists k1,
        Signals.step Signals.Tick k = Some k1 /\
        Signals.sigismember (Signals.pending k1) sig = true /\
        (Signals.stat k1 = Signals.Live ->
         Signals.stack k1 = [] ->
         Signals.step (Signals.Deliver sig) k1 = Some (Signals.deliver sig k1)))) /\
  (Signals.has_flag flags Signals.SA_RESETHAND = false ->
   in_step flags pid (Signals.deliveries sch) k /\
   forall p,
     Signals.view k = Some p ->
     p = Receiver.run (Receiver.main pid) (Signals.deliveries sch)).
Proof.
  intros Hexec.
  pose proof (one_at_a_time_exec sch _ k (one_at_a_time_main flags pid) Hexec) as Hone.
  split; [|split; [|split]].
  - intros sig _. unfold Signals.disp, Signals.main. cbn.
    destruct (sig =? SIGUSR1); eexists; repeat split.
  - apply Hone.
  - intros f fs sig Hstat Hstack Husr.
    pose proof Hone as Hone0.
    destruct Hone as (Hmask & Hdepth & Hlive).
    specialize (Hlive Hstat). rewrite Hstack in Hlive.
    destruct Hlive as (Hsaved & Hb1 & Hb2).
    assert (Hblk : Signals.sigismember (Signals.blocked k) sig = true)
      by (destruct (usr_cases sig Husr) as [->| ->]; assumption).
    split; [exact Hblk|]. split; [|split].
    + unfold Signals.step. rewrite Hstat, Husr, Hblk. cbn [negb].
      rewrite andb_false_r. reflexivity.
    + exists (Signals.arrive sig k).
      split; [unfold Signals.step; rewrite Hstat, Husr; reflexivity|].
      unfold Signals.arrive. cbn [Signals.pending Signals.mem Signals.stack].
      split; [|split; reflexivity].
      destruct (Signals.sigismember (Signals.pending k) sig) eqn:Hmem; [exact Hmem|].
      unfold Signals.sigaddset, Signals.sigismember. cbn [existsb].
      rewrite Z.eqb_refl. reflexivity.
    + intros Hpend. exists (Signals.tick f fs k).
      assert (Hstep : Signals.step Signals.Tick k = Some (Signals.tick f fs k))
        by (unfold Signals.step; rewrite Hstat, Hstack; reflexivity).
      assert (Hpend' : Signals.sigismember (Signals.pending (Signals.tick f fs k)) sig = true).
      { unfold Signals.tick.
        destruct (Signals.instr (Signals.f_sig f) (Signals.f_pc f) (Signals.mem k));
          exact Hpend. }
      split; [exact Hstep|]. split; [exact Hpend'|].
      intros Hstat1 Hstack1.
      destruct (one_at_a_time_step _ _ _ Hone0 Hstep)
        as (_ & _ & Hlive1).
      specialize (Hlive1 Hstat1). rewrite Hstack1 in Hlive1.
      unfold Signals.step. rewrite Hstat1, Husr, Hpend', Hlive1. reflexivity.
  - intros Hflag.
    pose proof (in_step_exec flags pid sch Hflag [] _ k
                  (one_at_a_time_main flags pid) (in_step_main flags pid) Hexec) as Hin.
    cbn [app] in Hin. split; [exact Hin|].
    intros p Hview. destruct Hin as (_ & _ & Hin).
    unfold Signals.view in Hview.
    destruct (Signals.stat k); [|injection Hview as <-; symmetry; exact Hin|discriminate Hview].
    destruct (Signals.stack k); [|discriminate Hview].
    injection Hview as <-. symmetry. exact Hin.
Qed.

(** C5 on a schedule in which SIGUSR1 and then SIGUSR2 (twice) arrive
    while the handler for a first SIGUSR2 is between its load and its
    store of [result]: neither can be delivered, both are pending, and
    the handler run, once finished, is the run of [handle_sigusr]. *)
Lemma handler_not_reentered_witness :
  exists k,
    Signals.exec
      [Signals.Arrive SIGUSR2; Signals.Deliver SIGUSR2; Signals.Tick;
       Signals.Arrive SIGUSR1; Signals.Arrive SIGUSR2; Signals.Arrive SIGUSR2]
      (Signals.main 0 4242) = Some k /\
    (List.length (Signals.stack k) <= 1)%nat /\
    Signals.step (Signals.Deliver SIGUSR1) k = None /\
    Signals.step (Signals.Deliver SIGUSR2) k = None /\
    Signals.pending k = [SIGUSR2; SIGUSR1] /\
    in_step 0 4242 [SIGUSR2] k.
Proof.
  assert (H : exists k,
            Signals.exec
              [Signals.Arrive SIGUSR2; Signals.Deliver SIGUSR2; Signals.Tick;
               Signals.Arrive SIGUSR1; Signals.Arrive SIGUSR2; Signals.Arrive SIGUSR2]
              (Signals.main 0 4242) = Some k /\
            Signals.stat k = Signals.Live /\
            Signals.stack k = [Signals.mkFrame SIGUSR2 (Signals.ShlStore 0) []] /\
            Signals.pending k = [SIGUSR2; SIGUSR1])
    by (eexists; vm_compute; repeat split).
  destruct H as (k & Hexec & Hstat & Hstack & Hpend).
  destruct (handler_not_reentered 0 4242 _ k Hexec) as (_ & Hdepth & Hrun & Hatomic).
  exists k. split; [exact Hexec|]. split; [exact Hdepth|].
  split; [exact (proj1 (proj2 (Hrun _ _ SIGUSR1 Hstat Hstack eq_refl)))|].
  split; [exact (proj1 (proj2 (Hrun _ _ SIGUSR2 Hstat Hstack eq_refl)))|].
  split; [exact Hpend|].
  exact (proj1 (Hatomic eq_refl)).
Defined.

(** C6, as the code has it. In a transmission of 8 symbols of which at
    least one arrived while a signal of its kind was still pending, the
    receiver (with SA_RESETHAND clear) never reaches its 8th symbol: at
    every moment it is alive and has printed nothing but its PID line -
    no value, right or wrong, and no error; at most 7 symbols were
    delivered; between handler runs it is suspended, holding the prefix
    formed by the delivered symbols; and when exactly one symbol was
    lost and all others are handled, its counter stands at 7. *)
Theorem coalescing_leaves_receiver_waiting (flags pid v : Z)
  (sch : list Signals.action) (k : Signals.process) :
  Signals.has_flag flags Signals.SA_RESETHAND = false ->
  Signals.arrivals sch = symbols v 8 ->
  Signals.exec sch (Signals.main flags pid) = Some k ->
  (1 <= Signals.coalesced sch (Signals.main flags pid))%nat ->
  Signals.stat k = Signals.Live /\
  Receiver.cout (Signals.mem k) = ("My PID is " ++ dec pid ++ endl)%string /\
  (List.length (Signals.deliveries sch) <= 7)%nat /\
  (forall p,
     Signals.view k = Some p ->
     p = Receiver.Paused (Signals.mem k) /\
     Receiver.prefix_inv (Signals.deliveries sch) (Signals.mem k) /\
     ~ reports_wrong_value pid v p) /\
  (Signals.stack k = [] -> Signals.pending k = [] ->
   Signals.coalesced sch (Signals.main flags pid) = 1%nat ->
   Receiver.bit_count (Signals.mem k) = 7).
Proof.
  intros Hflag Harr Hexec Hlost.
  pose proof (accounted_exec sch [] 0 0 _ k (accounted_main flags pid) Hexec) as Hacc.
  cbn [app Nat.add] in Hacc. rewrite Harr, symbols_length in Hacc.
  destruct Hacc as (Hle & Hlive).
  pose proof (in_step_exec flags pid sch Hflag [] _ k
                (one_at_a_time_main flags pid) (in_step_main flags pid) Hexec) as Hin.
  cbn [app] in Hin. destruct Hin as (_ & _ & Hin).
  assert (Hlen : (List.length (Signals.deliveries sch) <= 7)%nat) by lia.
  destruct (run_prefix pid (Signals.deliveries sch) ltac:(lia)) as (s & Hrun & Hinv & Hout).
  destruct (Signals.stat k) eqn:Hstat;
    [|rewrite Hrun in Hin; discriminate Hin|contradiction].
  destruct (Hlive eq_refl) as (Heq & _).
  split; [reflexivity|].
  destruct (Signals.stack k) as [|f fs] eqn:Hstack.
  - rewrite Hrun in Hin. injection Hin as ->.
    split; [exact Hout|]. split; [exact Hlen|]. split.
    + intros p Hview. unfold Signals.view in Hview. rewrite Hstat, Hstack in Hview.
      injection Hview as <-.
      split; [reflexivity|]. split; [exact Hinv|].
      intros (code & s' & x & Hp & _). discriminate Hp.
    + intros _ Hpend Hone. rewrite Hpend, Hone in Heq. simpl in Heq.
      destruct Hinv as (Hc & _). rewrite Hc.
      replace (List.length (Signals.deliveries sch)) with 7%nat by lia.
      reflexivity.
  - destruct Hin as (pre & g0 & Hh & Hpre & Hfin).
    assert (Hprelen : (List.length pre < 7)%nat).
    { rewrite Hh, length_app in Hlen. simpl in Hlen. lia. }
    destruct (run_prefix pid pre ltac:(lia)) as (s0 & Hrun0 & Hinv0 & Hout0).
    rewrite Hrun0 in Hpre. injection Hpre as <-.
    destruct (handler_on_prefix pre s0 (Signals.f_sig f) ltac:(lia) Hinv0) as [Hh0 _].
    cbv zeta in Hh0.
    replace (Z.of_nat (S (List.length pre)) =? 8) with false in Hh0
      by (symmetry; apply Z.eqb_neq; lia).
    rewrite Hh0 in Hfin. apply finish_returned_cout in Hfin. cbn in Hfin.
    split; [rewrite Hfin; exact Hout0|]. split; [exact Hlen|]. split.
    + intros p Hview. unfold Signals.view in Hview. rewrite Hstat, Hstack in Hview.
      discriminate Hview.
    + intros Hnil. discriminate Hnil.
Qed.

(** C6 (as the code has it) on [lossy_schedule], a transmission of 0 in
    which the second SIGUSR1 is coalesced with the first. *)
Lemma coalescing_leaves_receiver_waiting_witness :
  exists k,
    Signals.exec lossy_schedule (Signals.main 0 4242) = Some k /\
    Signals.stat k = Signals.Live /\
    Receiver.cout (Signals.mem k) = ("My PID is 4242" ++ endl)%string /\
    Receiver.bit_count (Signals.mem k) = 7.
Proof.
  assert (H : exists k,
            Signals.exec lossy_schedule (Signals.main 0 4242) = Some k /\
            Signals.stack k = [] /\ Signals.pending k = [])
    by (eexists; vm_compute; repeat split).
  destruct H as (k & Hexec & Hstack & Hpend).
  assert (Hlost : Signals.coalesced lossy_schedule (Signals.main 0 4242) = 1%nat)
    by (vm_compute; reflexivity).
  destruct (coalescing_leaves_receiver_waiting 0 4242 0 lossy_schedule k
              eq_refl eq_refl Hexec ltac:(rewrite Hlost; lia))
    as (Hstat & Hout & _ & _ & Hseven).
  exists k. split; [exact Hexec|]. split; [exact Hstat|]. split; [exact Hout|].
  exact (Hseven Hstack Hpend Hlost).
Defined.

(** C6 as the specification states it fails: in [lossy_schedule] the 8
    symbols of the value 0 arrive, exactly one of them is coalesced, all
    that can be delivered is delivered and handled - and the receiver has
    reported no value at all: it is suspended with [bit_count = 7]. *)
Lemma coalescing_reports_nothing :
  Signals.arrivals lossy_schedule = symbols 0 8 /\
  Signals.coalesced lossy_schedule (Signals.main 0 4242) = 1%nat /\
  (exists k,
     Signals.exec lossy_schedule (Signals.main 0 4242) = Some k /\
     Signals.pending k = [] /\
     Signals.view k =
       Some (Receiver.Paused (Receiver.mkState 7 0 ("My PID is 4242" ++ endl)))) /\
  ~ reports_wrong_value 4242 0
      (Receiver.Paused (Receiver.mkState 7 0 ("My PID is 4242" ++ endl))).
Proof.
  split; [reflexivity|]. split; [vm_compute; reflexivity|]. split.
  - eexists. vm_compute. repeat split.
  - intros (code & s & x & Hp & _). discriminate Hp.
Qed.

(** * Further properties of the sender and the receiver *)

(** ** What [cin >> x] has read when it succeeds *)

Lemma skipws_split (b : list ascii) :
  exists ws,
    b = ws ++ IStream.skipws b /\ all_spaces ws /\
    match IStream.skipws b with
    | [] => True
    | c :: _ => IStream.is_space c = false
    end.
Proof.
  induction b as [|c b IH].
  - exists []. repeat split. constructor.
  - simpl. destruct (IStream.is_space c) eqn:Hc.
    + destruct IH as (ws & Hb & Hws & Hhead).
      exists (c :: ws). split; [simpl; f_equal; exact Hb|].
      split; [constructor; assumption | exact Hhead].
    + exists []. split; [reflexivity|]. split; [constructor | exact Hc].
Qed.

Lemma scan_digits_split (b : list ascii) : forall acc seen n seen' rest,
  IStream.scan_digits b acc seen = (n, seen', rest) ->
  exists ds,
    b = ds ++ rest /\ all_digits ds /\ number_ends rest /\
    n = fold_left (fun a c => 10 * a + (IStream.code c - 48)) ds acc /\
    (seen = false -> seen' = true -> ds <> []).
Proof.
  induction b as [|c b IH]; intros acc seen n seen' rest H; simpl in H.
  - injection H as <- <- <-. exists []. repeat split; try constructor. congruence.
  - destruct (IStream.is_digit c) eqn:Hc.
    + apply IH in H. destruct H as (ds & Hb & Hds & Hend & Hn & _).
      exists (c :: ds). split; [simpl; f_equal; exact Hb|].
      split; [constructor; assumption|]. split; [exact Hend|].
      split; [exact Hn | discriminate].
    + injection H as <- <- <-. exists [].
      split; [reflexivity|]. split; [constructor|]. split; [exact Hc|].
      split; [reflexivity | congruence].
Qed.

(** When [cin >> x] leaves [failbit] clear, the text began with a number
    that fits an [int], [x] is that number, and the stream stands right
    after its last digit. *)
Lemma extract_int_success (s : IStream.t) (old x : Z) (c : IStream.t) :
  IStream.extract_int s old = (c, x) ->
  IStream.failbit c = false ->
  IStream.good s = true /\
  numeral_at (IStream.buf s) x (IStream.buf c) /\
  fits x = true /\
  c = IStream.mk (IStream.buf c)
        (match IStream.buf c with [] => true | _ => false end) false.
Proof.
  unfold IStream.extract_int. intros H Hok.
  destruct (IStream.good s) eqn:Hgood; cbn [negb] in H;
    [|injection H as <- <-; discriminate Hok].
  split; [reflexivity|].
  destruct (skipws_split (IStream.buf s)) as (ws & Hb & Hws & Hhead).
  destruct (IStream.skipws (IStream.buf s)) as [|ch r] eqn:Hskip;
    [injection H as <- <-; discriminate Hok|].
  set (b1 := if Ascii.eqb ch "-" || Ascii.eqb ch "+" then r else ch :: r) in H.
  destruct (IStream.scan_digits b1 0 false) as [[n seen] b2] eqn:Hscan.
  destruct (scan_digits_split _ _ _ _ _ _ Hscan) as (ds & Hb1 & Hds & Hend & Hn & Hne).
  destruct seen; cbn [negb] in H; [|injection H as <- <-; discriminate Hok].
  specialize (Hne eq_refl eq_refl).
  set (v := if Ascii.eqb ch "-" then - n else n) in H.
  destruct (Z.ltb_spec v IStream.INT_MIN) as [Hlo|Hlo];
    [injection H as <- <-; discriminate Hok|].
  destruct (Z.ltb_spec IStream.INT_MAX v) as [Hhi|Hhi];
    [injection H as <- <-; discriminate Hok|].
  injection H as <- <-. cbn [IStream.buf].
  split; [|split; [|reflexivity]].
  - unfold numeral_at.
    destruct (Ascii.eqb_spec ch "-") as [Hm|Hm].
    + subst ch. exists ws, ["-"%char], ds.
      cbn [orb] in b1. subst b1.
      split; [rewrite Hb; cbn [app]; f_equal; f_equal; exact Hb1|].
      split; [exact Hws|]. split; [right; right; split; [reflexivity | exact (f_equal Z.opp Hn)]|].
      split; [exact Hne|]. split; [exact Hds | exact Hend].
    + destruct (Ascii.eqb_spec ch "+") as [Hp|Hp].
      * subst ch. exists ws, ["+"%char], ds.
        cbn [orb] in b1. subst b1.
        split; [rewrite Hb; cbn [app]; f_equal; f_equal; exact Hb1|].
        split; [exact Hws|]. split; [right; left; split; [reflexivity | exact Hn]|].
        split; [exact Hne|]. split; [exact Hds | exact Hend].
      * exists ws, [], ds.
        cbn [orb] in b1. subst b1.
        split; [rewrite Hb; cbn [app]; f_equal; exact Hb1|].
        split; [exact Hws|]. split; [left; split; [reflexivity | exact Hn]|].
        split; [exact Hne|]. split; [exact Hds | exact Hend].
  - unfold fits. apply andb_true_iff. split; apply Z.leb_le; assumption.
Qed.

Lemma fits_byte (x : Z) : 0 <= x <= 255 -> fits x = true.
Proof.
  intros H. unfold fits, IStream.INT_MIN, IStream.INT_MAX.
  apply andb_true_iff. split; apply Z.leb_le; lia.
Qed.

Lemma newline_of_code (ch : ascii) : (IStream.code ch =? 10) = true -> ch = "010"%char.
Proof. rewrite code_newline. apply Ascii.eqb_eq. Qed.

(** ** Which lines the two prompts accept *)

(** A well-formed value line is accepted. *)
Lemma read_number_accepts (old x : Z) (s : Sender.state) (rest : list ascii) :
  IStream.good (Sender.cin s) = true ->
  numeral_at (IStream.buf (Sender.cin s)) x ("010"%char :: rest) ->
  0 <= x <= 255 ->
  Sender.read_number old s =
    Sender.Ret (Sender.Break, x)
      (Sender.mkState (IStream.mk ("010"%char :: rest) false false)
         (Sender.trace s ++ [Sender.Cout "Enter message: "])
         (Sender.kills s)).
Proof.
  intros Hgood Hnum Hx. rewrite read_number_eq. cbv zeta.
  rewrite (extract_numeral _ old x _ Hgood Hnum).
  rewrite (fits_byte x Hx), (clamp_fits x (fits_byte x Hx)).
  cbn [fst snd negb IStream.fail IStream.failbit].
  rewrite peek_good_cons. cbn [fst snd].
  change (IStream.code "010") with 10. cbn [Z.eqb Pos.eqb negb].
  replace ((x <? 0) || (255 <? x)) with false; [reflexivity|].
  symmetry. apply orb_false_iff. split; apply Z.ltb_ge; lia.
Qed.

(** The number of a process that exists is accepted as PID. *)
Lemma read_pid_accepts (kill_ret : nat -> Z -> Z -> Z) (old x : Z)
  (s : Sender.state) (rest : list ascii) :
  IStream.good (Sender.cin s) = true ->
  numeral_at (IStream.buf (Sender.cin s)) x rest ->
  0 < x <= IStream.INT_MAX ->
  kill_ret (Sender.kills s) x 0 <> -1 ->
  Sender.read_pid kill_ret old s =
    Sender.Ret (Sender.Break, x)
      (Sender.mkState
         (IStream.mk rest (match rest with [] => true | _ => false end) false)
         (Sender.trace s ++
            [Sender.Cout "Enter receiver PID: ";
             Sender.Kill x 0 (kill_ret (Sender.kills s) x 0)])
         (S (Sender.kills s))).
Proof.
  intros Hgood Hnum Hx Hlive. rewrite read_pid_eq. cbv zeta.
  rewrite (extract_numeral _ old x _ Hgood Hnum).
  assert (Hfits : fits x = true).
  { unfold fits. apply andb_true_iff.
    split; apply Z.leb_le; unfold IStream.INT_MIN; lia. }
  rewrite Hfits, (clamp_fits x Hfits).
  cbn [fst snd negb IStream.fail IStream.failbit orb].
  replace (x <=? 0) with false by (symmetry; apply Z.leb_gt; lia).
  replace (kill_ret (Sender.kills s) x 0 =? -1) with false
    by (symmetry; apply Z.eqb_neq; exact Hlive).
  rewrite <- app_assoc. reflexivity.
Qed.

(** X1. The value prompt accepts exactly the well-formed lines: a round
    of the value loop started on a good stream leaves the loop with the
    value [x] if and only if the unread text is white space, an optional
    sign, the digits of [x], and then the end of the line, with [x] in
    [0,255]. It then has printed only its prompt, made no call of [kill],
    and left the end of the line unread. *)
Theorem value_round_accepts_exactly (old x : Z) (s : Sender.state) :
  IStream.good (Sender.cin s) = true ->
  ((exists s', Sender.read_number old s = Sender.Ret (Sender.Break, x) s') <->
   (exists rest,
      numeral_at (IStream.buf (Sender.cin s)) x ("010"%char :: rest) /\
      0 <= x <= 255)) /\
  (forall rest,
     numeral_at (IStream.buf (Sender.cin s)) x ("010"%char :: rest) ->
     0 <= x <= 255 ->
     Sender.read_number old s =
       Sender.Ret (Sender.Break, x)
         (Sender.mkState (IStream.mk ("010"%char :: rest) false false)
            (Sender.trace s ++ [Sender.Cout "Enter message: "])
            (Sender.kills s))).
Proof.
  intros Hgood.
  pose proof (fun rest => read_number_accepts old x s rest Hgood) as Haccept.
  split; [|exact Haccept].
  split.
  - intros [s' H]. rewrite read_number_eq in H. cbv zeta in H.
    destruct (IStream.extract_int (Sender.cin s) old) as [c x0] eqn:E.
    cbn [fst snd] in H.
    destruct (IStream.fail c) eqn:Hfail; [discriminate H|].
    destruct (extract_int_success _ _ _ _ E Hfail) as (_ & Hnum & _ & Hc).
    destruct (IStream.buf c) as [|ch r] eqn:Hbuf.
    + rewrite Hc in H. cbn in H. discriminate H.
    + rewrite Hc in H. rewrite peek_good_cons in H. cbn [fst snd] in H.
      destruct (IStream.code ch =? 10) eqn:Hnl; cbn [negb] in H; [|discriminate H].
      apply newline_of_code in Hnl. subst ch.
      destruct ((x0 <? 0) || (255 <? x0)) eqn:Hrange; [discriminate H|].
      injection H as -> _.
      apply orb_false_iff in Hrange. destruct Hrange as [H0 H255].
      apply Z.ltb_ge in H0. apply Z.ltb_ge in H255.
      exists r. split; [exact Hnum | lia].
  - intros (rest & Hnum & Hx). eexists. exact (Haccept rest Hnum Hx).
Qed.

(** X1 on the line "42". *)
Lemma value_round_accepts_exactly_witness :
  Sender.read_number 7 (Sender.start ("42" ++ endl)) =
    Sender.Ret (Sender.Break, 42)
      (Sender.mkState (IStream.mk (list_ascii_of_string endl) false false)
         [Sender.Cout "Enter message: "] 0).
Proof.
  apply (proj2 (value_round_accepts_exactly 7 42 (Sender.start ("42" ++ endl)) eq_refl)
           []).
  - numeral_here (@nil ascii) (@nil ascii) (list_ascii_of_string "42").
  - lia.
Defined.

(** X2. The PID prompt accepts exactly the positive numbers of processes
    that [kill(pid, 0)] finds, and does not look at what follows the
    number: a round of the PID loop started on a good stream leaves the
    loop with [x] if and only if the unread text is white space, an
    optional sign and the digits of [x], with [0 < x <= INT_MAX], and the
    probe does not return -1. It then has printed its prompt and made the
    probe, and stands right after the last digit. *)
Theorem pid_round_accepts_exactly (kill_ret : nat -> Z -> Z -> Z) (old x : Z)
  (s : Sender.state) :
  IStream.good (Sender.cin s) = true ->
  ((exists s', Sender.read_pid kill_ret old s = Sender.Ret (Sender.Break, x) s') <->
   (exists rest,
      numeral_at (IStream.buf (Sender.cin s)) x rest /\
      0 < x <= IStream.INT_MAX /\
      kill_ret (Sender.kills s) x 0 <> -1)) /\
  (forall rest,
     numeral_at (IStream.buf (Sender.cin s)) x rest ->
     0 < x <= IStream.INT_MAX ->
     kill_ret (Sender.kills s) x 0 <> -1 ->
     Sender.read_pid kill_ret old s =
       Sender.Ret (Sender.Break, x)
         (Sender.mkState
            (IStream.mk rest (match rest with [] => true | _ => false end) false)
            (Sender.trace s ++
               [Sender.Cout "Enter receiver PID: ";
                Sender.Kill x 0 (kill_ret (Sender.kills s) x 0)])
            (S (Sender.kills s)))).
Proof.
  intros Hgood.
  pose proof (fun rest => read_pid_accepts kill_ret old x s rest Hgood) as Haccept.
  split; [|exact Haccept].
  split.
  - intros [s' H]. rewrite read_pid_eq in H. cbv zeta in H.
    destruct (IStream.extract_int (Sender.cin s) old) as [c x0] eqn:E.
    cbn [fst snd] in H.
    destruct (IStream.fail c) eqn:Hfail; cbn [orb] in H; [discriminate H|].
    destruct (Z.leb_spec x0 0) as [Hle|Hpos]; [discriminate H|].
    destruct (Z.eqb_spec (kill_ret (Sender.kills s) x0 0) (-1)) as [Hdead|Hlive];
      [discriminate H|].
    injection H as -> _.
    destruct (extract_int_success _ _ _ _ E Hfail) as (_ & Hnum & Hfits & _).
    exists (IStream.buf c). split; [exact Hnum|]. split; [|exact Hlive].
    unfold fits in Hfits. apply andb_true_iff in Hfits.
    destruct Hfits as [_ Hmax]. apply Z.leb_le in Hmax. lia.
  - intros (rest & Hnum & Hx & Hlive). eexists. exact (Haccept rest Hnum Hx Hlive).
Qed.

(** X2 on the text "123 42": the PID 123 is accepted and " 42" stays
    unread. *)
Lemma pid_round_accepts_exactly_witness :
  Sender.read_pid (fun _ _ _ => 0) 7 (Sender.start ("123 42" ++ endl)) =
    Sender.Ret (Sender.Break, 123)
      (Sender.mkState (IStream.mk (list_ascii_of_string (" 42" ++ endl)) false false)
         [Sender.Cout "Enter receiver PID: "; Sender.Kill 123 0 0] 1).
Proof.
  apply (proj2 (pid_round_accepts_exactly (fun _ _ _ => 0) 7 123
                  (Sender.start ("123 42" ++ endl)) eq_refl)
           (list_ascii_of_string (" 42" ++ endl))).
  - numeral_here (@nil ascii) (@nil ascii) (list_ascii_of_string "123").
  - unfold IStream.INT_MAX. lia.
  - discriminate.
Defined.

(** X3. A PID that does not fit an [int] is turned down without a probe:
    when the text at the PID prompt is a number beyond [INT_MAX] or below
    [INT_MIN], the round prints the PID message and goes round again, and
    no call of [kill] is made - the number is not cut down to some other
    process's PID. *)
Theorem oversized_pid_rejected_unprobed (kill_ret : nat -> Z -> Z -> Z)
  (old n : Z) (rest : list ascii) (s : Sender.state) :
  IStream.good (Sender.cin s) = true ->
  numeral_at (IStream.buf (Sender.cin s)) n rest ->
  n < IStream.INT_MIN \/ IStream.INT_MAX < n ->
  exists x s',
    Sender.read_pid kill_ret old s = Sender.Ret (Sender.Continue, x) s' /\
    Sender.trace s' =
      Sender.trace s ++ [Sender.Cout "Enter receiver PID: "; Sender.Cout msg_pid] /\
    Sender.kills s' = Sender.kills s /\
    IStream.buf (Sender.cin s') = fst (IStream.drop_line rest).
Proof.
  intros Hgood Hnum Hbig. rewrite read_pid_eq. cbv zeta.
  rewrite (extract_numeral _ old n _ Hgood Hnum).
  assert (Hfits : fits n = false).
  { unfold fits. apply andb_false_iff.
    destruct Hbig; [left | right]; apply Z.leb_gt; assumption. }
  rewrite Hfits. cbn [fst snd negb IStream.fail IStream.failbit orb].
  do 2 eexists. split; [reflexivity|].
  cbn [Sender.trace Sender.kills Sender.cin]. rewrite <- app_assoc.
  split; [reflexivity|]. split; [reflexivity|].
  apply ignore_clear_buf.
Qed.

(** X3 on 4294967297 = 2^32 + 1, when every process exists. *)
Lemma oversized_pid_rejected_unprobed_witness :
  exists x s',
    Sender.read_pid (fun _ _ _ => 0) 7 (Sender.start ("4294967297" ++ endl)) =
      Sender.Ret (Sender.Continue, x) s' /\
    Sender.trace s' = [Sender.Cout "Enter receiver PID: "; Sender.Cout msg_pid] /\
    Sender.kills s' = 0%nat /\
    IStream.buf (Sender.cin s') = [].
Proof.
  apply (oversized_pid_rejected_unprobed (fun _ _ _ => 0) 7 4294967297
           (list_ascii_of_string endl) (Sender.start ("4294967297" ++ endl))).
  - reflexivity.
  - numeral_here (@nil ascii) (@nil ascii) (list_ascii_of_string "4294967297").
  - right. unfold IStream.INT_MAX. lia.
Defined.

(** ** The transmission loop, whatever [kill] returns *)

Lemma send_loop_any (kill_ret : nat -> Z -> Z -> Z) (pid number : Z) (n : nat) :
  forall s : Sender.state,
  exists k s1,
    (k <= n)%nat /\
    (forall j, (j < k)%nat ->
       kill_ret (Sender.kills s + j)%nat pid (nth j (symbols number n) 0) <> -1) /\
    Sender.cin s1 = Sender.cin s /\
    ((k = n /\
      Sender.send_loop kill_ret pid number n s = Sender.Ret tt s1 /\
      Sender.trace s1 =
        Sender.trace s ++ sent_events kill_ret pid (Sender.kills s) (symbols number n)) \/
     ((k < n)%nat /\
      kill_ret (Sender.kills s + k)%nat pid (nth k (symbols number n) 0) = -1 /\
      Sender.send_loop kill_ret pid number n s = Sender.Exit 1 s1 /\
      Sender.trace s1 =
        Sender.trace s ++
          sent_events kill_ret pid (Sender.kills s) (firstn k (symbols number n)) ++
          [Sender.Kill pid (nth k (symbols number n) 0) (-1);
           Sender.Perror "Failed to send signal"])).
Proof.
  induction n as [|i IH]; intros s.
  - exists 0%nat, s. split; [lia|]. split; [intros j Hj; lia|]. split; [reflexivity|].
    left. split; [reflexivity|]. split; [reflexivity|].
    simpl. rewrite app_nil_r. reflexivity.
  - destruct (Z.eq_dec (kill_ret (Sender.kills s) pid (signal_of_bit number i)) (-1))
      as [Hko|Hok].
    + eexists 0%nat, _. split; [lia|]. split; [intros j Hj; lia|].
      split; [|right; split; [lia|]; split; [|split]].
      2:{ rewrite Nat.add_0_r. exact Hko. }
      2:{ apply (send_loop_fail kill_ret pid number (S i) s 0); [lia| intros j Hj; lia|].
          rewrite Nat.add_0_r. exact Hko. }
      * reflexivity.
      * reflexivity.
    + set (s' := Sender.mkState (Sender.cin s)
                   (Sender.trace s ++
                      [Sender.Kill pid (signal_of_bit number i)
                         (kill_ret (Sender.kills s) pid (signal_of_bit number i));
                       Sender.Usleep 100000])
                   (S (Sender.kills s))).
      assert (Hstep : Sender.send_loop kill_ret pid number (S i) s =
                      Sender.send_loop kill_ret pid number i s').
      { cbn [Sender.send_loop]. unfold Sender.bind at 1.
        pose proof Hok as Hok'. rewrite <- bit_signal_of_bit in Hok'.
        rewrite (send_bit_ok kill_ret pid _ s Hok').
        unfold s'. rewrite bit_signal_of_bit. reflexivity. }
      destruct (IH s') as (k & s1 & Hk & Hoks & Hcin & Hout).
      subst s'. cbn [Sender.cin Sender.trace Sender.kills] in *.
      exists (S k), s1. split; [lia|]. split.
      { intros j Hj. destruct j as [|j].
        - rewrite Nat.add_0_r. exact Hok.
        - cbn [symbols nth]. specialize (Hoks j ltac:(lia)).
          cbn [Sender.kills] in Hoks.
          replace (Sender.kills s + S j)%nat with (S (Sender.kills s) + j)%nat by lia.
          exact Hoks. }
      split; [exact Hcin|].
      destruct Hout as [(-> & Hrun & Htr)|(Hlt & Hko & Hrun & Htr)].
      * left. split; [reflexivity|]. split; [rewrite Hstep; exact Hrun|].
        rewrite Htr. cbn [Sender.trace Sender.kills symbols sent_events].
        rewrite <- app_assoc. reflexivity.
      * right. split; [lia|]. split.
        { cbn [symbols nth]. cbn [Sender.kills] in Hko.
          replace (Sender.kills s + S k)%nat with (S (Sender.kills s) + k)%nat by lia.
          exact Hko. }
        split; [rewrite Hstep; exact Hrun|].
        rewrite Htr. cbn [Sender.trace Sender.kills symbols sent_events firstn nth].
        rewrite <- app_assoc. reflexivity.
Qed.

Lemma total_pause_app (xs ys : list Sender.event) :
  total_pause (xs ++ ys) = total_pause xs + total_pause ys.
Proof.
  induction xs as [|e xs IH]; [reflexivity|].
  destruct e; cbn [app total_pause]; rewrite IH; lia.
Qed.

Lemma total_pause_sent (kill_ret : nat -> Z -> Z -> Z) (pid : Z) (sigs : list Z) :
  forall n, total_pause (sent_events kill_ret pid n sigs) = 100000 * Z.of_nat (List.length sigs).
Proof.
  induction sigs as [|sig sigs IH]; intros n; [reflexivity|].
  cbn [sent_events total_pause List.length]. rewrite IH. lia.
Qed.

Lemma firstn_symbols_usr (v : Z) (n k : nat) :
  Forall (fun sig => sig = SIGUSR1 \/ sig = SIGUSR2) (firstn k (symbols v n)).
Proof. apply Forall_firstn, symbols_are_usr. Qed.

Lemma nth_symbols_nonzero (v : Z) (n k : nat) :
  (k < n)%nat -> (nth k (symbols v n) 0 =? 0) = false.
Proof.
  intros Hk. rewrite (nth_error_nth _ _ 0 (symbols_nth v n k Hk)).
  unfold signal_of_bit. destruct (Z.testbit v _); reflexivity.
Qed.

(** What the trace of an aborted transmission shows. *)
Lemma aborted_trace_facts (kill_ret : nat -> Z -> Z -> Z) (pid v : Z) (n0 n k : nat) :
  (k < n)%nat ->
  (forall j, (j < k)%nat -> kill_ret (n0 + j)%nat pid (nth j (symbols v n) 0) <> -1) ->
  let evs :=
    sent_events kill_ret pid n0 (firstn k (symbols v n)) ++
    [Sender.Kill pid (nth k (symbols v n) 0) (-1);
     Sender.Perror "Failed to send signal"] in
  Sender.delivered pid evs = firstn k (symbols v n) /\
  Sender.attempts evs = map (pair pid) (firstn (S k) (symbols v n)) /\
  total_pause evs = 100000 * Z.of_nat k.
Proof.
  intros Hk Hok evs. unfold evs.
  pose proof (symbols_length v n) as Hlen.
  split; [|split].
  - rewrite delivered_app, delivered_sent_events.
    + cbn [Sender.delivered]. rewrite Z.eqb_refl, (nth_symbols_nonzero v n k Hk).
      cbn [andb negb Z.eqb]. apply app_nil_r.
    + apply firstn_symbols_usr.
    + intros j Hj. rewrite length_firstn in Hj. rewrite nth_firstn.
      replace (j <? k)%nat with true by (symmetry; apply Nat.ltb_lt; lia).
      apply Hok. lia.
  - rewrite attempts_app, attempts_sent_events by apply firstn_symbols_usr.
    cbn [Sender.attempts]. rewrite (nth_symbols_nonzero v n k Hk).
    rewrite (firstn_succ_nth 0) by lia. rewrite map_app. reflexivity.
  - rewrite total_pause_app, total_pause_sent, length_firstn.
    cbn [total_pause]. rewrite Hlen. lia.
Qed.

(** X4. Whatever [kill] returns, the transmission loop sends a prefix of
    the 8 symbols in most-significant-first order and stops at the first
    failure: for some [k <= 8] the signals it handed over are the first
    [k] symbols and it slept [k] times 100 ms; either [k = 8] and the loop
    ran to its end, or [k < 8], the loop ended by [exit(1)] and the only
    other call of [kill] is the failed one for symbol [k]. It never reads
    its input. *)
Theorem send_loop_sends_a_prefix (kill_ret : nat -> Z -> Z -> Z) (pid v : Z)
  (s0 : Sender.state) :
  exists k s1,
    (k <= 8)%nat /\
    Sender.delivered pid (Sender.since s0 s1) = firstn k (symbols v 8) /\
    total_pause (Sender.since s0 s1) = 100000 * Z.of_nat k /\
    Sender.cin s1 = Sender.cin s0 /\
    ((k = 8%nat /\
      Sender.send_loop kill_ret pid v 8 s0 = Sender.Ret tt s1 /\
      Sender.attempts (Sender.since s0 s1) = map (pair pid) (symbols v 8)) \/
     ((k < 8)%nat /\
      Sender.send_loop kill_ret pid v 8 s0 = Sender.Exit 1 s1 /\
      Sender.attempts (Sender.since s0 s1) =
        map (pair pid) (firstn (S k) (symbols v 8)))).
Proof.
  destruct (send_loop_any kill_ret pid v 8 s0) as (k & s1 & Hk & Hoks & Hcin & Hout).
  exists k, s1. split; [exact Hk|].
  destruct Hout as [(-> & Hrun & Htr)|(Hlt & Hko & Hrun & Htr)].
  - rewrite (since_app _ _ _ Htr).
    split.
    { rewrite delivered_sent_events; [reflexivity | apply symbols_are_usr|].
      intros j Hj. rewrite symbols_length in Hj. apply Hoks. exact Hj. }
    split; [rewrite total_pause_sent, symbols_length; reflexivity|].
    split; [exact Hcin|].
    left. split; [reflexivity|]. split; [exact Hrun|].
    apply attempts_sent_events, symbols_are_usr.
  - rewrite (since_app _ _ _ Htr).
    destruct (aborted_trace_facts kill_ret pid v (Sender.kills s0) 8 k Hlt Hoks)
      as (Hdel & Hatt & Hpause).
    split; [exact Hdel|]. split; [exact Hpause|]. split; [exact Hcin|].
    right. split; [exact Hlt|]. split; [exact Hrun | exact Hatt].
Qed.

(** ** [main] of the sender, whatever the input and whatever [kill] returns *)

Lemma read_pid_events (kill_ret : nat -> Z -> Z -> Z) (old : Z) (s : Sender.state) :
  exists c x s' evs,
    Sender.read_pid kill_ret old s = Sender.Ret (c, x) s' /\
    Sender.trace s' = Sender.trace s ++ evs /\
    forallb probe_only evs = true.
Proof.
  rewrite read_pid_eq. cbv zeta.
  destruct (IStream.extract_int (Sender.cin s) old) as [c x]. cbn [fst snd].
  destruct (IStream.fail c || (x <=? 0)) eqn:Hbad.
  - do 4 eexists. split; [reflexivity|]. cbn [Sender.trace].
    split; [rewrite <- app_assoc; reflexivity | reflexivity].
  - apply orb_false_iff in Hbad. destruct Hbad as [_ Hpos].
    apply Z.leb_gt in Hpos. apply Z.ltb_lt in Hpos.
    destruct (kill_ret (Sender.kills s) x 0 =? -1);
      do 4 eexists; (split; [reflexivity|]); cbn [Sender.trace];
      (split; [rewrite <- app_assoc; reflexivity|]);
      cbn [app forallb probe_only]; rewrite Hpos; reflexivity.
Qed.

Lemma read_number_events (old : Z) (s : Sender.state) :
  exists c x s' evs,
    Sender.read_number old s = Sender.Ret (c, x) s' /\
    Sender.trace s' = Sender.trace s ++ evs /\
    forallb probe_only evs = true.
Proof.
  rewrite read_number_eq. cbv zeta.
  destruct (IStream.extract_int (Sender.cin s) old) as [c x]. cbn [fst snd].
  destruct (IStream.fail c).
  { do 4 eexists. split; [reflexivity|]. cbn [Sender.trace].
    split; [rewrite <- app_assoc; reflexivity | reflexivity]. }
  destruct (IStream.peek c) as [c2 nx]. cbn [fst snd].
  destruct (negb (nx =? 10)).
  { do 4 eexists. split; [reflexivity|]. cbn [Sender.trace].
    split; [rewrite <- app_assoc; reflexivity | reflexivity]. }
  destruct ((x <? 0) || (255 <? x)).
  { do 4 eexists. split; [reflexivity|]. cbn [Sender.trace].
    split; [rewrite <- app_assoc; reflexivity | reflexivity]. }
  do 4 eexists. split; [reflexivity|]. cbn [Sender.trace].
  split; reflexivity.
Qed.

Lemma while1_events (body : Z -> Sender.M (Sender.ctl * Z)) :
  (forall old s,
     exists c x s' evs,
       body old s = Sender.Ret (c, x) s' /\
       Sender.trace s' = Sender.trace s ++ evs /\
       forallb probe_only evs = true) ->
  forall fuel old s,
    exists evs,
      Sender.trace (final_state (Sender.while1 fuel body old s)) =
        Sender.trace s ++ evs /\
      forallb probe_only evs = true.
Proof.
  intros Hbody. induction fuel as [|fuel IH]; intros old s.
  - exists []. cbn. rewrite app_nil_r. split; reflexivity.
  - destruct (Hbody old s) as (c & x & s1 & evs & Hb & Htr & Hev).
    rewrite (while1_succ fuel body old x c s s1 Hb).
    destruct c.
    + destruct (IH x s1) as (evs' & Htr' & Hev').
      exists (evs ++ evs'). rewrite Htr', Htr, <- app_assoc.
      split; [reflexivity|]. rewrite forallb_app, Hev, Hev'. reflexivity.
    + exists evs. cbn [final_state]. split; assumption.
Qed.

Lemma probe_only_facts (evs : list Sender.event) :
  forallb probe_only evs = true ->
  Sender.attempts evs = [] /\
  (forall pid, Sender.delivered pid evs = []) /\
  total_pause evs = 0 /\
  (forall p sig r, In (Sender.Kill p sig r) evs -> 0 < p /\ sig = 0).
Proof.
  induction evs as [|e evs IH]; intros H.
  - split; [reflexivity|]. split; [reflexivity|]. split; [reflexivity|].
    intros p sig r [].
  - cbn [forallb] in H. apply andb_true_iff in H. destruct H as [He H].
    destruct (IH H) as (Ha & Hd & Hp & Hk).
    destruct e as [text|text|p sig r|usec]; cbn [probe_only] in He; try discriminate He.
    + cbn [Sender.attempts Sender.delivered total_pause].
      split; [exact Ha|]. split; [exact Hd|]. split; [exact Hp|].
      intros p' sig' r' [Hin|Hin]; [discriminate Hin | exact (Hk p' sig' r' Hin)].
    + apply andb_true_iff in He. destruct He as [Hpos Hsig].
      apply Z.ltb_lt in Hpos. apply Z.eqb_eq in Hsig. subst sig.
      cbn [Sender.attempts Sender.delivered total_pause Z.eqb negb andb].
      split; [exact Ha|]. split.
      { intros pid. rewrite andb_false_r. apply Hd. }
      split; [exact Hp|].
      intros p' sig' r' [Hin|Hin]; [|exact (Hk p' sig' r' Hin)].
      injection Hin as <- <- <-. split; [exact Hpos | reflexivity].
Qed.

(** Every run of [main] is one of three: still asking; both inputs
    accepted and all 8 symbols sent; both inputs accepted and the
    transmission aborted at symbol [k]. *)
Lemma main_decomposed (kill_ret : nat -> Z -> Z -> Z) (fuel : nat)
  (pid0 number0 : Z) (s : Sender.state) :
  (exists s' evs,
     Sender.main kill_ret fuel pid0 number0 s = Sender.Spin s' /\
     Sender.trace s' = Sender.trace s ++ evs /\
     forallb probe_only evs = true) \/
  (exists pid v s0 s1 evs0,
     0 < pid /\ 0 <= v <= 255 /\
     Sender.trace s0 = Sender.trace s ++ evs0 /\
     forallb probe_only evs0 = true /\
     ((Sender.main kill_ret fuel pid0 number0 s = Sender.Ret 0 s1 /\
       (forall j, (j < 8)%nat ->
          kill_ret (Sender.kills s0 + j)%nat pid (nth j (symbols v 8) 0) <> -1) /\
       Sender.trace s1 =
         Sender.trace s0 ++ sent_events kill_ret pid (Sender.kills s0) (symbols v 8)) \/
      (exists k,
         (k < 8)%nat /\
         Sender.main kill_ret fuel pid0 number0 s = Sender.Exit 1 s1 /\
         (forall j, (j < k)%nat ->
            kill_ret (Sender.kills s0 + j)%nat pid (nth j (symbols v 8) 0) <> -1) /\
         Sender.trace s1 =
           Sender.trace s0 ++
             sent_events kill_ret pid (Sender.kills s0) (firstn k (symbols v 8)) ++
             [Sender.Kill pid (nth k (symbols v 8) 0) (-1);
              Sender.Perror "Failed to send signal"]))).
Proof.
  destruct (while1_events _ (read_pid_events kill_ret) fuel pid0 s) as (evs1 & Htr1 & Hev1).
  destruct (loop_facts (Sender.read_pid kill_ret) "Enter receiver PID: "
              (read_pid_facts kill_ret) fuel pid0 s) as (_ & _ & _ & _ & Hout1).
  destruct (Sender.while1 fuel (Sender.read_pid kill_ret) pid0 s)
    as [pid sa|code se|sp] eqn:Hpid; [|contradiction|].
  2:{ left. exists sp, evs1. split; [apply main_pid_spin; exact Hpid|].
      split; assumption. }
  cbn [final_state] in Htr1.
  destruct Hout1 as (old' & s1' & Hbreak & _).
  destruct (read_pid_round kill_ret old' s1') as (c & x & sx & Hround & _ & Hvalid).
  rewrite Hbreak in Hround. injection Hround as <- <- <-.
  destruct (Hvalid eq_refl) as (Hpos & _ & _).
  destruct (while1_events _ read_number_events fuel number0 sa) as (evs2 & Htr2 & Hev2).
  destruct (loop_facts Sender.read_number "Enter message: "
              read_number_facts fuel number0 sa) as (_ & _ & _ & _ & Hout2).
  destruct (Sender.while1 fuel Sender.read_number number0 sa)
    as [v s0|code se|sp] eqn:Hnum; [|contradiction|].
  2:{ left. exists sp, (evs1 ++ evs2).
      split; [apply (main_number_spin _ _ _ _ pid _ sa); assumption|].
      cbn [final_state] in Htr2. rewrite Htr2, Htr1, <- app_assoc.
      split; [reflexivity|]. rewrite forallb_app, Hev1, Hev2. reflexivity. }
  cbn [final_state] in Htr2.
  destruct Hout2 as (old2 & s2 & Hbreak2 & _).
  destruct (read_number_round old2 s2) as (c & x & sx & Hround2 & _ & _ & Hvalid2).
  rewrite Hbreak2 in Hround2. injection Hround2 as <- <- <-.
  specialize (Hvalid2 eq_refl).
  pose proof (main_transmits kill_ret fuel pid0 number0 pid v s sa s0 Hpid Hnum) as Hmain.
  destruct (send_loop_any kill_ret pid v 8 s0) as (k & s1 & Hk & Hoks & _ & Hout).
  right. exists pid, v, s0, s1, (evs1 ++ evs2).
  split; [exact Hpos|]. split; [exact Hvalid2|].
  split; [rewrite Htr2, Htr1, <- app_assoc; reflexivity|].
  split; [rewrite forallb_app, Hev1, Hev2; reflexivity|].
  destruct Hout as [(-> & Hrun & Htr)|(Hlt & Hko & Hrun & Htr)].
  - left. split; [|split; [exact Hoks | exact Htr]].
    rewrite Hmain. unfold Sender.bind. rewrite Hrun. reflexivity.
  - right. exists k. split; [exact Hlt|]. split; [|split; [exact Hoks | exact Htr]].
    rewrite Hmain. unfold Sender.bind. rewrite Hrun. reflexivity.
Qed.

Lemma probe_only_harmless (evs : list Sender.event) :
  forallb probe_only evs = true -> forallb harmless evs = true.
Proof.
  induction evs as [|e evs IH]; [reflexivity|].
  cbn [forallb]. intros H. apply andb_true_iff in H. destruct H as [He H].
  rewrite (IH H), andb_true_r.
  destruct e as [text|text|p sig r|usec]; cbn [probe_only harmless] in *;
    try reflexivity.
  apply andb_true_iff in He. destruct He as [-> Hsig]. rewrite Hsig. reflexivity.
Qed.

Lemma sent_events_harmless (kill_ret : nat -> Z -> Z -> Z) (pid : Z) (sigs : list Z) :
  0 < pid ->
  Forall (fun sig => sig = SIGUSR1 \/ sig = SIGUSR2) sigs ->
  forall n, forallb harmless (sent_events kill_ret pid n sigs) = true.
Proof.
  intros Hpos Husr. induction Husr as [|sig sigs Hsig _ IH]; intros n; [reflexivity|].
  cbn [sent_events forallb harmless]. rewrite IH.
  apply Z.ltb_lt in Hpos. rewrite Hpos.
  destruct Hsig as [-> | ->]; reflexivity.
Qed.

(** X5. The sender never signals more than one process: in every run of
    [main], whatever the input and whatever [kill] returns, every call of
    [kill] has a positive PID - never 0, -1 or another negative number,
    which would address a process group or every process - and its
    signal is 0 (the probe), SIGUSR1 or SIGUSR2. *)
Theorem sender_never_signals_a_group (kill_ret : nat -> Z -> Z -> Z) (fuel : nat)
  (pid0 number0 : Z) (s : Sender.state) :
  forallb harmless
    (Sender.since s (final_state (Sender.main kill_ret fuel pid0 number0 s))) = true.
Proof.
  destruct (main_decomposed kill_ret fuel pid0 number0 s)
    as [(s' & evs & Hmain & Htr & Hev)
       |(pid & v & s0 & s1 & evs0 & Hpos & Hv & Htr0 & Hev0 & Hrun)].
  - rewrite Hmain. cbn [final_state]. rewrite (since_app _ _ _ Htr).
    apply probe_only_harmless. exact Hev.
  - destruct Hrun as [(Hmain & _ & Htr)|(k & Hk & Hmain & _ & Htr)];
      rewrite Hmain; cbn [final_state];
      rewrite Htr0, <- app_assoc in Htr; rewrite (since_app _ _ _ Htr);
      rewrite forallb_app, (probe_only_harmless _ Hev0); cbn [andb].
    + apply sent_events_harmless; [exact Hpos | apply symbols_are_usr].
    + rewrite forallb_app, sent_events_harmless
        by (exact Hpos || apply firstn_symbols_usr).
      cbn [andb forallb harmless].
      replace (0 <? pid) with true by (symmetry; apply Z.ltb_lt; exact Hpos).
      pose proof (symbols_nth v 8 k Hk) as Hn.
      rewrite (nth_error_nth _ _ 0 Hn).
      unfold signal_of_bit. destruct (Z.testbit v _); reflexivity.
Qed.

(** X6. The three ways a run of [main] can stand, whatever the input and
    whatever [kill] returns. Still inside an input loop: no signal was
    sent and no pause made. Returned: the status is 0, and a positive PID
    and a value in [0,255] exist such that exactly the 8 symbols of the
    value were sent to that PID, with 800 ms of pauses. Exited: the
    status is 1, the last thing done is the [perror], and for some
    [k < 8] the first [k] symbols were delivered, the call for symbol [k]
    failed and no other was made. *)
Theorem main_outcomes (kill_ret : nat -> Z -> Z -> Z) (fuel : nat)
  (pid0 number0 : Z) (s : Sender.state) :
  match Sender.main kill_ret fuel pid0 number0 s with
  | Sender.Spin s' =>
      Sender.attempts (Sender.since s s') = [] /\
      total_pause (Sender.since s s') = 0
  | Sender.Ret status s1 =>
      status = 0 /\
      exists pid v,
        0 < pid /\ 0 <= v <= 255 /\
        Sender.delivered pid (Sender.since s s1) = symbols v 8 /\
        Sender.attempts (Sender.since s s1) = map (pair pid) (symbols v 8) /\
        total_pause (Sender.since s s1) = 800000
  | Sender.Exit status s1 =>
      status = 1 /\
      exists pid v k,
        0 < pid /\ 0 <= v <= 255 /\ (k < 8)%nat /\
        Sender.delivered pid (Sender.since s s1) = firstn k (symbols v 8) /\
        Sender.attempts (Sender.since s s1) =
          map (pair pid) (firstn (S k) (symbols v 8)) /\
        total_pause (Sender.since s s1) = 100000 * Z.of_nat k /\
        exists before,
          Sender.trace s1 = before ++ [Sender.Perror "Failed to send signal"]
  end.
Proof.
  destruct (main_decomposed kill_ret fuel pid0 number0 s)
    as [(s' & evs & Hmain & Htr & Hev)
       |(pid & v & s0 & s1 & evs0 & Hpos & Hv & Htr0 & Hev0 & Hrun)].
  - rewrite Hmain. rewrite (since_app _ _ _ Htr).
    destruct (probe_only_facts evs Hev) as (Ha & _ & Hp & _).
    split; assumption.
  - destruct (probe_only_facts evs0 Hev0) as (Ha & Hd & Hp & _).
    destruct Hrun as [(Hmain & Hoks & Htr)|(k & Hk & Hmain & Hoks & Htr)];
      rewrite Hmain.
    + split; [reflexivity|]. exists pid, v.
      split; [exact Hpos|]. split; [exact Hv|].
      rewrite Htr0, <- app_assoc in Htr. rewrite (since_app _ _ _ Htr).
      rewrite delivered_app, attempts_app, total_pause_app, Ha, Hd, Hp.
      cbn [app]. split.
      { apply delivered_sent_events; [apply symbols_are_usr|].
        intros j Hj. rewrite symbols_length in Hj. apply Hoks. exact Hj. }
      split; [apply attempts_sent_events, symbols_are_usr|].
      rewrite total_pause_sent, symbols_length. reflexivity.
    + split; [reflexivity|]. exists pid, v, k.
      split; [exact Hpos|]. split; [exact Hv|]. split; [exact Hk|].
      destruct (aborted_trace_facts kill_ret pid v (Sender.kills s0) 8 k Hk Hoks)
        as (Hdel & Hatt & Hpause).
      pose proof Htr as Htr'.
      rewrite Htr0, <- app_assoc in Htr'. rewrite (since_app _ _ _ Htr').
      rewrite delivered_app, attempts_app, total_pause_app, Ha, Hd, Hp.
      cbn [app]. split; [exact Hdel|]. split; [exact Hatt|]. split; [exact Hpause|].
      eexists. rewrite Htr.
      change [Sender.Kill pid (nth k (symbols v 8) 0) (-1);
              Sender.Perror "Failed to send signal"]
        with ([Sender.Kill pid (nth k (symbols v 8) 0) (-1)] ++
              [Sender.Perror "Failed to send signal"]).
      rewrite !app_assoc. reflexivity.
Qed.

(** ** From the text on standard input to the receiver's report *)

Lemma numeral_nonempty (b : list ascii) (n : Z) (rest : list ascii) :
  numeral_at b n rest -> b <> [].
Proof.
  intros (ws & sg & ds & Hb & _ & _ & Hne & _) ->.
  symmetry in Hb.
  apply app_eq_nil in Hb. destruct Hb as [_ Hb].
  apply app_eq_nil in Hb. destruct Hb as [_ Hb].
  apply app_eq_nil in Hb. destruct Hb as [Hb _]. contradiction.
Qed.

(** X7. From the keyboard to the receiver: when the input is the number
    of a process that exists, then - on the next line or, after white
    space, on the same one - a number in [0,255] and the end of its
    line, and no call of [kill] fails, [main] returns 0 after one round
    of each loop; all it did is: the PID prompt, the probe, the value
    prompt, and the 8 symbols of the value with their pauses; the end of
    the value's line stays unread; and a receiver that gets these
    signals prints [Received v] and exits with status 0. *)
Theorem transmission_from_text (kill_ret : nat -> Z -> Z -> Z) (fuel : nat)
  (pid0 number0 pid v rpid : Z) (rest1 rest2 : list ascii) (s : Sender.state) :
  IStream.good (Sender.cin s) = true ->
  numeral_at (IStream.buf (Sender.cin s)) pid rest1 ->
  0 < pid <= IStream.INT_MAX ->
  numeral_at rest1 v ("010"%char :: rest2) ->
  0 <= v <= 255 ->
  (forall n sig, kill_ret n pid sig <> -1) ->
  exists s1,
    Sender.main kill_ret (S fuel) pid0 number0 s = Sender.Ret 0 s1 /\
    Sender.since s s1 =
      [Sender.Cout "Enter receiver PID: ";
       Sender.Kill pid 0 (kill_ret (Sender.kills s) pid 0);
       Sender.Cout "Enter message: "] ++
      sent_events kill_ret pid (S (Sender.kills s)) (symbols v 8) /\
    IStream.buf (Sender.cin s1) = "010"%char :: rest2 /\
    Receiver.run (Receiver.main rpid) (Sender.delivered pid (Sender.since s s1)) =
      Receiver.Terminated 0
        (Receiver.mkState 8 v
           (("My PID is " ++ dec rpid ++ endl) ++ "Received " ++ dec v ++ endl)).
Proof.
  intros Hgood Hpid Hrange Hval Hv Hok.
  pose proof (read_pid_accepts kill_ret pid0 pid s rest1 Hgood Hpid Hrange (Hok _ _))
    as Hround1.
  destruct rest1 as [|c1 r1]; [exfalso; exact (numeral_nonempty _ _ _ Hval eq_refl)|].
  set (sa := Sender.mkState (IStream.mk (c1 :: r1) false false)
               (Sender.trace s ++
                  [Sender.Cout "Enter receiver PID: ";
                   Sender.Kill pid 0 (kill_ret (Sender.kills s) pid 0)])
               (S (Sender.kills s))) in *.
  pose proof (read_number_accepts number0 v sa rest2 eq_refl Hval Hv) as Hround2.
  set (s0 := Sender.mkState (IStream.mk ("010"%char :: rest2) false false)
               (Sender.trace sa ++ [Sender.Cout "Enter message: "])
               (Sender.kills sa)) in *.
  assert (Hloop1 : Sender.while1 (S fuel) (Sender.read_pid kill_ret) pid0 s =
                   Sender.Ret pid sa)
    by exact (while1_succ fuel _ pid0 pid Sender.Break s sa Hround1).
  assert (Hloop2 : Sender.while1 (S fuel) Sender.read_number number0 sa =
                   Sender.Ret v s0)
    by exact (while1_succ fuel _ number0 v Sender.Break sa s0 Hround2).
  pose proof (send_loop_ok kill_ret pid v 8 s0 (fun j _ => Hok _ _)) as Hsend.
  eexists. split.
  { rewrite (main_transmits kill_ret (S fuel) pid0 number0 pid v s sa s0 Hloop1 Hloop2).
    unfold Sender.bind. rewrite Hsend. reflexivity. }
  assert (Htr : Sender.since s
                  (Sender.mkState (Sender.cin s0)
                     (Sender.trace s0 ++
                        sent_events kill_ret pid (Sender.kills s0) (symbols v 8))
                     (Sender.kills s0 + 8)) =
                [Sender.Cout "Enter receiver PID: ";
                 Sender.Kill pid 0 (kill_ret (Sender.kills s) pid 0);
                 Sender.Cout "Enter message: "] ++
                sent_events kill_ret pid (S (Sender.kills s)) (symbols v 8)).
  { apply since_app. subst s0 sa. cbn [Sender.trace Sender.kills].
    rewrite <- !app_assoc. reflexivity. }
  rewrite Htr. split; [reflexivity|]. split; [reflexivity|].
  rewrite delivered_app. cbn [Sender.delivered Z.eqb negb andb].
  rewrite andb_false_r. cbn [app].
  rewrite delivered_sent_events;
    [| apply symbols_are_usr | intros j _; apply Hok].
  destruct (run_eight rpid (symbols v 8) (symbols_length v 8)) as (x & Hrun & Hinv).
  pose proof (prefix_inv_symbols v _ Hv Hinv) as Hx. simpl in Hx. subst x.
  exact Hrun.
Qed.

(** X7 on the single line "4242 169": both prompts are answered by it
    and the receiver prints [Received 169]. *)
Lemma transmission_from_text_witness :
  exists s1,
    Sender.main (fun _ _ _ => 0) 1 7 7 (Sender.start ("4242 169" ++ endl)) =
      Sender.Ret 0 s1 /\
    Sender.since (Sender.start ("4242 169" ++ endl)) s1 =
      [Sender.Cout "Enter receiver PID: "; Sender.Kill 4242 0 0;
       Sender.Cout "Enter message: "] ++
      sent_events (fun _ _ _ => 0) 4242 1
        [SIGUSR2; SIGUSR1; SIGUSR2; SIGUSR1; SIGUSR2; SIGUSR1; SIGUSR1; SIGUSR2] /\
    IStream.buf (Sender.cin s1) = list_ascii_of_string endl /\
    Receiver.run (Receiver.main 77)
      (Sender.delivered 4242 (Sender.since (Sender.start ("4242 169" ++ endl)) s1)) =
      Receiver.Terminated 0
        (Receiver.mkState 8 169 ("My PID is 77" ++ endl ++ "Received 169" ++ endl)).
Proof.
  apply (transmission_from_text (fun _ _ _ => 0) 0 7 7 4242 169 77
           (list_ascii_of_string (" 169" ++ endl)) []
           (Sender.start ("4242 169" ++ endl))).
  - reflexivity.
  - numeral_here (@nil ascii) (@nil ascii) (list_ascii_of_string "4242").
  - unfold IStream.INT_MAX. lia.
  - numeral_here [" "%char] (@nil ascii) (list_ascii_of_string "169").
  - lia.
  - intros n sig. discriminate.
Defined.

(** ** What a receiver holds after a transmission that was cut short *)

Lemma prefix_inv_firstn (v : Z) (k : nat) (st : Receiver.state) :
  0 <= v <= 255 -> (k <= 8)%nat ->
  Receiver.prefix_inv (firstn k (symbols v 8)) st ->
  Receiver.bit_count st = Z.of_nat k /\
  Receiver.result st = Z.shiftr v (8 - Z.of_nat k).
Proof.
  intros Hv Hk (Hc & Hr & Hlow & Hhigh).
  assert (Hlen : List.length (firstn k (symbols v 8)) = k)
    by (rewrite length_firstn, symbols_length; lia).
  rewrite Hlen in Hc, Hr, Hlow, Hhigh.
  split; [exact Hc|].
  apply Z.bits_inj'. intros j Hj.
  rewrite Z.shiftr_spec by exact Hj.
  destruct (Z_lt_le_dec j (Z.of_nat k)) as [Hlt|Hge].
  - replace j with (Z.of_nat (Z.to_nat j)) at 1 by lia.
    rewrite Hlow by lia.
    unfold Receiver.symbol. rewrite nth_error_firstn.
    replace (k - 1 - Z.to_nat j <? k)%nat with true
      by (symmetry; apply Nat.ltb_lt; lia).
    rewrite symbols_nth by lia.
    rewrite bit_of_signal_of_bit. f_equal. lia.
  - rewrite Hhigh by exact Hge.
    symmetry. apply testbit_above with 8; [|lia].
    change (2 ^ 8) with 256. lia.
Qed.

(** X8. A transmission cut short leaves the receiver half-way: when the
    call of [kill] for the symbol at index [k] is the first to fail, the
    sender's loop ends by [exit(1)], and a fresh receiver that got the
    signals handed over before is still suspended, has printed nothing
    but its PID line, has counted [k] symbols and holds the [k] leading
    bits of the value, [v >> (8 - k)]. *)
Theorem aborted_transmission_leaves_prefix (kill_ret : nat -> Z -> Z -> Z)
  (pid rpid v : Z) (s0 : Sender.state) (k : nat) :
  0 <= v <= 255 ->
  (k < 8)%nat ->
  (forall j, (j < k)%nat ->
     kill_ret (Sender.kills s0 + j)%nat pid (nth j (symbols v 8) 0) <> -1) ->
  kill_ret (Sender.kills s0 + k)%nat pid (nth k (symbols v 8) 0) = -1 ->
  exists s1,
    Sender.send_loop kill_ret pid v 8 s0 = Sender.Exit 1 s1 /\
    Receiver.run (Receiver.main rpid) (Sender.delivered pid (Sender.since s0 s1)) =
      Receiver.Paused
        (Receiver.mkState (Z.of_nat k) (Z.shiftr v (8 - Z.of_nat k))
           ("My PID is " ++ dec rpid ++ endl)).
Proof.
  intros Hv Hk Hok Hko.
  eexists. split; [exact (send_loop_fail kill_ret pid v 8 s0 k Hk Hok Hko)|].
  erewrite since_app by reflexivity.
  destruct (aborted_trace_facts kill_ret pid v (Sender.kills s0) 8 k Hk Hok)
    as (Hdel & _ & _).
  rewrite Hdel.
  destruct (run_prefix rpid (firstn k (symbols v 8))) as (st & Hrun & Hinv & Hout).
  { rewrite length_firstn, symbols_length. lia. }
  destruct (prefix_inv_firstn v k st Hv ltac:(lia) Hinv) as (Hc & Hr).
  rewrite Hrun. destruct st as [bc res out]. cbn in Hc, Hr, Hout. subst. reflexivity.
Qed.

(** X8 on the value 178 = 0b10110010 cut after 3 symbols: the receiver
    holds 0b101 = 5. *)
Lemma aborted_transmission_leaves_prefix_witness :
  exists s1,
    Sender.send_loop (fun n _ _ => if (n =? 3)%nat then -1 else 0) 4242 178 8
      (Sender.start "") = Sender.Exit 1 s1 /\
    Receiver.run (Receiver.main 77)
      (Sender.delivered 4242 (Sender.since (Sender.start "") s1)) =
      Receiver.Paused (Receiver.mkState 3 5 ("My PID is 77" ++ endl)).
Proof.
  apply (aborted_transmission_leaves_prefix
           (fun n _ _ => if (n =? 3)%nat then -1 else 0) 4242 77 178
           (Sender.start "") 3).
  - lia.
  - lia.
  - intros j Hj. destruct j as [|[|[|j]]]; try discriminate. lia.
  - reflexivity.
Defined.

(** ** The receiver tells histories apart *)

Lemma run_accumulator (pid : Z) (sigs : list Z) :
  (List.length sigs <= 8)%nat ->
  exists st,
    Receiver.prefix_inv sigs st /\
    Receiver.bit_count st = Receiver.bit_count (state_of (Receiver.run (Receiver.main pid) sigs)) /\
    Receiver.result st = Receiver.result (state_of (Receiver.run (Receiver.main pid) sigs)).
Proof.
  intros Hlen. destruct (Nat.eq_dec (List.length sigs) 8) as [H8|Hlt].
  - destruct (run_eight pid sigs H8) as (v & Hrun & Hinv).
    eexists. split; [exact Hinv|]. rewrite Hrun. split; reflexivity.
  - destruct (run_prefix pid sigs ltac:(lia)) as (st & Hrun & Hinv & _).
    exists st. split; [exact Hinv|]. rewrite Hrun. split; reflexivity.
Qed.

(** X9. The counter and the accumulator determine what was received:
    two histories of at most 8 signals, each SIGUSR1 or SIGUSR2, that
    leave the receiver with the same [bit_count] and the same [result]
    are the same history. So no two transmissions are reported as the
    same value, and a value is never reported for a history of another
    length. *)
Theorem receiver_state_determines_symbols (pid : Z) (sigs1 sigs2 : list Z) :
  (List.length sigs1 <= 8)%nat ->
  (List.length sigs2 <= 8)%nat ->
  Forall (fun sig => sig = SIGUSR1 \/ sig = SIGUSR2) sigs1 ->
  Forall (fun sig => sig = SIGUSR1 \/ sig = SIGUSR2) sigs2 ->
  Receiver.bit_count (state_of (Receiver.run (Receiver.main pid) sigs1)) =
  Receiver.bit_count (state_of (Receiver.run (Receiver.main pid) sigs2)) ->
  Receiver.result (state_of (Receiver.run (Receiver.main pid) sigs1)) =
  Receiver.result (state_of (Receiver.run (Receiver.main pid) sigs2)) ->
  sigs1 = sigs2.
Proof.
  intros Hl1 Hl2 Hu1 Hu2 Hbc Hres.
  destruct (run_accumulator pid sigs1 Hl1) as (st1 & (Hc1 & _ & Hlow1 & _) & Hb1 & Hr1).
  destruct (run_accumulator pid sigs2 Hl2) as (st2 & (Hc2 & _ & Hlow2 & _) & Hb2 & Hr2).
  assert (Hlen : List.length sigs1 = List.length sigs2) by lia.
  apply nth_error_ext. intros i.
  destruct (le_lt_dec (List.length sigs1) i) as [Hout|Hin].
  - rewrite (proj2 (nth_error_None sigs1 i) Hout).
    symmetry. apply nth_error_None. lia.
  - pose proof (Hlow1 (List.length sigs1 - 1 - i)%nat ltac:(lia)) as H1.
    pose proof (Hlow2 (List.length sigs2 - 1 - i)%nat ltac:(lia)) as H2.
    replace (List.length sigs1 - 1 - (List.length sigs1 - 1 - i))%nat with i in H1 by lia.
    replace (List.length sigs2 - 1 - (List.length sigs2 - 1 - i))%nat with i in H2 by lia.
    rewrite Hlen, Hr1, Hres, <- Hr2, H2 in H1.
    unfold Receiver.symbol in H1.
    destruct (nth_error sigs1 i) as [a|] eqn:Ha;
      [|apply nth_error_None in Ha; lia].
    destruct (nth_error sigs2 i) as [b|] eqn:Hb;
      [|apply nth_error_None in Hb; lia].
    apply nth_error_In in Ha. apply nth_error_In in Hb.
    rewrite Forall_forall in Hu1, Hu2.
    destruct (Hu1 a Ha) as [-> | ->], (Hu2 b Hb) as [-> | ->];
      (reflexivity || discriminate H1).
Qed.

(** X9 on the history 1, 0 met twice. *)
Lemma receiver_state_determines_symbols_witness :
  [SIGUSR2; SIGUSR1] = [SIGUSR2; SIGUSR1].
Proof.
  apply (receiver_state_determines_symbols 77 [SIGUSR2; SIGUSR1] [SIGUSR2; SIGUSR1]).
  - simpl. lia.
  - simpl. lia.
  - constructor; [right; reflexivity | constructor; [left; reflexivity | constructor]].
  - constructor; [right; reflexivity | constructor; [left; reflexivity | constructor]].
  - reflexivity.
  - reflexivity.
Defined.

(** * Further properties of the receiver under every schedule *)

(** X10. Preemption does not matter, order does: with SA_RESETHAND
    clear, whatever the schedule - however the arrivals fall between the
    loads and stores of the handler - if the signals were delivered in
    the order of the 8 symbols of a value [v] in [0,255], then as soon as
    no handler run is under way the process has exited with status 0
    after printing [Received v]. *)
Theorem in_order_delivery_round_trip (flags pid v : Z)
  (sch : list Signals.action) (k : Signals.process) (p : Receiver.proc) :
  Signals.has_flag flags Signals.SA_RESETHAND = false ->
  0 <= v <= 255 ->
  Signals.deliveries sch = symbols v 8 ->
  Signals.exec sch (Signals.main flags pid) = Some k ->
  Signals.view k = Some p ->
  p = Receiver.Terminated 0
        (Receiver.mkState 8 v
           (("My PID is " ++ dec pid ++ endl) ++ "Received " ++ dec v ++ endl)) /\
  Signals.stat k = Signals.Exited 0.
Proof.
  intros Hflag Hv Hdel Hexec Hview.
  pose proof (in_step_exec flags pid sch Hflag [] _ k
                (one_at_a_time_main flags pid) (in_step_main flags pid) Hexec) as Hin.
  cbn [app] in Hin. destruct Hin as (_ & _ & Hin). rewrite Hdel in Hin.
  destruct (run_eight pid (symbols v 8) (symbols_length v 8)) as (x & Hrun & Hinv).
  pose proof (prefix_inv_symbols v _ Hv Hinv) as Hx. simpl in Hx. subst x.
  rewrite Hrun in Hin. unfold Signals.view in Hview.
  destruct (Signals.stat k) as [|code|sig].
  - destruct (Signals.stack k); [discriminate Hin | discriminate Hview].
  - injection Hin as -> Hmem. injection Hview as <-. rewrite <- Hmem.
    split; reflexivity.
  - contradiction.
Qed.

(** X10 on the value 0, each signal handled before the next arrives. *)
Lemma in_order_delivery_round_trip_witness :
  exists k,
    Signals.exec (serve (symbols 0 8) 0) (Signals.main 0 4242) = Some k /\
    Signals.view k =
      Some (Receiver.Terminated 0
              (Receiver.mkState 8 0 ("My PID is 4242" ++ endl ++ "Received 0" ++ endl))) /\
    Signals.stat k = Signals.Exited 0.
Proof.
  assert (H : exists k p,
            Signals.exec (serve (symbols 0 8) 0) (Signals.main 0 4242) = Some k /\
            Signals.view k = Some p)
    by (do 2 eexists; vm_compute; split; reflexivity).
  destruct H as (k & p & Hexec & Hview).
  destruct (in_order_delivery_round_trip 0 4242 0 (serve (symbols 0 8) 0) k p
              eq_refl ltac:(lia) eq_refl Hexec Hview) as [Hp Hstat].
  exists k. split; [exact Hexec|]. split; [rewrite Hview, Hp; reflexivity | exact Hstat].
Defined.

Lemma swap_check_all (pid : Z) : forallb (swap_check pid) (seq 0 256) = true.
Proof. vm_compute. reflexivity. Qed.

(** X11. Two pending signals of different kinds can change places, and
    nothing shows it: for every value [v] in [0,255] whose two leading
    bits are 1, 0, there is a schedule (with [sa_flags] 0) in which the 8
    symbols of [v] arrive in order and none is coalesced - the first two
    are both pending before either is delivered, and SIGUSR1 is
    delivered before SIGUSR2 - at the end of which the receiver has
    exited with status 0 after printing [Received] followed by [v - 64],
    not [v]. *)
Theorem pending_pair_may_swap (pid v : Z) :
  0 <= v <= 255 ->
  Z.testbit v 7 = true ->
  Z.testbit v 6 = false ->
  Signals.arrivals (swapped_schedule v) = symbols v 8 /\
  Signals.coalesced (swapped_schedule v) (Signals.main 0 pid) = 0%nat /\
  exists k,
    Signals.exec (swapped_schedule v) (Signals.main 0 pid) = Some k /\
    Signals.view k =
      Some (Receiver.Terminated 0
              (Receiver.mkState 8 (v - 64)
                 (("My PID is " ++ dec pid ++ endl) ++
                  "Received " ++ dec (v - 64) ++ endl))) /\
    v - 64 <> v.
Proof.
  intros Hv H7 H6.
  pose proof (proj1 (forallb_forall _ _) (swap_check_all pid) (Z.to_nat v)) as Hcheck.
  specialize (Hcheck ltac:(apply in_seq; lia)).
  unfold swap_check in Hcheck. rewrite Z2Nat.id in Hcheck by lia.
  rewrite H7, H6 in Hcheck. cbn [negb andb] in Hcheck.
  apply andb_true_iff in Hcheck. destruct Hcheck as [Hcheck Hexec].
  apply andb_true_iff in Hcheck. destruct Hcheck as [Harr Hlost].
  destruct (list_eq_dec Z.eq_dec (Signals.arrivals (swapped_schedule v)) (symbols v 8))
    as [Harr'|]; [|discriminate Harr].
  apply Nat.eqb_eq in Hlost.
  split; [exact Harr'|]. split; [exact Hlost|].
  destruct (Signals.exec (swapped_schedule v) (Signals.main 0 pid)) as [k|] eqn:Hk;
    [|discriminate Hexec].
  destruct (Signals.stat k) as [|code|sig] eqn:Hstat; try discriminate Hexec.
  apply andb_true_iff in Hexec. destruct Hexec as [Hexec Hlen].
  apply andb_true_iff in Hexec. destruct Hexec as [Hcode Hres].
  apply Z.eqb_eq in Hcode. apply Z.eqb_eq in Hres. apply Nat.eqb_eq in Hlen. subst code.
  pose proof (in_step_exec 0 pid (swapped_schedule v) eq_refl [] _ k
                (one_at_a_time_main 0 pid) (in_step_main 0 pid) Hk) as Hin.
  cbn [app] in Hin. destruct Hin as (_ & _ & Hin). rewrite Hstat in Hin.
  destruct (run_eight pid _ Hlen) as (x & Hrun & _).
  rewrite Hrun in Hin. injection Hin as Hmem.
  exists k. split; [reflexivity|]. split; [|lia].
  unfold Signals.view. rewrite Hstat, <- Hmem.
  rewrite <- Hmem in Hres. cbn [Receiver.result] in Hres. subst x. reflexivity.
Qed.

(** X11 on the value 128 = 0b10000000, reported as 64. *)
Lemma pending_pair_may_swap_witness :
  exists k,
    Signals.exec (swapped_schedule 128) (Signals.main 0 4242) = Some k /\
    Signals.view k =
      Some (Receiver.Terminated 0
              (Receiver.mkState 8 64 ("My PID is 4242" ++ endl ++ "Received 64" ++ endl))).
Proof.
  destruct (pending_pair_may_swap 4242 128 ltac:(lia) eq_refl eq_refl)
    as (_ & _ & k & Hexec & Hview & _).
  exists k. split; [exact Hexec | exact Hview].
Defined.

(** * The phone book *)

(** ** C strings *)

Lemma chars_no_nul (s : list ascii) :
  Forall (fun c => Ascii.eqb c CString.NUL = false) (CString.chars s).
Proof.
  induction s as [|c s IH]; [constructor|].
  simpl. destruct (Ascii.eqb c CString.NUL) eqn:Hc; [constructor|].
  constructor; assumption.
Qed.

Lemma chars_id (s : list ascii) :
  Forall (fun c => Ascii.eqb c CString.NUL = false) s -> CString.chars s = s.
Proof.
  induction 1 as [|c s Hc _ IH]; [reflexivity|].
  simpl. rewrite Hc, IH. reflexivity.
Qed.

Lemma is_valid_name_chars (s : list ascii) :
  CString.is_valid_name s = forallb name_char (CString.chars s).
Proof.
  induction s as [|c s IH]; [reflexivity|].
  cbn [CString.is_valid_name CString.chars].
  destruct (Ascii.eqb c CString.NUL); [reflexivity|].
  cbn [forallb]. unfold name_char at 1.
  destruct (CString.isalpha c), (Ascii.eqb c " "), (Ascii.eqb c "'");
    cbn [negb andb orb]; (exact IH || reflexivity).
Qed.

Lemma is_valid_phone_chars (s : list ascii) :
  CString.is_valid_phone s = forallb phone_char (CString.chars s).
Proof.
  induction s as [|c s IH]; [reflexivity|].
  cbn [CString.is_valid_phone CString.chars].
  destruct (Ascii.eqb c CString.NUL); [reflexivity|].
  cbn [forallb]. unfold phone_char at 1.
  destruct (CString.isdigit c), (Ascii.eqb c "-");
    cbn [negb andb orb]; (exact IH || reflexivity).
Qed.

(** ** The name built from the arguments *)

Lemma firstn_firstn_app {A} (n : nat) (a b : list A) :
  firstn n (firstn n a ++ b) = firstn n (a ++ b).
Proof.
  revert a. induction n as [|n IH]; intros a; [reflexivity|].
  destruct a as [|x a]; [reflexivity|].
  cbn [firstn app]. f_equal. apply IH.
Qed.

Lemma firstn_exact {A} (a b : list A) : firstn (List.length a) (a ++ b) = a.
Proof.
  rewrite firstn_app, Nat.sub_diag, firstn_all. cbn [firstn]. apply app_nil_r.
Qed.

Lemma copy_part_spec (arg : list ascii) : forall name,
  (List.length name <= 255)%nat ->
  PB2add.copy_part arg name = firstn 255 (name ++ CString.chars arg).
Proof.
  induction arg as [|c arg IH]; intros name Hlen.
  - cbn [PB2add.copy_part CString.chars]. rewrite app_nil_r.
    symmetry. apply firstn_all2. exact Hlen.
  - cbn [PB2add.copy_part CString.chars].
    destruct (Ascii.eqb c CString.NUL).
    + rewrite app_nil_r. symmetry. apply firstn_all2. exact Hlen.
    + destruct (Nat.ltb_spec (List.length name) 255) as [Hlt|Hge].
      * rewrite IH by (rewrite length_app; cbn [List.length]; lia).
        rewrite <- app_assoc. reflexivity.
      * assert (H255 : List.length name = 255%nat) by lia.
        rewrite <- H255. symmetry. apply firstn_exact.
Qed.

Lemma firstn_length_le {A} (n : nat) (l : list A) : (List.length (firstn n l) <= n)%nat.
Proof. rewrite length_firstn. lia. Qed.

Lemma join_parts_spec (parts : list (list ascii)) : forall name,
  (List.length name <= 255)%nat ->
  PB2add.join_parts parts name =
    firstn 255 (name ++ spaced (map CString.chars parts)).
Proof.
  induction parts as [|arg rest IH]; intros name Hlen.
  - cbn [PB2add.join_parts map spaced]. rewrite app_nil_r.
    symmetry. apply firstn_all2. exact Hlen.
  - cbn [PB2add.join_parts]. rewrite (copy_part_spec arg name Hlen).
    destruct rest as [|arg' rest'].
    + reflexivity.
    + set (name1 := firstn 255 (name ++ CString.chars arg)).
      assert (H1 : (List.length name1 <= 255)%nat) by apply firstn_length_le.
      assert (Hsp : (if (List.length name1 <? 255)%nat
                     then name1 ++ [" "%char] else name1) =
                    firstn 255 (name1 ++ [" "%char])).
      { destruct (Nat.ltb_spec (List.length name1) 255) as [Hlt|Hge].
        - symmetry. apply firstn_all2. rewrite length_app. cbn [List.length]. lia.
        - assert (H255 : List.length name1 = 255%nat) by lia.
          rewrite <- H255. symmetry. apply firstn_exact. }
      rewrite Hsp.
      rewrite IH by apply firstn_length_le.
      rewrite firstn_firstn_app. unfold name1.
      rewrite <- app_assoc, firstn_firstn_app.
      cbn [map spaced]. rewrite <- !app_assoc. reflexivity.
Qed.

Lemma spaced_no_nul (parts : list (list ascii)) :
  Forall (fun c => Ascii.eqb c CString.NUL = false)
    (spaced (map CString.chars parts)).
Proof.
  induction parts as [|p rest IH]; [constructor|].
  destruct rest as [|q rest'].
  - cbn [map spaced]. apply chars_no_nul.
  - change (spaced (map CString.chars (p :: q :: rest')))
      with (CString.chars p ++ " "%char :: spaced (map CString.chars (q :: rest'))).
    apply Forall_app. split; [apply chars_no_nul|].
    constructor; [reflexivity | exact IH].
Qed.

(** X12. The name is the arguments joined and cut: the name [main]
    builds from [argv[1]] to [argv[argc - 2]] is these arguments with one
    space between them, cut after 255 characters - without a message
    when it is cut; it never holds more than 255 characters, so that the
    terminator is stored inside [name[256]]. *)
Theorem name_is_joined_and_cut (argv : list (list ascii)) :
  PB2add.name_of argv =
    firstn 255
      (spaced (map CString.chars (firstn (List.length argv - 2) (skipn 1 argv)))) /\
  (List.length (PB2add.name_of argv) <= 255)%nat /\
  CString.chars (PB2add.name_of argv) = PB2add.name_of argv.
Proof.
  unfold PB2add.name_of.
  rewrite (join_parts_spec _ [] (Nat.le_0_l 255)). cbn [app].
  split; [reflexivity|]. split; [apply firstn_length_le|].
  apply chars_id, Forall_firstn, spaced_no_nul.
Qed.

(** ** The entry put together in [buffer] *)

Lemma store_in (buffer : list ascii) : forall index c,
  (index < List.length buffer)%nat ->
  exists b',
    PB2add.store buffer index c = Some b' /\
    List.length b' = List.length buffer /\
    firstn (S index) b' = firstn index buffer ++ [c].
Proof.
  induction buffer as [|x buffer IH]; intros index c Hlt; [simpl in Hlt; lia|].
  destruct index as [|index].
  - eexists. split; [reflexivity|]. split; reflexivity.
  - destruct (IH index c ltac:(simpl in Hlt; lia)) as (b' & Hs & Hl & Hf).
    exists (x :: b'). cbn [PB2add.store]. rewrite Hs.
    split; [reflexivity|]. split; [simpl; f_equal; exact Hl|].
    change (x :: firstn (S index) b' = x :: (firstn index buffer ++ [c])).
    f_equal. exact Hf.
Qed.

Lemma store_out (buffer : list ascii) : forall index c,
  (List.length buffer <= index)%nat -> PB2add.store buffer index c = None.
Proof.
  induction buffer as [|x buffer IH]; intros index c Hle; [reflexivity|].
  destruct index as [|index]; [simpl in Hle; lia|].
  cbn [PB2add.store]. rewrite IH by (simpl in Hle; lia). reflexivity.
Qed.

Lemma firstn_of_longer {A} (n : nat) (l l' : list A) (x : A) :
  firstn (S n) l' = firstn n l ++ [x] -> (n <= List.length l)%nat ->
  firstn n l' = firstn n l.
Proof.
  intros H Hn.
  assert (Hcut : firstn n (firstn (S n) l') = firstn n l').
  { rewrite firstn_firstn. f_equal. lia. }
  rewrite <- Hcut, H.
  replace n with (List.length (firstn n l)) at 1 by (rewrite length_firstn; lia).
  apply firstn_exact.
Qed.

Lemma fill_in (src : list ascii) : forall buffer index,
  (index + List.length (CString.chars src) <= List.length buffer)%nat ->
  exists b',
    PB2add.fill src buffer index =
      Some (b', (index + List.length (CString.chars src))%nat) /\
    List.length b' = List.length buffer /\
    firstn (index + List.length (CString.chars src)) b' =
      firstn index buffer ++ CString.chars src.
Proof.
  induction src as [|c src IH]; intros buffer index Hle.
  - exists buffer. cbn [PB2add.fill CString.chars List.length].
    rewrite Nat.add_0_r, app_nil_r. repeat split.
  - cbn [PB2add.fill CString.chars] in *.
    destruct (Ascii.eqb c CString.NUL).
    + exists buffer. cbn [List.length]. rewrite Nat.add_0_r, app_nil_r. repeat split.
    + cbn [List.length] in *.
      destruct (store_in buffer index c ltac:(lia)) as (b1 & Hs & Hl & Hf).
      rewrite Hs.
      destruct (IH b1 (S index) ltac:(lia)) as (b' & Hfill & Hl' & Hf').
      exists b'.
      replace (index + S (List.length (CString.chars src)))%nat
        with (S index + List.length (CString.chars src))%nat by lia.
      split; [exact Hfill|]. split; [lia|].
      rewrite Hf', Hf, <- app_assoc. reflexivity.
Qed.

Lemma fill_out (src : list ascii) : forall buffer index,
  (index <= List.length buffer)%nat ->
  (List.length buffer < index + List.length (CString.chars src))%nat ->
  PB2add.fill src buffer index = None.
Proof.
  induction src as [|c src IH]; intros buffer index Hle Hlt.
  - cbn [CString.chars List.length] in Hlt. lia.
  - cbn [PB2add.fill CString.chars] in *.
    destruct (Ascii.eqb c CString.NUL).
    + cbn [List.length] in Hlt. lia.
    + cbn [List.length] in Hlt.
      destruct (Nat.eq_dec index (List.length buffer)) as [He|Hne].
      * rewrite store_out by lia. reflexivity.
      * destruct (store_in buffer index c ltac:(lia)) as (b1 & Hs & Hl & _).
        rewrite Hs. apply IH; lia.
Qed.

Lemma compose_spec (name phone buffer : list ascii) :
  List.length buffer = 512%nat ->
  PB2add.compose name phone buffer =
    if (List.length (CString.chars name) + List.length (CString.chars phone) <=? 509)%nat
    then Some (entry_line (CString.chars name) (CString.chars phone))
    else None.
Proof.
  intros H512. unfold PB2add.compose.
  set (ln := List.length (CString.chars name)).
  set (lp := List.length (CString.chars phone)).
  destruct (Nat.leb_spec (ln + lp) 509) as [Hfit|Hover].
  - destruct (fill_in name buffer 0 ltac:(fold ln; lia)) as (b1 & -> & Hl1 & Hf1).
    fold ln in Hf1. cbn [Nat.add firstn app] in Hf1 |- *. fold ln.
    destruct (store_in b1 ln ","%char ltac:(lia)) as (b2 & -> & Hl2 & Hf2).
    destruct (fill_in phone b2 (S ln) ltac:(fold lp; lia)) as (b3 & -> & Hl3 & Hf3).
    fold lp in Hf3 |- *.
    destruct (store_in b3 (S ln + lp) "010"%char ltac:(lia)) as (b4 & -> & Hl4 & Hf4).
    destruct (store_in b4 (S (S ln + lp)) CString.NUL ltac:(lia)) as (b5 & -> & Hl5 & Hf5).
    f_equal. change (firstn (S (S ln + lp)) b5 = entry_line (CString.chars name) (CString.chars phone)).
    rewrite (firstn_of_longer _ _ _ _ Hf5) by lia.
    rewrite Hf4, Hf3, Hf2, Hf1. unfold entry_line.
    rewrite <- !app_assoc. reflexivity.
  - destruct (Nat.le_gt_cases ln 512) as [H1|H1];
      [|rewrite (fill_out name buffer 0) by (fold ln; lia); reflexivity].
    destruct (fill_in name buffer 0 ltac:(fold ln; lia)) as (b1 & -> & Hl1 & _).
    cbn [Nat.add]. fold ln.
    destruct (Nat.eq_dec ln 512) as [H2|H2];
      [rewrite store_out by lia; reflexivity|].
    destruct (store_in b1 ln ","%char ltac:(lia)) as (b2 & -> & Hl2 & _).
    destruct (Nat.le_gt_cases (S ln + lp) 512) as [H3|H3];
      [|rewrite (fill_out phone b2 (S ln)) by (fold lp; lia); reflexivity].
    destruct (fill_in phone b2 (S ln) ltac:(fold lp; lia)) as (b3 & -> & Hl3 & _).
    fold lp.
    destruct (Nat.eq_dec (S ln + lp) 512) as [H4|H4];
      [rewrite store_out by lia; reflexivity|].
    destruct (store_in b3 (S ln + lp) "010"%char ltac:(lia)) as (b4 & -> & Hl4 & _).
    rewrite store_out by lia. reflexivity.
Qed.

Lemma name_of_no_nul (argv : list (list ascii)) :
  CString.chars (PB2add.name_of argv) = PB2add.name_of argv /\
  (List.length (PB2add.name_of argv) <= 255)%nat.
Proof.
  unfold PB2add.name_of.
  rewrite (join_parts_spec _ [] (Nat.le_0_l 255)). cbn [app].
  split; [|apply firstn_length_le].
  apply chars_id, Forall_firstn, spaced_no_nul.
Qed.

(** What [main] does, case by case. *)
Lemma main_table (argv : list (list ascii)) (garbage : nat -> ascii) (fd : Z) :
  PB2add.main argv garbage fd =
    let name := PB2add.name_of argv in
    let phone := CString.chars (PB2add.phone_of argv) in
    let opened := PB2add.Open "phonebook.txt" PB2add.open_flags PB2add.open_mode fd in
    if (List.length argv <? 3)%nat then PB2add.Returned 1 PB2add.usage
    else if negb (CString.is_valid_name name)
    then PB2add.Returned 1
           [PB2add.Cerr ("invalid name: Name must contain letters or spaces only" ++ endl)]
    else if negb (CString.is_valid_phone (PB2add.phone_of argv))
    then PB2add.Returned 1
           [PB2add.Cerr
              ("invalid phone: Phone number must contain digits or hyphens only" ++ endl)]
    else if fd <? 0
    then PB2add.Returned 1
           [opened; PB2add.Cerr ("Error: failed to open the file" ++ endl)]
    else if (List.length name + List.length phone <=? 509)%nat
    then PB2add.Returned 0
           [opened; PB2add.Write fd (entry_line name phone); PB2add.Close fd;
            PB2add.Cout ("Added successfully to phonebook!" ++ endl)]
    else PB2add.OutOfBounds [opened].
Proof.
  unfold PB2add.main. cbv zeta.
  rewrite compose_spec by (rewrite length_map, length_seq; reflexivity).
  destruct (name_of_no_nul argv) as [-> _].
  destruct (List.length argv <? 3)%nat; [reflexivity|].
  destruct (negb (CString.is_valid_name (PB2add.name_of argv))); [reflexivity|].
  destruct (negb (CString.is_valid_phone (PB2add.phone_of argv))); [reflexivity|].
  destruct (fd <? 0); [reflexivity|].
  destruct (List.length (PB2add.name_of argv) +
            List.length (CString.chars (PB2add.phone_of argv)) <=? 509)%nat;
    reflexivity.
Qed.

Lemma occurrences_app (c : ascii) (a b : list ascii) :
  occurrences c (a ++ b) = (occurrences c a + occurrences c b)%nat.
Proof. unfold occurrences. rewrite filter_app, length_app. reflexivity. Qed.

Lemma occurrences_none (P : ascii -> bool) (c : ascii) (l : list ascii) :
  P c = false -> forallb P l = true -> occurrences c l = 0%nat.
Proof.
  intros Hc. unfold occurrences.
  induction l as [|x l IH]; [reflexivity|].
  cbn [forallb filter]. intros H. apply andb_prop in H. destruct H as [Hx Hl].
  destruct (Ascii.eqb_spec c x) as [->|_]; [congruence|]. apply IH, Hl.
Qed.

(** X13. An accepted entry is one well-formed line: with at least two
    arguments after the program's name, a name of letters, spaces and
    apostrophes, a phone number of digits and hyphens, a file that opens
    and an entry that fits the buffer, [main] opens [phonebook.txt] for
    appending, writes the name, a comma, the phone number and a newline
    in one [write] whatever [buffer] held before, closes the file,
    reports success and returns 0; the line holds exactly one comma and
    exactly one newline, so that a reader can split it again. *)
Theorem entry_is_appended (argv : list (list ascii)) (garbage : nat -> ascii) (fd : Z) :
  (3 <= List.length argv)%nat ->
  CString.is_valid_name (PB2add.name_of argv) = true ->
  CString.is_valid_phone (PB2add.phone_of argv) = true ->
  0 <= fd ->
  (List.length (PB2add.name_of argv) +
   List.length (CString.chars (PB2add.phone_of argv)) <= 509)%nat ->
  let line :=
    PB2add.name_of argv ++ ","%char :: CString.chars (PB2add.phone_of argv) ++ ["010"%char] in
  PB2add.main argv garbage fd =
    PB2add.Returned 0
      [PB2add.Open "phonebook.txt" PB2add.open_flags PB2add.open_mode fd;
       PB2add.Write fd line; PB2add.Close fd;
       PB2add.Cout ("Added successfully to phonebook!" ++ endl)] /\
  occurrences ","%char line = 1%nat /\
  occurrences "010"%char line = 1%nat.
Proof.
  intros Hargc Hname Hphone Hfd Hfit line.
  split.
  - rewrite main_table. cbv zeta.
    destruct (Nat.ltb_spec (List.length argv) 3) as [?|_]; [lia|].
    rewrite Hname, Hphone. cbn [negb].
    destruct (Z.ltb_spec fd 0) as [?|_]; [lia|].
    destruct (Nat.leb_spec (List.length (PB2add.name_of argv) +
                            List.length (CString.chars (PB2add.phone_of argv))) 509)
      as [_|?]; [|lia].
    reflexivity.
  - rewrite is_valid_name_chars in Hname. rewrite is_valid_phone_chars in Hphone.
    destruct (name_of_no_nul argv) as [Hid _]. rewrite Hid in Hname.
    unfold line.
    change ("," :: CString.chars (PB2add.phone_of argv) ++ ["010"])%char
      with (([","] ++ CString.chars (PB2add.phone_of argv)) ++ ["010"])%char.
    rewrite !occurrences_app.
    rewrite (occurrences_none name_char ","%char _ eq_refl Hname).
    rewrite (occurrences_none name_char "010"%char _ eq_refl Hname).
    rewrite (occurrences_none phone_char ","%char _ eq_refl Hphone).
    rewrite (occurrences_none phone_char "010"%char _ eq_refl Hphone).
    split; reflexivity.
Qed.

(** X13 on [./PB2add Nezer Zaidenberg 054-5531415]. *)
Lemma entry_is_appended_witness :
  PB2add.main
    [list_ascii_of_string "./PB2add"; list_ascii_of_string "Nezer";
     list_ascii_of_string "Zaidenberg"; list_ascii_of_string "054-5531415"]
    (fun _ => "?"%char) 3 =
  PB2add.Returned 0
    [PB2add.Open "phonebook.txt" PB2add.open_flags PB2add.open_mode 3;
     PB2add.Write 3 (list_ascii_of_string ("Nezer Zaidenberg,054-5531415" ++ endl));
     PB2add.Close 3;
     PB2add.Cout ("Added successfully to phonebook!" ++ endl)].
Proof.
  refine (proj1 (entry_is_appended
    [list_ascii_of_string "./PB2add"; list_ascii_of_string "Nezer";
     list_ascii_of_string "Zaidenberg"; list_ascii_of_string "054-5531415"]
    (fun _ => "?"%char) 3 _ _ _ _ _)).
  - vm_compute. lia.
  - vm_compute. reflexivity.
  - vm_compute. reflexivity.
  - lia.
  - vm_compute. lia.
Defined.

(** X14. The buffer is overrun exactly by a long phone number: [main]
    stores beyond the end of [buffer[512]] exactly when the arguments
    are accepted, the file opens and the name and the phone number hold
    more than 509 characters together; the file has then been opened
    (and created), and nothing was written or closed.  As the name holds
    at most 255 characters, this needs a phone number of 255 characters
    or more. *)
Theorem buffer_overrun_exactly (argv : list (list ascii)) (garbage : nat -> ascii)
    (fd : Z) (tr : list PB2add.event) :
  (PB2add.main argv garbage fd = PB2add.OutOfBounds tr <->
   (3 <= List.length argv)%nat /\
   CString.is_valid_name (PB2add.name_of argv) = true /\
   CString.is_valid_phone (PB2add.phone_of argv) = true /\
   0 <= fd /\
   (509 < List.length (PB2add.name_of argv) +
          List.length (CString.chars (PB2add.phone_of argv)))%nat /\
   tr = [PB2add.Open "phonebook.txt" PB2add.open_flags PB2add.open_mode fd]) /\
  ((List.length (CString.chars (PB2add.phone_of argv)) <= 254)%nat ->
   PB2add.main argv garbage fd <> PB2add.OutOfBounds tr).
Proof.
  assert (Hiff :
    PB2add.main argv garbage fd = PB2add.OutOfBounds tr <->
    (3 <= List.length argv)%nat /\
    CString.is_valid_name (PB2add.name_of argv) = true /\
    CString.is_valid_phone (PB2add.phone_of argv) = true /\
    0 <= fd /\
    (509 < List.length (PB2add.name_of argv) +
           List.length (CString.chars (PB2add.phone_of argv)))%nat /\
    tr = [PB2add.Open "phonebook.txt" PB2add.open_flags PB2add.open_mode fd]).
  { rewrite main_table. cbv zeta.
    destruct (Nat.ltb_spec (List.length argv) 3) as [Ha|Ha];
      [split; [discriminate | intros (? & _); lia]|].
    destruct (CString.is_valid_name (PB2add.name_of argv));
      [|split; [discriminate | intros (_ & ? & _); discriminate]].
    destruct (CString.is_valid_phone (PB2add.phone_of argv));
      [|split; [discriminate | intros (_ & _ & ? & _); discriminate]].
    cbn [negb].
    destruct (Z.ltb_spec fd 0) as [Hf|Hf];
      [split; [discriminate | intros (_ & _ & _ & ? & _); lia]|].
    destruct (Nat.leb_spec (List.length (PB2add.name_of argv) +
                            List.length (CString.chars (PB2add.phone_of argv))) 509)
      as [Hl|Hl]; [split; [discriminate | intros (_ & _ & _ & _ & ? & _); lia]|].
    split.
    - intros H. injection H as <-. repeat split; assumption.
    - intros (_ & _ & _ & _ & _ & ->). reflexivity. }
  split; [exact Hiff|].
  intros Hshort H. apply Hiff in H. destruct H as (_ & _ & _ & _ & Hlong & _).
  destruct (name_of_no_nul argv) as [_ Hn]. lia.
Qed.

(** X14 on a one-letter name and a phone number of 509 digits. *)
Lemma buffer_overrun_exactly_witness :
  PB2add.main
    [list_ascii_of_string "./PB2add"; ["a"%char]; repeat "1"%char 509]
    (fun _ => "?"%char) 3 =
  PB2add.OutOfBounds
    [PB2add.Open "phonebook.txt" PB2add.open_flags PB2add.open_mode 3].
Proof.
  apply (proj2 (proj1 (buffer_overrun_exactly
    [list_ascii_of_string "./PB2add"; ["a"%char]; repeat "1"%char 509]
    (fun _ => "?"%char) 3
    [PB2add.Open "phonebook.txt" PB2add.open_flags PB2add.open_mode 3]))).
  split; [vm_compute; lia|].
  split; [vm_compute; reflexivity|].
  split; [vm_compute; reflexivity|].
  split; [lia|].
  split; [vm_compute; lia | reflexivity].
Defined.



(** ** The pipeline of [findPhone] *)

Lemma distinct_six (a b c d e f : Z) :
  NoDup [a; b; c; d; e; f] ->
  a <> b /\ a <> c /\ a <> d /\ a <> e /\ a <> f /\
  b <> c /\ b <> d /\ b <> e /\ b <> f /\
  c <> d /\ c <> e /\ c <> f /\
  d <> e /\ d <> f /\ e <> f.
Proof.
  intros H.
  repeat match goal with
         | H : NoDup (_ :: _) |- _ => inversion H; subst; clear H
         end.
  cbn [In] in *. intuition congruence.
Qed.

Lemma above_six (a b c d e f : Z) :
  Forall (fun fd => 2 < fd) [a; b; c; d; e; f] ->
  2 < a /\ 2 < b /\ 2 < c /\ 2 < d /\ 2 < e /\ 2 < f.
Proof.
  intros H.
  repeat match goal with
         | H : Forall _ (_ :: _) |- _ => inversion H; subst; clear H
         end.
  repeat split; assumption.
Qed.

Lemma assign_same (t : fdtable) (fd : Z) (f : option file) : assign t fd f fd = f.
Proof. unfold assign. rewrite Z.eqb_refl. reflexivity. Qed.

Lemma assign_other (t : fdtable) (fd fd' : Z) (f : option file) :
  fd' <> fd -> assign t fd f fd' = t fd'.
Proof. intros H. unfold assign. destruct (Z.eqb_spec fd' fd); [contradiction|reflexivity]. Qed.

Lemma standard_other (fd : Z) : fd <> 0 -> fd <> 1 -> fd <> 2 -> standard fd = None.
Proof.
  intros H0 H1 H2. unfold standard.
  destruct (Z.eqb_spec fd 0); [contradiction|].
  destruct (Z.eqb_spec fd 1); [contradiction|].
  destruct (Z.eqb_spec fd 2); [contradiction|reflexivity].
Qed.

Lemma wired_other (i o : file) (fd : Z) :
  fd <> 0 -> fd <> 1 -> fd <> 2 -> wired i o fd = None.
Proof.
  intros H0 H1 H2. unfold wired.
  destruct (Z.eqb_spec fd 0); [contradiction|].
  destruct (Z.eqb_spec fd 1); [contradiction|].
  destruct (Z.eqb_spec fd 2); [contradiction|reflexivity].
Qed.

(** X16. Every stage of the pipeline is wired to its neighbours and to
    nothing else: in the child that the call number [k] of [fork]
    starts, when the three pipes were made on six fresh descriptors,
    [main] ends in the [execlp] of stage [k] - [grep] of the name in
    [phonebook.txt], [sed s/ /#/g], [sed s/,/ /], [awk {print $2}] - and
    at that point descriptor 0 refers to the read end of the pipe before
    the stage (the standard input for [grep]), descriptor 1 to the write
    end of the pipe after it (the standard output for [awk]), descriptor
    2 to the standard error, and no other descriptor is open: no stage
    holds a pipe end that would keep a reader from seeing the end of its
    input. *)
Theorem stage_is_wired (argv : list (list ascii)) (pipe_ret : nat -> option (Z * Z))
    (fork_ret : nat -> Z) (k : nat) (r1 w1 r2 w2 r3 w3 : Z) :
  (2 <= List.length argv)%nat ->
  CString.is_valid_name (nth 1 argv []) = true ->
  pipe_ret 0%nat = Some (r1, w1) ->
  pipe_ret 1%nat = Some (r2, w2) ->
  pipe_ret 2%nat = Some (r3, w3) ->
  NoDup [r1; w1; r2; w2; r3; w3] ->
  Forall (fun fd => 2 < fd) [r1; w1; r2; w2; r3; w3] ->
  (k < 4)%nat ->
  (forall i, (i < k)%nat -> fork_ret i <> -1 /\ fork_ret i <> 0) ->
  fork_ret k = 0 ->
  exists tr,
    FindPhone.main argv pipe_ret fork_ret true =
      FindPhone.Replaced
        (tr ++ [FindPhone.Execlp (fst (command (nth 1 argv []) k))
                                 (snd (command (nth 1 argv []) k))]) /\
    forallb (fun e => negb (is_exec e)) tr = true /\
    forall fd, descriptors tr fd = wired (input_of k) (output_of k) fd.
Proof.
  intros Hargc Hname Hp1 Hp2 Hp3 Hdis Habove Hk Hparents Hchild.
  apply distinct_six in Hdis. apply above_six in Habove.
  destruct Hdis as (D1 & D2 & D3 & D4 & D5 & D6 & D7 & D8 & D9 & D10 & D11 & D12 &
                    D13 & D14 & D15).
  destruct Habove as (A1 & A2 & A3 & A4 & A5 & A6).
  unfold FindPhone.main.
  assert (Hlt : (List.length argv <? 2)%nat = false) by (apply Nat.ltb_ge; exact Hargc).
    rewrite Hlt.
  rewrite Hname, Hp1, Hp2, Hp3. cbn [negb]. cbv zeta.
  unfold FindPhone.exec_or_die, FindPhone.close_pipes,
    FindPhone.STDIN_FILENO, FindPhone.STDOUT_FILENO, FindPhone.c_str.
  cbn [fst snd]. cbv zeta.
  destruct k as [|[|[|[|k]]]]; [| | | |lia].
  - rewrite Hchild. cbn [Z.eqb].
    eexists. split; [reflexivity|]. split; [reflexivity|].
    intros fd. unfold descriptors, input_of, output_of.
    cbn [app descriptors_from Nat.ltb Nat.leb].
    read_table assign_same assign_other.
    whether fd 0; [read_table assign_same assign_other; reflexivity|].
    whether fd 1; [read_table assign_same assign_other; reflexivity|].
    whether fd 2; [read_table assign_same assign_other; reflexivity|].
    rewrite (wired_other _ _ fd) by assumption.
    whether fd w3; [read_table assign_same assign_other; reflexivity|].
    whether fd r3; [read_table assign_same assign_other; reflexivity|].
    whether fd w2; [read_table assign_same assign_other; reflexivity|].
    whether fd r2; [read_table assign_same assign_other; reflexivity|].
    whether fd w1; [read_table assign_same assign_other; reflexivity|].
    whether fd r1; [read_table assign_same assign_other; reflexivity|].
    read_table assign_same assign_other. apply standard_other; assumption.
  - destruct (Hparents 0%nat ltac:(lia)) as [Ha0 Hb0].
    destruct (Z.eqb_spec (fork_ret 0%nat) (-1)) as [?|_]; [contradiction|].
    destruct (Z.eqb_spec (fork_ret 0%nat) 0) as [?|_]; [contradiction|].
    rewrite Hchild. cbn [Z.eqb].
    eexists. split; [reflexivity|]. split; [reflexivity|].
    intros fd. unfold descriptors, input_of, output_of.
    cbn [app descriptors_from Nat.ltb Nat.leb].
    read_table assign_same assign_other.
    whether fd 0; [read_table assign_same assign_other; reflexivity|].
    whether fd 1; [read_table assign_same assign_other; reflexivity|].
    whether fd 2; [read_table assign_same assign_other; reflexivity|].
    rewrite (wired_other _ _ fd) by assumption.
    whether fd w3; [read_table assign_same assign_other; reflexivity|].
    whether fd r3; [read_table assign_same assign_other; reflexivity|].
    whether fd w2; [read_table assign_same assign_other; reflexivity|].
    whether fd r2; [read_table assign_same assign_other; reflexivity|].
    whether fd w1; [read_table assign_same assign_other; reflexivity|].
    whether fd r1; [read_table assign_same assign_other; reflexivity|].
    read_table assign_same assign_other. apply standard_other; assumption.
  - destruct (Hparents 0%nat ltac:(lia)) as [Ha0 Hb0].
    destruct (Hparents 1%nat ltac:(lia)) as [Ha1 Hb1].
    destruct (Z.eqb_spec (fork_ret 0%nat) (-1)) as [?|_]; [contradiction|].
    destruct (Z.eqb_spec (fork_ret 0%nat) 0) as [?|_]; [contradiction|].
    destruct (Z.eqb_spec (fork_ret 1%nat) (-1)) as [?|_]; [contradiction|].
    destruct (Z.eqb_spec (fork_ret 1%nat) 0) as [?|_]; [contradiction|].
    rewrite Hchild. cbn [Z.eqb].
    eexists. split; [reflexivity|]. split; [reflexivity|].
    intros fd. unfold descriptors, input_of, output_of.
    cbn [app descriptors_from Nat.ltb Nat.leb].
    read_table assign_same assign_other.
    whether fd 0; [read_table assign_same assign_other; reflexivity|].
    whether fd 1; [read_table assign_same assign_other; reflexivity|].
    whether fd 2; [read_table assign_same assign_other; reflexivity|].
    rewrite (wired_other _ _ fd) by assumption.
    whether fd w3; [read_table assign_same assign_other; reflexivity|].
    whether fd r3; [read_table assign_same assign_other; reflexivity|].
    whether fd w2; [read_table assign_same assign_other; reflexivity|].
    whether fd r2; [read_table assign_same assign_other; reflexivity|].
    whether fd w1; [read_table assign_same assign_other; reflexivity|].
    whether fd r1; [read_table assign_same assign_other; reflexivity|].
    read_table assign_same assign_other. apply standard_other; assumption.
  - destruct (Hparents 0%nat ltac:(lia)) as [Ha0 Hb0].
    destruct (Hparents 1%nat ltac:(lia)) as [Ha1 Hb1].
    destruct (Hparents 2%nat ltac:(lia)) as [Ha2 Hb2].
    destruct (Z.eqb_spec (fork_ret 0%nat) (-1)) as [?|_]; [contradiction|].
    destruct (Z.eqb_spec (fork_ret 0%nat) 0) as [?|_]; [contradiction|].
    destruct (Z.eqb_spec (fork_ret 1%nat) (-1)) as [?|_]; [contradiction|].
    destruct (Z.eqb_spec (fork_ret 1%nat) 0) as [?|_]; [contradiction|].
    destruct (Z.eqb_spec (fork_ret 2%nat) (-1)) as [?|_]; [contradiction|].
    destruct (Z.eqb_spec (fork_ret 2%nat) 0) as [?|_]; [contradiction|].
    rewrite Hchild. cbn [Z.eqb].
    eexists. split; [reflexivity|]. split; [reflexivity|].
    intros fd. unfold descriptors, input_of, output_of.
    cbn [app descriptors_from Nat.ltb Nat.leb].
    read_table assign_same assign_other.
    whether fd 0; [read_table assign_same assign_other; reflexivity|].
    whether fd 1; [read_table assign_same assign_other; reflexivity|].
    whether fd 2; [read_table assign_same assign_other; reflexivity|].
    rewrite (wired_other _ _ fd) by assumption.
    whether fd w3; [read_table assign_same assign_other; reflexivity|].
    whether fd r3; [read_table assign_same assign_other; reflexivity|].
    whether fd w2; [read_table assign_same assign_other; reflexivity|].
    whether fd r2; [read_table assign_same assign_other; reflexivity|].
    whether fd w1; [read_table assign_same assign_other; reflexivity|].
    whether fd r1; [read_table assign_same assign_other; reflexivity|].
    read_table assign_same assign_other. apply standard_other; assumption.
Qed.

(** X16 on the third stage, with the pipes on the descriptors 3 to 8. *)
Lemma stage_is_wired_witness :
  exists tr,
    FindPhone.main
      [list_ascii_of_string "./findPhone"; list_ascii_of_string "Nezer"]
      (fun n => Some (3 + 2 * Z.of_nat n, 4 + 2 * Z.of_nat n))
      (fun i => if (i <? 2)%nat then 100 + Z.of_nat i else 0) true =
      FindPhone.Replaced
        (tr ++ [FindPhone.Execlp "sed"
                  [list_ascii_of_string "sed"; list_ascii_of_string "s/,/ /"]]) /\
    forallb (fun e => negb (is_exec e)) tr = true /\
    forall fd, descriptors tr fd = wired (PipeRead 1) (PipeWrite 2) fd.
Proof.
  apply (stage_is_wired
    [list_ascii_of_string "./findPhone"; list_ascii_of_string "Nezer"]
    (fun n => Some (3 + 2 * Z.of_nat n, 4 + 2 * Z.of_nat n))
    (fun i => if (i <? 2)%nat then 100 + Z.of_nat i else 0)
    2%nat 3 4 5 6 7 8).
  - cbn [List.length]. lia.
  - vm_compute. reflexivity.
  - reflexivity.
  - reflexivity.
  - reflexivity.
  - repeat constructor; cbn [In]; intuition discriminate.
  - repeat constructor.
  - lia.
  - intros [|[|i]] Hi; [split; discriminate | split; discriminate | lia].
  - reflexivity.
Defined.

(** X17. The parent closes every pipe end before it waits: in the
    process to which all four calls of [fork] report a child, when the
    three pipes were made on six fresh descriptors, [main] returns 0
    after waiting for the four children in the order in which they were
    started, and when it begins to wait its descriptors are the three
    standard ones it started with - it holds no write end that would keep
    a stage from seeing the end of its input - and it has run no
    program. *)
Theorem parent_closes_then_waits (argv : list (list ascii))
    (pipe_ret : nat -> option (Z * Z)) (fork_ret : nat -> Z) (exec_ok : bool)
    (r1 w1 r2 w2 r3 w3 : Z) :
  (2 <= List.length argv)%nat ->
  CString.is_valid_name (nth 1 argv []) = true ->
  pipe_ret 0%nat = Some (r1, w1) ->
  pipe_ret 1%nat = Some (r2, w2) ->
  pipe_ret 2%nat = Some (r3, w3) ->
  NoDup [r1; w1; r2; w2; r3; w3] ->
  Forall (fun fd => 2 < fd) [r1; w1; r2; w2; r3; w3] ->
  (forall i, (i < 4)%nat -> fork_ret i <> -1 /\ fork_ret i <> 0) ->
  exists before,
    FindPhone.main argv pipe_ret fork_ret exec_ok =
      FindPhone.Returned 0
        (before ++
         FindPhone.Cout ("The phone number/s: " ++ endl)
         :: map FindPhone.Waitpid (map fork_ret (seq 0 4))
         ++ [FindPhone.Cout ("The program has finished " ++ endl)]) /\
    children before = map fork_ret (seq 0 4) /\
    forallb (fun e => negb (is_exec e) && negb (is_wait e)) before = true /\
    forall fd, descriptors before fd = standard fd.
Proof.
  intros Hargc Hname Hp1 Hp2 Hp3 Hdis Habove Hparents.
  apply distinct_six in Hdis. apply above_six in Habove.
  destruct Hdis as (D1 & D2 & D3 & D4 & D5 & D6 & D7 & D8 & D9 & D10 & D11 & D12 &
                    D13 & D14 & D15).
  destruct Habove as (A1 & A2 & A3 & A4 & A5 & A6).
  destruct (Hparents 0%nat ltac:(lia)) as [Ha0 Hb0].
  destruct (Hparents 1%nat ltac:(lia)) as [Ha1 Hb1].
  destruct (Hparents 2%nat ltac:(lia)) as [Ha2 Hb2].
  destruct (Hparents 3%nat ltac:(lia)) as [Ha3 Hb3].
  apply Z.eqb_neq in Ha0, Hb0, Ha1, Hb1, Ha2, Hb2, Ha3, Hb3.
  exists
    [FindPhone.Cout ("Notice:the program use the first name only (argv[1]) " ++ endl);
     FindPhone.Pipe (Some (r1, w1)); FindPhone.Pipe (Some (r2, w2));
     FindPhone.Pipe (Some (r3, w3));
     FindPhone.Fork (fork_ret 0%nat); FindPhone.Fork (fork_ret 1%nat);
     FindPhone.Fork (fork_ret 2%nat); FindPhone.Fork (fork_ret 3%nat);
     FindPhone.Close r1; FindPhone.Close w1; FindPhone.Close r2; FindPhone.Close w2;
     FindPhone.Close r3; FindPhone.Close w3].
  split; [|split; [|split]].
  - unfold FindPhone.main.
    assert (Hlt : (List.length argv <? 2)%nat = false) by (apply Nat.ltb_ge; exact Hargc).
    rewrite Hlt.
    rewrite Hname, Hp1, Hp2, Hp3. cbn [negb]. cbv zeta.
    rewrite Ha0, Hb0, Ha1, Hb1, Ha2, Hb2, Ha3, Hb3.
    unfold FindPhone.close_pipes. cbn [fst snd]. reflexivity.
  - cbn [children]. rewrite Ha0, Hb0, Ha1, Hb1, Ha2, Hb2, Ha3, Hb3. reflexivity.
  - reflexivity.
  - intros fd. unfold descriptors. cbn [descriptors_from].
    whether fd 0; [read_table assign_same assign_other; reflexivity|].
    whether fd 1; [read_table assign_same assign_other; reflexivity|].
    whether fd 2; [read_table assign_same assign_other; reflexivity|].
    rewrite (standard_other fd) by assumption.
    whether fd w3; [read_table assign_same assign_other; reflexivity|].
    whether fd r3; [read_table assign_same assign_other; reflexivity|].
    whether fd w2; [read_table assign_same assign_other; reflexivity|].
    whether fd r2; [read_table assign_same assign_other; reflexivity|].
    whether fd w1; [read_table assign_same assign_other; reflexivity|].
    whether fd r1; [read_table assign_same assign_other; reflexivity|].
    read_table assign_same assign_other. apply standard_other; assumption.
Qed.

(** X17 with the pipes on the descriptors 3 to 8 and the children 100 to
    103. *)
Lemma parent_closes_then_waits_witness :
  exists before,
    FindPhone.main
      [list_ascii_of_string "./findPhone"; list_ascii_of_string "Nezer"]
      (fun n => Some (3 + 2 * Z.of_nat n, 4 + 2 * Z.of_nat n))
      (fun i => 100 + Z.of_nat i) true =
      FindPhone.Returned 0
        (before ++
         FindPhone.Cout ("The phone number/s: " ++ endl)
         :: map FindPhone.Waitpid (map (fun i => 100 + Z.of_nat i) (seq 0 4))
         ++ [FindPhone.Cout ("The program has finished " ++ endl)]) /\
    children before = map (fun i => 100 + Z.of_nat i) (seq 0 4) /\
    forallb (fun e => negb (is_exec e) && negb (is_wait e)) before = true /\
    forall fd, descriptors before fd = standard fd.
Proof.
  apply (parent_closes_then_waits
    [list_ascii_of_string "./findPhone"; list_ascii_of_string "Nezer"]
    (fun n => Some (3 + 2 * Z.of_nat n, 4 + 2 * Z.of_nat n))
    (fun i => 100 + Z.of_nat i) true 3 4 5 6 7 8).
  - cbn [List.length]. lia.
  - vm_compute. reflexivity.
  - reflexivity.
  - reflexivity.
  - reflexivity.
  - repeat constructor; cbn [In]; intuition discriminate.
  - repeat constructor.
  - intros i Hi. split; lia.
Defined.

(** X18. A failed [fork] leaves the earlier children behind: when the
    call number [k] of [fork] fails after the earlier ones gave
    children, [main] reports it and returns 1 at once; the [k] children
    already started are not waited for, and none of the six pipe ends is
    closed before the process ends. *)
Theorem failed_fork_abandons_children (argv : list (list ascii))
    (pipe_ret : nat -> option (Z * Z)) (fork_ret : nat -> Z) (exec_ok : bool)
    (k : nat) (pipe1 pipe2 pipe3 : Z * Z) :
  (2 <= List.length argv)%nat ->
  CString.is_valid_name (nth 1 argv []) = true ->
  pipe_ret 0%nat = Some pipe1 ->
  pipe_ret 1%nat = Some pipe2 ->
  pipe_ret 2%nat = Some pipe3 ->
  (k < 4)%nat ->
  (forall i, (i < k)%nat -> fork_ret i <> -1 /\ fork_ret i <> 0) ->
  fork_ret k = -1 ->
  exists tr msg,
    FindPhone.main argv pipe_ret fork_ret exec_ok =
      FindPhone.Returned 1 (tr ++ [FindPhone.Perror msg]) /\
    children tr = map fork_ret (seq 0 k) /\
    forallb (fun e => negb (is_wait e) && negb (is_close e) && negb (is_exec e)) tr = true.
Proof.
  intros Hargc Hname Hp1 Hp2 Hp3 Hk Hparents Hfail.
  unfold FindPhone.main.
  assert (Hlt : (List.length argv <? 2)%nat = false) by (apply Nat.ltb_ge; exact Hargc).
    rewrite Hlt.
  rewrite Hname, Hp1, Hp2, Hp3. cbn [negb]. cbv zeta.
  destruct k as [|[|[|[|k]]]]; [| | | |lia].
  - rewrite Hfail. cbn [Z.eqb].
    eexists. eexists. split; [reflexivity|].
    cbn [app children]. rewrite ?Hfail. split; reflexivity.
  - destruct (Hparents 0%nat ltac:(lia)) as [Ha0 Hb0].
    apply Z.eqb_neq in Ha0, Hb0.
    rewrite Ha0, Hb0, Hfail. cbn [Z.eqb].
    eexists. eexists. split; [reflexivity|].
    cbn [app children]. rewrite ?Ha0, ?Hb0, ?Hfail. split; reflexivity.
  - destruct (Hparents 0%nat ltac:(lia)) as [Ha0 Hb0].
    destruct (Hparents 1%nat ltac:(lia)) as [Ha1 Hb1].
    apply Z.eqb_neq in Ha0, Hb0, Ha1, Hb1.
    rewrite Ha0, Hb0, Ha1, Hb1, Hfail. cbn [Z.eqb].
    eexists. eexists. split; [reflexivity|].
    cbn [app children]. rewrite ?Ha0, ?Hb0, ?Ha1, ?Hb1, ?Hfail. split; reflexivity.
  - destruct (Hparents 0%nat ltac:(lia)) as [Ha0 Hb0].
    destruct (Hparents 1%nat ltac:(lia)) as [Ha1 Hb1].
    destruct (Hparents 2%nat ltac:(lia)) as [Ha2 Hb2].
    apply Z.eqb_neq in Ha0, Hb0, Ha1, Hb1, Ha2, Hb2.
    rewrite Ha0, Hb0, Ha1, Hb1, Ha2, Hb2, Hfail. cbn [Z.eqb].
    eexists. eexists. split; [reflexivity|].
    cbn [app children]. rewrite ?Ha0, ?Hb0, ?Ha1, ?Hb1, ?Ha2, ?Hb2, ?Hfail. split; reflexivity.
Qed.

(** X18 when the third [fork] fails. *)
Lemma failed_fork_abandons_children_witness :
  exists tr msg,
    FindPhone.main
      [list_ascii_of_string "./findPhone"; list_ascii_of_string "Nezer"]
      (fun n => Some (3 + 2 * Z.of_nat n, 4 + 2 * Z.of_nat n))
      (fun i => if (i <? 2)%nat then 100 + Z.of_nat i else -1) true =
      FindPhone.Returned 1 (tr ++ [FindPhone.Perror msg]) /\
    children tr = map (fun i => if (i <? 2)%nat then 100 + Z.of_nat i else -1) (seq 0 2) /\
    forallb (fun e => negb (is_wait e) && negb (is_close e) && negb (is_exec e)) tr = true.
Proof.
  apply (failed_fork_abandons_children
    [list_ascii_of_string "./findPhone"; list_ascii_of_string "Nezer"]
    (fun n => Some (3 + 2 * Z.of_nat n, 4 + 2 * Z.of_nat n))
    (fun i => if (i <? 2)%nat then 100 + Z.of_nat i else -1) true
    2%nat (3, 4) (5, 6) (7, 8)).
  - cbn [List.length]. lia.
  - vm_compute. reflexivity.
  - reflexivity.
  - reflexivity.
  - reflexivity.
  - lia.
  - intros [|[|i]] Hi; [split; discriminate | split; discriminate | lia].
  - reflexivity.
Defined.

(** X19. Nothing but the four commands is run, and [grep] only on a
    checked name: whatever [pipe], [fork] and [execlp] give, a program
    that a process of [findPhone] asks for is one of the four stages
    with its fixed arguments, and a process that made a pipe, forked or
    asked for a program was started with a name, of which every
    character is a letter, a space or an apostrophe - and this name is the
    pattern given to [grep]. *)
Theorem only_the_pipeline_is_run (argv : list (list ascii))
    (pipe_ret : nat -> option (Z * Z)) (fork_ret : nat -> Z) (exec_ok : bool) :
  let tr := trace_of (FindPhone.main argv pipe_ret fork_ret exec_ok) in
  (forall file args, In (FindPhone.Execlp file args) tr ->
     exists k, (k < 4)%nat /\ (file, args) = command (nth 1 argv []) k) /\
  (existsb (fun e => is_pipe e || is_fork e || is_exec e) tr = true ->
     (2 <= List.length argv)%nat /\
     forallb name_char (CString.chars (nth 1 argv [])) = true).
Proof.
  cbv zeta. unfold FindPhone.main.
  destruct (Nat.ltb_spec (List.length argv) 2) as [Hargc|Hargc].
  { cbn [trace_of In existsb is_pipe is_fork is_exec orb]. split.
    - intros file args [H|[]]. discriminate H.
    - discriminate. }
  destruct (CString.is_valid_name (nth 1 argv [])) eqn:Hname; cbn [negb].
  2:{ cbn [trace_of app In existsb is_pipe is_fork is_exec orb]. split.
      - intros file args [H|[H|[]]]; discriminate H.
      - discriminate. }
  rewrite is_valid_name_chars in Hname.
  assert (Hsecond :
    forall tr : list FindPhone.event,
      (forall file args, In (FindPhone.Execlp file args) tr ->
         exists k, (k < 4)%nat /\ (file, args) = command (nth 1 argv []) k) ->
      (forall file args, In (FindPhone.Execlp file args) tr ->
         exists k, (k < 4)%nat /\ (file, args) = command (nth 1 argv []) k) /\
      (existsb (fun e => is_pipe e || is_fork e || is_exec e) tr = true ->
         (2 <= List.length argv)%nat /\
         forallb name_char (CString.chars (nth 1 argv [])) = true)).
  { intros tr H. split; [exact H|]. intros _. split; [exact Hargc | exact Hname]. }
  cbv zeta.
  unfold FindPhone.exec_or_die, FindPhone.close_pipes, FindPhone.c_str.
  destruct (pipe_ret 0%nat) as [pipe1|];
    [|apply Hsecond; cbn [trace_of app In]; intros file args H;
      repeat (destruct H as [H|H]; [discriminate H|]); destruct H].
  destruct (pipe_ret 1%nat) as [pipe2|];
    [|apply Hsecond; cbn [trace_of app In]; intros file args H;
      repeat (destruct H as [H|H]; [discriminate H|]); destruct H].
  destruct (pipe_ret 2%nat) as [pipe3|];
    [|apply Hsecond; cbn [trace_of app In]; intros file args H;
      repeat (destruct H as [H|H]; [discriminate H|]); destruct H].
  destruct (fork_ret 0%nat =? -1);
    [apply Hsecond; cbn [trace_of app In]; intros file args H;
     repeat (destruct H as [H|H]; [discriminate H|]); destruct H|].
  destruct (fork_ret 0%nat =? 0).
  { apply Hsecond. intros file args H. exists 0%nat. split; [lia|].
    destruct exec_ok; cbn [trace_of app In] in H;
      repeat destruct H as [H|H]; try discriminate H; try contradiction;
      injection H as <- <-; reflexivity. }
  destruct (fork_ret 1%nat =? -1);
    [apply Hsecond; cbn [trace_of app In]; intros file args H;
     repeat (destruct H as [H|H]; [discriminate H|]); destruct H|].
  destruct (fork_ret 1%nat =? 0).
  { apply Hsecond. intros file args H. exists 1%nat. split; [lia|].
    destruct exec_ok; cbn [trace_of app In] in H;
      repeat destruct H as [H|H]; try discriminate H; try contradiction;
      injection H as <- <-; reflexivity. }
  destruct (fork_ret 2%nat =? -1);
    [apply Hsecond; cbn [trace_of app In]; intros file args H;
     repeat (destruct H as [H|H]; [discriminate H|]); destruct H|].
  destruct (fork_ret 2%nat =? 0).
  { apply Hsecond. intros file args H. exists 2%nat. split; [lia|].
    destruct exec_ok; cbn [trace_of app In] in H;
      repeat destruct H as [H|H]; try discriminate H; try contradiction;
      injection H as <- <-; reflexivity. }
  destruct (fork_ret 3%nat =? -1);
    [apply Hsecond; cbn [trace_of app In]; intros file args H;
     repeat (destruct H as [H|H]; [discriminate H|]); destruct H|].
  destruct (fork_ret 3%nat =? 0).
  { apply Hsecond. intros file args H. exists 3%nat. split; [lia|].
    destruct exec_ok; cbn [trace_of app In] in H;
      repeat destruct H as [H|H]; try discriminate H; try contradiction;
      injection H as <- <-; reflexivity. }
  apply Hsecond. cbn [trace_of app In map]. intros file args H.
  repeat (destruct H as [H|H]; [discriminate H|]). destruct H.
Qed.
